(** * dell-cpld-latest: the CPLD firmware poller, embedded in Rocq

    A shallow embedding of [fetch_cpld.py] and [utils_catalog_fallback.py].

    Conventions of the embedding.
    - A Python [str] of the program is a [string]. The case mapping, the
      digits and the white space of the model are the ASCII ones, which are
      Python's on ASCII texts; a statement that would depend on Python's
      wider classes carries the hypothesis [ascii_text].
    - A decoded JSON document is a [json] value; Python's [None] is [JNull],
      a [dict] is a [gmap] from keys to values.
    - Code that can raise returns a [res]: [Ok v] or [Raise e].
    - The HTTP service, the clock and the standard output are an explicit
      state that every call threads through; it logs the requests sent,
      the sleeps and the lines printed. [time.sleep] takes a whole number
      of seconds and raises as CPython does: below zero, and beyond
      9223372036 seconds in either direction.
    - The file system is a finite map from paths to nodes. A file holds
      bytes; the texts written and read are sequences of code points,
      encoded in UTF-8 and read with universal newlines. *)

From stdpp Require Import gmap strings list sorting.
From Stdlib Require Import ZArith Ascii String Lia Bool DecimalString.

#[local] Set Warnings "-register-all".
#[local] Open Scope string_scope.
#[local] Open Scope Z_scope.

(** ** Exceptions and fallible results *)

Inductive exn_class :=
| TypeError | AttributeError | ValueError | KeyError
| FileExistsError | FileNotFoundError | NotADirectoryError | IsADirectoryError
| OverflowError | UnicodeDecodeError | UnicodeEncodeError
| RequestException.

Record exn := Exn { exn_cls : exn_class; exn_msg : string }.

Inductive res (A : Type) :=
| Ok (a : A)
| Raise (e : exn).
Arguments Ok {A} a.
Arguments Raise {A} e.

Definition rbind {A B} (m : res A) (f : A -> res B) : res B :=
  match m with
  | Ok a => f a
  | Raise e => Raise e
  end.

Notation "'let*' x ':=' m 'in' k" := (rbind m (fun x => k))
  (at level 10, x name, m at level 100, k at level 200).

(** [for x in xs: ys.append(f(x))], stopping at the first exception. *)
Fixpoint rmapM {A B} (f : A -> res B) (xs : list A) : res (list B) :=
  match xs with
  | [] => Ok []
  | x :: xs' =>
      let* y := f x in
      let* ys := rmapM f xs' in
      Ok (y :: ys)
  end.

(** [[x for x in xs if p(x)]] with a predicate that can raise. *)
Fixpoint rfilterM {A} (p : A -> res bool) (xs : list A) : res (list A) :=
  match xs with
  | [] => Ok []
  | x :: xs' =>
      let* b := p x in
      let* ys := rfilterM p xs' in
      Ok (if b then x :: ys else ys)
  end.

Definition raises {A} (m : res A) : Prop :=
  match m with Ok _ => False | Raise _ => True end.

(** ** Strings: [str.lower], [in], [str.startswith], [str.replace], [str.join] *)

Definition is_upper (c : ascii) : bool :=
  (65 <=? nat_of_ascii c)%nat && (nat_of_ascii c <=? 90)%nat.

Definition lower_ascii (c : ascii) : ascii :=
  if is_upper c then ascii_of_nat (nat_of_ascii c + 32) else c.

Fixpoint lower (s : string) : string :=
  match s with
  | EmptyString => EmptyString
  | String c s' => String (lower_ascii c) (lower s')
  end.

(** [s.startswith(p)] *)
Fixpoint startswith (s p : string) {struct p} : bool :=
  match p with
  | EmptyString => true
  | String a p' =>
      match s with
      | EmptyString => false
      | String b s' => Ascii.eqb a b && startswith s' p'
      end
  end.

(** [pat in s] for two strings *)
Fixpoint contains (pat s : string) : bool :=
  startswith s pat ||
  match s with
  | EmptyString => false
  | String _ s' => contains pat s'
  end.

(** [s.replace("-", " ")] *)
Fixpoint replace_hyphens (s : string) : string :=
  match s with
  | EmptyString => EmptyString
  | String c s' =>
      String (if Ascii.eqb c "-" then " "%char else c) (replace_hyphens s')
  end.

(** [" ".join(parts)] *)
Fixpoint join_spaces (parts : list string) : string :=
  match parts with
  | [] => ""
  | [p] => p
  | p :: ps => p +:+ " " +:+ join_spaces ps
  end.

(** Comparison of two [str]: by code point, a proper prefix being smaller. *)
Fixpoint str_ltb (a b : string) : bool :=
  match a, b with
  | _, EmptyString => false
  | EmptyString, String _ _ => true
  | String x a', String y b' =>
      (nat_of_ascii x <? nat_of_ascii y)%nat
      || (Ascii.eqb x y && str_ltb a' b')
  end.

(** ** Python values decoded from JSON

    Numbers are integers here: the program only tests a number for being
    zero, and hands it on. *)

Inductive json :=
| JNull
| JBool (b : bool)
| JNum (n : Z)
| JStr (s : string)
| JArr (l : list json)
| JObj (m : gmap string json).

(** Truth value of an object, as tested by [if], [not] and [or]. *)
Definition truthy (v : json) : bool :=
  match v with
  | JNull => false
  | JBool b => b
  | JNum n => negb (n =? 0)
  | JStr s => negb (String.eqb s "")
  | JArr l => match l with [] => false | _ => true end
  | JObj m => negb (bool_decide (m = ∅))
  end.

(** [a or b] *)
Definition py_or (a b : json) : json := if truthy a then a else b.

(** [v.get(k, default)]: only a [dict] has the method. *)
Definition py_get (v : json) (k : string) (default : json) : res json :=
  match v with
  | JObj m => Ok (match m !! k with Some x => x | None => default end)
  | _ => Raise (Exn AttributeError "object has no attribute 'get'")
  end.

Definition is_JStr (k : string) (v : json) : bool :=
  match v with JStr s => String.eqb s k | _ => false end.

(** [k in v] for a string [k]: key of a [dict], element of a [list],
    substring of a [str]; the other types are not containers. *)
Definition py_in (k : string) (v : json) : res bool :=
  match v with
  | JObj m => Ok (bool_decide (is_Some (m !! k)))
  | JArr l => Ok (existsb (is_JStr k) l)
  | JStr s => Ok (contains k s)
  | _ => Raise (Exn TypeError "argument is not iterable")
  end.

(** [v[k]] for a string [k] *)
Definition py_getitem (v : json) (k : string) : res json :=
  match v with
  | JObj m =>
      match m !! k with
      | Some x => Ok x
      | None => Raise (Exn KeyError k)
      end
  | _ => Raise (Exn TypeError "indices must be integers")
  end.

Fixpoint chars_of (s : string) : list json :=
  match s with
  | EmptyString => []
  | String c s' => JStr (String c EmptyString) :: chars_of s'
  end.

(** The items a [for] loop over [v] visits: the elements of a [list], the
    keys of a [dict], the characters of a [str]. *)
Definition py_iter (v : json) : res (list json) :=
  match v with
  | JArr l => Ok l
  | JObj m => Ok (JStr <$> (map_to_list m).*1)
  | JStr s => Ok (chars_of s)
  | _ => Raise (Exn TypeError "object is not iterable")
  end.

(** ** Calendar dates: [datetime.date] *)

Record date := Date { year : Z; month : Z; day : Z }.

Definition is_leap (y : Z) : bool :=
  (y mod 4 =? 0) && (negb (y mod 100 =? 0) || (y mod 400 =? 0)).

Definition days_in_month (y m : Z) : Z :=
  if m =? 2 then (if is_leap y then 29 else 28)
  else if (m =? 4) || (m =? 6) || (m =? 9) || (m =? 11) then 30
  else 31.

(** The constructor [date(year, month, day)] checks its arguments. *)
Definition datetime_date (y m d : Z) : res date :=
  if (1 <=? y) && (y <=? 9999) && (1 <=? m) && (m <=? 12)
     && (1 <=? d) && (d <=? days_in_month y m)
  then Ok (Date y m d)
  else Raise (Exn ValueError "date value out of range").

(** [datetime.min.date()] *)
Definition date_min : date := Date 1 1 1.

(** [a < b] on dates *)
Definition date_ltb (a b : date) : bool :=
  (year a <? year b)
  || ((year a =? year b)
      && ((month a <? month b)
          || ((month a =? month b) && (day a <? day b)))).

(** ** The regular expression behind [strptime]

    [datetime.strptime(s, fmt)] turns [fmt] into a regular expression,
    compiled with [IGNORECASE], takes the first match in the order a
    backtracking matcher tries them, and rejects the input when text
    remains after it (CPython, [Lib/_strptime.py]). *)

Inductive re :=
| Cls (p : ascii -> bool)
| Seq (r1 r2 : re)
| Alt (r1 r2 : re)
| Plus (p : ascii -> bool)
| Grp (name : string) (r : re).

Definition captures := list (string * list ascii).

(** The ways [p+] can match at the head of [s], longest first; each is
    given by the text that remains. *)
Fixpoint plus_class (p : ascii -> bool) (s : list ascii) : list (list ascii) :=
  match s with
  | [] => []
  | c :: s' => if p c then (plus_class p s' ++ [s'])%list else []
  end.

(** All the matches of [r] at the head of [s], in the order of preference
    of a backtracking matcher: the groups captured and the text that
    remains. *)
Fixpoint rmatch (r : re) (s : list ascii) : list (captures * list ascii) :=
  match r with
  | Cls p =>
      match s with
      | c :: s' => if p c then [([], s')] else []
      | [] => []
      end
  | Seq r1 r2 =>
      flat_map (fun m1 => (fun m2 => ((m1.1 ++ m2.1)%list, m2.2)) <$> rmatch r2 m1.2)
               (rmatch r1 s)
  | Alt r1 r2 => (rmatch r1 s ++ rmatch r2 s)%list
  | Plus p => (fun s' => ([], s')) <$> plus_class p s
  | Grp n r1 =>
      (fun m => ((n, take (List.length s - List.length m.2)%nat s) :: m.1, m.2))
        <$> rmatch r1 s
  end.

(** [found.group(n)] *)
Fixpoint group (n : string) (g : captures) : list ascii :=
  match g with
  | [] => []
  | (k, v) :: g' => if String.eqb k n then v else group n g'
  end.

Definition in_range (lo hi : ascii) (c : ascii) : bool :=
  (nat_of_ascii lo <=? nat_of_ascii c)%nat && (nat_of_ascii c <=? nat_of_ascii hi)%nat.

(** [\d] *)
Definition is_digit : ascii -> bool := in_range "0" "9".

(** [\s]: tab, line feed, vertical tab, form feed, carriage return, the
    four separators 28 to 31, and the space. *)
Definition is_space (c : ascii) : bool :=
  let n := nat_of_ascii c in
  ((9 <=? n) && (n <=? 13) || (28 <=? n) && (n <=? 32))%nat.

(** A literal character under [IGNORECASE]. *)
Definition ci_char (x : ascii) (c : ascii) : bool :=
  Ascii.eqb (lower_ascii c) (lower_ascii x).

Fixpoint lit (l : list ascii) : re :=
  match l with
  | [] => Cls (fun _ => false)
  | [x] => Cls (ci_char x)
  | x :: l' => Seq (Cls (ci_char x)) (lit l')
  end.

Fixpoint alts (rs : list re) : re :=
  match rs with
  | [] => Cls (fun _ => false)
  | [r] => r
  | r :: rs' => Alt r (alts rs')
  end.

(** [locale_time.a_month[1:]] in the C locale *)
Definition a_month : list string :=
  ["jan"; "feb"; "mar"; "apr"; "may"; "jun";
   "jul"; "aug"; "sep"; "oct"; "nov"; "dec"].

(** [%d]: [(?P<d>3[0-1]|[1-2]\d|0[1-9]|[1-9]| [1-9])] *)
Definition re_d : re :=
  Grp "d" (alts [ Seq (Cls (ci_char "3")) (Cls (in_range "0" "1"));
                  Seq (Cls (in_range "1" "2")) (Cls is_digit);
                  Seq (Cls (ci_char "0")) (Cls (in_range "1" "9"));
                  Cls (in_range "1" "9");
                  Seq (Cls (ci_char " ")) (Cls (in_range "1" "9")) ]).

(** [%b]: [(?P<b>jan|feb|...|dec)] *)
Definition re_b : re :=
  Grp "b" (alts ((fun m => lit (list_ascii_of_string m)) <$> a_month)).

(** [%Y]: [(?P<Y>\d\d\d\d)] *)
Definition re_Y : re :=
  Grp "Y" (Seq (Cls is_digit) (Seq (Cls is_digit) (Seq (Cls is_digit) (Cls is_digit)))).

(** The pattern of ["%d %b %Y"]: each blank of the format becomes [\s+]. *)
Definition re_d_b_Y : re :=
  Seq re_d (Seq (Plus is_space) (Seq re_b (Seq (Plus is_space) re_Y))).

Definition digit_val (c : ascii) : Z := Z.of_nat (nat_of_ascii c) - 48.

Fixpoint digits_val (acc : Z) (l : list ascii) : res Z :=
  match l with
  | [] => Ok acc
  | c :: l' =>
      if is_digit c then digits_val (10 * acc + digit_val c) l'
      else Raise (Exn ValueError "invalid literal for int()")
  end.

Fixpoint lstrip (l : list ascii) : list ascii :=
  match l with
  | c :: l' => if is_space c then lstrip l' else l
  | [] => []
  end.

(** [int(text)] on the text of a group: blanks around the digits are
    dropped ([%d] can capture a blank before its digit). *)
Definition py_int (l : list ascii) : res Z :=
  match lstrip l with
  | [] => Raise (Exn ValueError "invalid literal for int()")
  | l' => digits_val 0 l'
  end.

Fixpoint index_from (i : Z) (x : string) (l : list string) : res Z :=
  match l with
  | [] => Raise (Exn ValueError "not in list")
  | y :: l' => if String.eqb x y then Ok i else index_from (i + 1) x l'
  end.

(** [locale_time.a_month.index(b.lower())]; the list starts with an empty
    name, so January has index 1. *)
Definition month_index (b : list ascii) : res Z :=
  index_from 0 (lower (string_of_list_ascii b)) ("" :: a_month).

(** [datetime.strptime(s, "%d %b %Y").date()] *)
Definition strptime_d_b_Y (v : json) : res date :=
  match v with
  | JStr s =>
      match rmatch re_d_b_Y (list_ascii_of_string s) with
      | [] => Raise (Exn ValueError "time data does not match format")
      | (g, rest) :: _ =>
          match rest with
          | _ :: _ => Raise (Exn ValueError "unconverted data remains")
          | [] =>
              let* d := py_int (group "d" g) in
              let* m := month_index (group "b" g) in
              let* y := py_int (group "Y" g) in
              datetime_date y m d
          end
      end
  | _ => Raise (Exn TypeError "strptime() argument 1 must be str")
  end.

(** [parse_date], the helper nested in [parse_rows]:
    [try: return datetime.strptime(s, "%d %b %Y").date()]
    [except Exception: return None] *)
Definition parse_date (s : json) : option date :=
  match strptime_d_b_Y s with
  | Ok d => Some d
  | Raise _ => None
  end.

(** ** The HTTP service, the clock and the output of a run *)

Record request := Request {
  rq_url : string;
  rq_productcode : string;
  rq_oscode : string;
  rq_lob : string;
  rq_initialload : bool;
  rq_accept : string;
  rq_requested_with : string;
  rq_user_agent : string;
  rq_referer : string
}.

Record response := Response {
  resp_url : string;
  status_code : Z;
  reason : string;
  content_type : option string;     (* the Content-Type header, when sent *)
  resp_json : res json              (* what [resp.json()] gives *)
}.

(** What [requests.get] does with a request: it answers or it raises. *)
Inductive http_result :=
| Answered (r : response)
| Failed (e : exn).

(** The service: its reaction to the [n]-th request of the run. The
    position stands for everything the program does not control (the time
    stamp sent as cache buster, the state of the network). *)
Definition network := nat -> request -> http_result.

Inductive event :=
| ERequest (rq : request)
| EPrint (line : string)
| ESleep (seconds : Z)
| EWarn (message : string).

Record state := State {
  sent : nat;                (* requests made so far *)
  trace : list event         (* what was requested, printed, slept and warned,
                                oldest first *)
}.

Definition emit (e : event) (st : state) : state :=
  State (sent st) (trace st ++ [e]).

Definition http_get (net : network) (rq : request) (st : state) : http_result * state :=
  (net (sent st) rq, State (S (sent st)) (trace st ++ [ERequest rq])).

(** The longest sleep, in seconds: [time.sleep] first converts the length
    to nanoseconds in a signed 64-bit integer (CPython, [Python/pytime.c]),
    and [2^63 - 1] nanoseconds are 9223372036 whole seconds. *)
Definition sleep_max : Z := 9223372036.

(** [time.sleep(secs)] for a whole number of seconds, given as an [int] or
    as a [float] of integral value: a length that does not fit, in either
    direction, raises [OverflowError]; a negative length that fits is
    refused with [ValueError]. Lengths that are not whole numbers are not
    modelled. *)
Definition py_sleep (secs : Z) (st : state) : res unit * state :=
  if (secs <? - sleep_max) || (sleep_max <? secs)
  then (Raise (Exn OverflowError "timestamp too large to convert to C _PyTime_t"), st)
  else if secs <? 0
  then (Raise (Exn ValueError "sleep length must be non-negative"), st)
  else (Ok tt, emit (ESleep secs) st).

(** [str(n)] for an [int] *)
Definition str_Z (n : Z) : string := NilZero.string_of_int (Z.to_int n).

(** ** [fetch_cpld.py]: constants *)

Definition API_URL (country : string) : string :=
  "https://www.dell.com/support/driver/" +:+ country
  +:+ "/ips/api/driverlist/fetchdriversbyproduct".

Definition DEFAULT_OSCODES : list string := ["NAA"; "W2022"; "W2019"; "WS16"; "WS12R2"].

Definition COUNTRY : string := "en-us".

(** ** [call_dell_api] *)

Definition build_request (productcode oscode country : string) : request :=
  {| rq_url := API_URL country;
     rq_productcode := productcode;
     rq_oscode := oscode;
     rq_lob := "PowerEdge";
     rq_initialload := true;
     rq_accept := "application/json, text/javascript, */*; q=0.01";
     rq_requested_with := "XMLHttpRequest";
     rq_user_agent := "Mozilla/5.0 (GitHubActions; +https://github.com/) PythonRequests";
     rq_referer := "https://www.dell.com/support/home/" +:+ country
                   +:+ "/product-support/product/" +:+ productcode +:+ "/drivers" |}.

(** How one pass through the body of the [try] ends. *)
Inductive try_end :=
| Returned (v : json)        (* [return resp.json()] *)
| Completed                  (* fell off the end of the [try] *)
| Caught (e : exn).          (* an exception reached [except Exception] *)

(** The body of the [try] for one attempt. *)
Definition try_body (net : network) (rq : request) (backoff : Z) (attempt : nat)
    (st : state) : try_end * state :=
  match http_get net rq st with
  | (Failed e, st1) => (Caught e, st1)
  | (Answered resp, st1) =>
      let st2 := emit (EPrint ("[debug] GET " +:+ resp_url resp +:+ " -> "
                               +:+ str_Z (status_code resp) +:+ " " +:+ reason resp)) st1 in
      let ctype := match content_type resp with Some c => c | None => "" end in
      if (status_code resp =? 200) && startswith ctype "application/json" then
        match resp_json resp with
        | Ok v => (Returned v, st2)
        | Raise e => (Caught e, st2)
        end
      else
        let st3 :=
          if status_code resp =? 204
          then emit (EPrint "[warn] 204 No Content; retrying...") st2
          else emit (EPrint ("[warn] Unexpected status " +:+ str_Z (status_code resp)
                             +:+ " (Content-Type=" +:+ ctype +:+ "); retrying...")) st2 in
        match py_sleep (backoff * Z.of_nat attempt) st3 with
        | (Ok _, st4) => (Completed, st4)
        | (Raise e, st4) => (Caught e, st4)
        end
  end.

(** How the [for] loop over the attempts ends. *)
Inductive loop_end :=
| LReturn (v : json)               (* the function returned from inside the loop *)
| LExhausted (last_exc : option exn)
| LRaise (e : exn).                (* an exception left the handler *)

(** [for attempt in range(1, retries + 1): try: ... except Exception as e: ...] *)
Fixpoint attempt_loop (net : network) (rq : request) (backoff : Z)
    (attempts : list nat) (last_exc : option exn) (st : state) : loop_end * state :=
  match attempts with
  | [] => (LExhausted last_exc, st)
  | attempt :: later =>
      match try_body net rq backoff attempt st with
      | (Returned v, st1) => (LReturn v, st1)
      | (Completed, st1) => attempt_loop net rq backoff later last_exc st1
      | (Caught e, st1) =>
          let st2 := emit (EPrint ("[error] Exception: " +:+ exn_msg e +:+ "; retrying...")) st1 in
          match py_sleep (backoff * Z.of_nat attempt) st2 with
          | (Ok _, st3) => attempt_loop net rq backoff later (Some e) st3
          | (Raise e', st3) => (LRaise e', st3)
          end
      end
  end.

Definition warning_text (productcode oscode : string) (e : exn) : string :=
  "call_dell_api(" +:+ productcode +:+ ", " +:+ oscode +:+ ") failed: " +:+ exn_msg e.

Definition call_dell_api (net : network) (productcode oscode country : string)
    (retries : nat) (backoff : Z) (st : state) : res json * state :=
  let rq := build_request productcode oscode country in
  match attempt_loop net rq backoff (seq 1 retries) None st with
  | (LReturn v, st1) => (Ok v, st1)
  | (LRaise e, st1) => (Raise e, st1)
  | (LExhausted last_exc, st1) =>
      match last_exc with
      | Some e => (Ok JNull, emit (EWarn (warning_text productcode oscode e)) st1)
      | None => (Ok JNull, st1)
      end
  end.

(** ** [parse_rows] *)

Record Row := mkRow {
  ReleaseDate : option date;
  ReleaseDateRaw : json;
  LastUpdate : option date;
  UpdateStatus : json;
  Version : json;
  Name : json;
  Category : json;
  DriverId : json;
  DownloadUrl : json
}.

(** The body of the loop of [parse_rows] for one entry [d]. *)
Definition normalize_row (d : json) : res Row :=
  let* rd_raw := py_get d "ReleaseDate" JNull in
  let* lu_raw := py_get d "LUPDDate" JNull in
  let* imp := py_get d "Imp" JNull in
  let* ver := py_get d "DellVer" JNull in
  let* name := py_get d "DriverName" (JStr "") in
  let* cat := py_get d "Category" (JStr "") in
  let* id1 := py_get d "DriverId" JNull in
  let* id :=
    (if truthy id1 then Ok id1 else
     let* id2 := py_get d "DriverIdEN" JNull in
     if truthy id2 then Ok id2 else
     let* ffi := py_get d "FileFrmtInfo" JNull in
     py_get (py_or ffi (JObj ∅)) "FileId" JNull) in
  let* ffi := py_get d "FileFrmtInfo" JNull in
  let* path := py_get (py_or ffi (JObj ∅)) "Path" JNull in
  Ok {| ReleaseDate := parse_date rd_raw;
        ReleaseDateRaw := rd_raw;
        LastUpdate := parse_date lu_raw;
        UpdateStatus := imp;
        Version := ver;
        Name := name;
        Category := cat;
        DriverId := id;
        DownloadUrl := path |}.

Definition parse_rows (driver_json : json) : res (list Row) :=
  if negb (truthy driver_json) then Ok [] else
  let* present := py_in "DriverListData" driver_json in
  if negb present then Ok [] else
  let* entries := py_getitem driver_json "DriverListData" in
  let* ds := py_iter entries in
  rmapM normalize_row ds.

(** ** [is_cpld] *)

(** [v.lower()]: a method of [str] only. *)
Definition py_lower (v : json) : res string :=
  match v with
  | JStr s => Ok (lower s)
  | _ => Raise (Exn AttributeError "object has no attribute 'lower'")
  end.

Definition is_cpld (row : Row) : res bool :=
  let* name := py_lower (py_or (Name row) (JStr "")) in
  let* cat := py_lower (py_or (Category row) (JStr "")) in
  Ok (contains "cpld" name || contains "cpld" cat
      || contains "complex programmable logic" name).

(** ** [list.sort(key=..., reverse=True)]: stable, greatest key first *)

Section Sorting.
Context {A K : Type} (key : A -> K) (ltb : K -> K -> bool).

Fixpoint insert_desc (x : A) (l : list A) : list A :=
  match l with
  | [] => [x]
  | y :: l' => if ltb (key x) (key y) then y :: insert_desc x l' else x :: l
  end.

(** Each element is put behind the greater keys only, so of two equal
    keys the one that came first stays first. *)
Fixpoint sort_desc (l : list A) : list A :=
  match l with
  | [] => []
  | x :: l' => insert_desc x (sort_desc l')
  end.
End Sorting.

(** ** [find_latest_cpld] *)

(** [r.get("ReleaseDate") or datetime.min.date()]; a date is never false. *)
Definition sort_key (r : Row) : date :=
  match ReleaseDate r with
  | Some d => d
  | None => date_min
  end.

(** [if best is None or key(candidate) > key(best): best = candidate] *)
Definition keep_best (best : option Row) (candidate : Row) : option Row :=
  match best with
  | None => Some candidate
  | Some b => if date_ltb (sort_key b) (sort_key candidate) then Some candidate else best
  end.

(** [cpld_rows] of one iteration: the rows of the answer that pass the filter. *)
Definition cpld_rows_of (data : json) : res (list Row) :=
  let* rows := parse_rows data in
  rfilterM is_cpld rows.

Fixpoint find_latest_loop (net : network) (productcode country : string)
    (oscodes : list string) (best : option Row) (st : state)
    : res (option Row) * state :=
  match oscodes with
  | [] => (Ok best, st)
  | oscode :: later =>
      match call_dell_api net productcode oscode country 3 2 st with
      | (Raise e, st1) => (Raise e, st1)
      | (Ok data, st1) =>
          match cpld_rows_of data with
          | Raise e => (Raise e, st1)
          | Ok cpld_rows =>
              match sort_desc sort_key date_ltb cpld_rows with
              | [] => find_latest_loop net productcode country later best st1
              | candidate :: _ =>
                  find_latest_loop net productcode country later
                                   (keep_best best candidate) st1
              end
          end
      end
  end.

(** [oscodes or DEFAULT_OSCODES] *)
Definition effective_oscodes (oscodes : option (list string)) : list string :=
  match oscodes with
  | Some (c :: l) => c :: l
  | _ => DEFAULT_OSCODES
  end.

Definition find_latest_cpld (net : network) (productcode : string)
    (oscodes : option (list string)) (country : string) (st : state)
    : res (option Row) * state :=
  find_latest_loop net productcode country (effective_oscodes oscodes) None st.

(** ** [main]: the record kept for each product code *)

(** A value stored in the snapshot before it is serialized: JSON data, or a
    [date] object. *)
Inductive pyval :=
| VJson (j : json)
| VDate (d : date).

Record ResultRecord := mkResult {
  name : json;
  version : json;
  release_date : pyval;
  driver_id : json;
  download_url : json;
  category : json
}.

(** The dict literal of [main]; [latest.get("ReleaseDate") or ""]. *)
Definition result_record (latest : Row) : ResultRecord :=
  {| name := Name latest;
     version := Version latest;
     release_date := match ReleaseDate latest with
                     | Some d => VDate d
                     | None => VJson (JStr "")
                     end;
     driver_id := DriverId latest;
     download_url := DownloadUrl latest;
     category := Category latest |}.

Definition digit_char (n : Z) : ascii := ascii_of_nat (Z.to_nat (48 + n mod 10)).

(** The last [w] decimal digits of [n], that is ["%0wd" % n] when
    [0 <= n < 10^w]. *)
Fixpoint zero_padded (w : nat) (n : Z) (acc : string) : string :=
  match w with
  | O => acc
  | S w' => zero_padded w' (n / 10) (String (digit_char n) acc)
  end.

(** [date.isoformat()], which is also [str(date)]:
    ["%04d-%02d-%02d" % (year, month, day)] *)
Definition isoformat (d : date) : string :=
  zero_padded 4 (year d) ("-" +:+ zero_padded 2 (month d) ("-" +:+ zero_padded 2 (day d) "")).

(** [json.dumps(..., default=str)] on one stored value: what JSON cannot
    encode goes through [str]. *)
Definition dumps_value (v : pyval) : json :=
  match v with
  | VJson j => j
  | VDate d => JStr (isoformat d)
  end.

(** The record as it is written to the snapshot, keys in the order of the
    dict literal. *)
Definition dumps_record (r : ResultRecord) : list (string * json) :=
  [ ("name", name r);
    ("version", version r);
    ("release_date", dumps_value (release_date r));
    ("driver_id", driver_id r);
    ("download_url", download_url r);
    ("category", category r) ].

Record ServerEntry := mkServer {
  productcode : string;
  oscodes : option (list string)
}.

(** [d[k] = v] on a dict kept in insertion order. *)
Fixpoint dict_set {V} (k : string) (v : V) (d : list (string * V)) : list (string * V) :=
  match d with
  | [] => [(k, v)]
  | (k', v') :: d' => if String.eqb k' k then (k, v) :: d' else (k', v') :: dict_set k v d'
  end.

Fixpoint dict_get {V} (k : string) (d : list (string * V)) : option V :=
  match d with
  | [] => None
  | (k', v') :: d' => if String.eqb k' k then Some v' else dict_get k d'
  end.

(** [if latest: {...} else: None]; a row has nine keys, so it is never false. *)
Definition main_entry (latest : option Row) : option ResultRecord :=
  match latest with
  | Some r => Some (result_record r)
  | None => None
  end.

(** The [for s in servers] loop of [main], filling [result["data"]]. *)
Fixpoint main_loop (net : network) (servers : list ServerEntry)
    (data : list (string * option ResultRecord)) (st : state)
    : res (list (string * option ResultRecord)) * state :=
  match servers with
  | [] => (Ok data, st)
  | s :: later =>
      match find_latest_cpld net (productcode s) (oscodes s) COUNTRY st with
      | (Raise e, st1) => (Raise e, st1)
      | (Ok latest, st1) =>
          main_loop net later (dict_set (productcode s) (main_entry latest) data) st1
      end
  end.

(** ** The file system and [write_if_changed] *)

Module FS.

(** *** Texts and bytes

    The file holds bytes, the program handles texts. A text of this part
    is a Python [str] as it is: a sequence of code points from 0 to
    0x10FFFF, the surrogates 0xD800 to 0xDFFF included. A byte is a number
    from 0 to 255. *)
Definition text := list Z.
Definition bytes := list Z.

Definition is_surrogate (c : Z) : bool := (0xD800 <=? c) && (c <=? 0xDFFF).

(** The UTF-8 encoding of one code point; a surrogate has none. *)
Definition encode_char (c : Z) : option bytes :=
  if c <? 0 then None
  else if c <? 0x80 then Some [c]
  else if c <? 0x800 then Some [0xC0 + c / 64; 0x80 + c mod 64]
  else if c <? 0x10000 then
    if is_surrogate c then None
    else Some [0xE0 + c / 64 / 64; 0x80 + (c / 64) mod 64; 0x80 + c mod 64]
  else if c <? 0x110000 then
    Some [0xF0 + c / 64 / 64 / 64; 0x80 + (c / 64 / 64) mod 64;
          0x80 + (c / 64) mod 64; 0x80 + c mod 64]
  else None.

Fixpoint encode_utf8 (s : text) : option bytes :=
  match s with
  | [] => Some []
  | c :: s' =>
      match encode_char c, encode_utf8 s' with
      | Some b, Some rest => Some (b ++ rest)%list
      | _, _ => None
      end
  end.

(** The payload of a continuation byte. *)
Definition continuation (b : Z) : option Z :=
  if (0x80 <=? b) && (b <=? 0xBF) then Some (b - 0x80) else None.

(** Strict UTF-8: no overlong form, no surrogate, nothing beyond 0x10FFFF,
    no sequence cut short. *)
Fixpoint decode_utf8 (b : bytes) : option text :=
  match b with
  | [] => Some []
  | b0 :: r0 =>
      if (0 <=? b0) && (b0 <? 0x80) then cons b0 <$> decode_utf8 r0
      else if (0xC2 <=? b0) && (b0 <=? 0xDF) then
        match r0 with
        | b1 :: r1 =>
            match continuation b1 with
            | Some x1 => cons ((b0 - 0xC0) * 64 + x1) <$> decode_utf8 r1
            | None => None
            end
        | _ => None
        end
      else if (0xE0 <=? b0) && (b0 <=? 0xEF) then
        match r0 with
        | b1 :: b2 :: r2 =>
            match continuation b1, continuation b2 with
            | Some x1, Some x2 =>
                let c := ((b0 - 0xE0) * 64 + x1) * 64 + x2 in
                if (0x800 <=? c) && negb (is_surrogate c)
                then cons c <$> decode_utf8 r2 else None
            | _, _ => None
            end
        | _ => None
        end
      else if (0xF0 <=? b0) && (b0 <=? 0xF4) then
        match r0 with
        | b1 :: b2 :: b3 :: r3 =>
            match continuation b1, continuation b2, continuation b3 with
            | Some x1, Some x2, Some x3 =>
                let c := (((b0 - 0xF0) * 64 + x1) * 64 + x2) * 64 + x3 in
                if (0x10000 <=? c) && (c <=? 0x10FFFF)
                then cons c <$> decode_utf8 r3 else None
            | _, _, _ => None
            end
        | _ => None
        end
      else None
  end.

(** [s.encode()], that is UTF-8 with [errors="strict"] *)
Definition str_encode (s : text) : res bytes :=
  match encode_utf8 s with
  | Some b => Ok b
  | None => Raise (Exn UnicodeEncodeError "surrogates not allowed")
  end.

(** [b.decode("utf-8")] *)
Definition bytes_decode (b : bytes) : res text :=
  match decode_utf8 b with
  | Some s => Ok s
  | None => Raise (Exn UnicodeDecodeError "invalid start byte")
  end.

(** Reading in text mode with the default [newline=None]: a carriage
    return, alone or before a line feed, is handed over as a line feed. *)
Fixpoint universal_newlines (s : text) : text :=
  match s with
  | [] => []
  | c :: s' =>
      if c =? 13 then
        10 :: match s' with
              | c' :: s'' =>
                  if c' =? 10 then universal_newlines s'' else universal_newlines s'
              | [] => []
              end
      else c :: universal_newlines s'
  end.

(** *** Paths and nodes *)

(** A path is the list of its components below the working directory;
    the empty list is the working directory itself. *)
Definition path := list string.

Inductive node :=
| File (content : bytes)
| Dir.

Record fs := mkFs {
  tree : gmap (list string) node;
  writes : nat          (* how many times a file was written *)
}.

Definition lookup_node (p : path) (f : fs) : option node :=
  match p with
  | [] => Some Dir
  | _ => tree f !! p
  end.

(** [path.parent] *)
Definition parent (p : path) : path := removelast p.

(** [path.exists()] *)
Definition exists_ (p : path) (f : fs) : bool :=
  match lookup_node p f with Some _ => true | None => false end.

(** [path.is_dir()] *)
Definition is_dir (p : path) (f : fs) : bool :=
  match lookup_node p f with Some Dir => true | _ => false end.

(** [os.mkdir(p)] *)
Definition os_mkdir (p : path) (f : fs) : res fs :=
  match lookup_node p f with
  | Some _ => Raise (Exn FileExistsError "File exists")
  | None =>
      match lookup_node (parent p) f with
      | None => Raise (Exn FileNotFoundError "No such file or directory")
      | Some (File _) => Raise (Exn NotADirectoryError "Not a directory")
      | Some Dir => Ok (mkFs (<[p := Dir]> (tree f)) (writes f))
      end
  end.

(** [p.mkdir(parents=False, exist_ok=True)] *)
Definition mkdir_exist_ok (p : path) (f : fs) : res fs :=
  match os_mkdir p f with
  | Ok f' => Ok f'
  | Raise e => if is_dir p f then Ok f else Raise e
  end.

(** [p.mkdir(parents=True, exist_ok=True)]: when the parent is missing it
    is made first, in the same way. [n] bounds the depth of that
    recursion; the number of components of [p] is enough. *)
Fixpoint mkdir_parents_upto (n : nat) (p : path) (f : fs) : res fs :=
  match os_mkdir p f with
  | Ok f' => Ok f'
  | Raise e =>
      match exn_cls e with
      | FileNotFoundError =>
          match n, p with
          | S n', _ :: _ =>
              let* f1 := mkdir_parents_upto n' (parent p) f in
              mkdir_exist_ok p f1
          | _, _ => Raise e
          end
      | _ => if is_dir p f then Ok f else Raise e
      end
  end.

Definition mkdir_parents (p : path) (f : fs) : res fs :=
  mkdir_parents_upto (List.length p) p f.

(** [p.read_text(encoding="utf-8")]: the bytes of the file are decoded and
    the line ends translated. *)
Definition read_text (p : path) (f : fs) : res text :=
  match lookup_node p f with
  | Some (File b) =>
      let* s := bytes_decode b in
      Ok (universal_newlines s)
  | Some Dir => Raise (Exn IsADirectoryError "Is a directory")
  | None => Raise (Exn FileNotFoundError "No such file or directory")
  end.

(** [p.write_text(data, encoding="utf-8")] on a POSIX system, where a line
    feed is written as it is: the file is opened for writing, which
    empties it, then the data is encoded and written. *)
Definition write_text (p : path) (data : text) (f : fs) : res unit * fs :=
  match lookup_node p f with
  | Some Dir => (Raise (Exn IsADirectoryError "Is a directory"), f)
  | _ =>
      match lookup_node (parent p) f with
      | None => (Raise (Exn FileNotFoundError "No such file or directory"), f)
      | Some (File _) => (Raise (Exn NotADirectoryError "Not a directory"), f)
      | Some Dir =>
          match str_encode data with
          | Ok b => (Ok tt, mkFs (<[p := File b]> (tree f)) (S (writes f)))
          | Raise e => (Raise e, mkFs (<[p := File []]> (tree f)) (S (writes f)))
          end
      end
  end.

Section Writer.
(** [hashlib.sha256(b).hexdigest()] *)
Variable sha256_hexdigest : bytes -> string.

(** The state of the file system after the call, and what the call
    returned or raised. The two digests are computed from left to right. *)
Definition write_if_changed (p : path) (content : text) (f : fs) : res bool * fs :=
  match mkdir_parents (parent p) f with
  | Raise e => (Raise e, f)
  | Ok f1 =>
      match (if exists_ p f1 then read_text p f1 else Ok []) with
      | Raise e => (Raise e, f1)
      | Ok old =>
          match str_encode old with
          | Raise e => (Raise e, f1)
          | Ok old_bytes =>
              match str_encode content with
              | Raise e => (Raise e, f1)
              | Ok new_bytes =>
                  if negb (String.eqb (sha256_hexdigest old_bytes)
                                      (sha256_hexdigest new_bytes)) then
                    match write_text p content f1 with
                    | (Raise e, f2) => (Raise e, f2)
                    | (Ok _, f2) => (Ok true, f2)
                    end
                  else (Ok false, f1)
              end
          end
      end
  end.
End Writer.

End FS.

(** ** [utils_catalog_fallback.py] *)

Module Catalog.

(** An [xml.etree.ElementTree.Element]: tag, text, children. *)
Inductive Element :=
| Elem (tag : string) (text : option string) (children : list Element).

Definition tag_of (e : Element) : string := match e with Elem t _ _ => t end.
Definition text_of (e : Element) : option string := match e with Elem _ x _ => x end.
Definition children_of (e : Element) : list Element := match e with Elem _ _ c => c end.

(** [e.iter()]: the element and all that is below it, in document order. *)
Fixpoint iter (e : Element) : list Element :=
  match e with
  | Elem _ _ cs => e :: flat_map iter cs
  end.

Definition has_tag (t : string) (e : Element) : bool := String.eqb (tag_of e) t.

(** The step [.//t] of a path: what is below [e] and has tag [t]. *)
Definition descendants (t : string) (e : Element) : list Element :=
  List.filter (has_tag t) (flat_map iter (children_of e)).

(** The step [/t] of a path: the children of [e] with tag [t]. *)
Definition children_tagged (t : string) (e : Element) : list Element :=
  List.filter (has_tag t) (children_of e).

(** [e.findtext(t)]: the text of the first child with tag [t], an empty
    text counting as [""]; [None] when there is no such child. *)
Definition findtext (t : string) (e : Element) : option string :=
  match children_tagged t e with
  | [] => None
  | c :: _ => Some (match text_of c with Some x => x | None => "" end)
  end.

(** [x or ""] on an optional text *)
Definition or_empty (x : option string) : string :=
  match x with
  | Some s => s
  | None => ""
  end.

(** [comp.findall(".//SupportedSystems/Brand/Model")] *)
Definition supported_models (comp : Element) : list Element :=
  flat_map (children_tagged "Model")
           (flat_map (children_tagged "Brand") (descendants "SupportedSystems" comp)).

Record entry := mkEntry {
  e_name : option string;
  e_version : option string;
  e_release_date : string;
  e_download_url : option string;
  e_category : option string;
  e_driver_id : option string
}.

(** The test [if "cpld" not in name and "cpld" not in cat: continue],
    read as the condition to go on. *)
Definition names_cpld (comp : Element) : bool :=
  let cat := lower (or_empty (findtext "Category" comp)) in
  let name := lower (or_empty (findtext "Name" comp)) in
  negb (negb (contains "cpld" name) && negb (contains "cpld" cat)).

(** [" ".join([m.text or "" for m in ...]).lower()] *)
Definition systems_of (comp : Element) : string :=
  lower (join_spaces ((fun m => or_empty (text_of m)) <$> supported_models comp)).

Definition entry_of (comp : Element) : string * entry :=
  let dte := or_empty (findtext "ReleaseDate" comp) in
  (dte, {| e_name := findtext "Name" comp;
           e_version := findtext "Version" comp;
           e_release_date := dte;
           e_download_url := findtext "Path" comp;
           e_category := findtext "Category" comp;
           e_driver_id := findtext "DellVer" comp |}).

(** The body of the loop: the components that reach [candidates.append]. *)
Definition is_candidate (model_hint_l : string) (comp : Element) : bool :=
  names_cpld comp && contains model_hint_l (systems_of comp).

Definition candidates_of (root : Element) (model_hint : string) : list (string * entry) :=
  let model_hint_l := lower (replace_hyphens model_hint) in
  entry_of <$> List.filter (is_candidate model_hint_l) (descendants "SoftwareComponent" root).

Definition best_cpld_for_model_from_catalog (root : Element) (model_hint : string)
    : option entry :=
  match candidates_of root model_hint with
  | [] => None
  | c :: cs => snd <$> head (sort_desc fst str_ltb (c :: cs))
  end.

End Catalog.

(** * Specification vocabulary

    The properties below are stated with these predicates, which say in
    logical terms what the program's tests compute. *)

(** *** Characters, in the words of the specification

    These say what a blank, a digit and a letter case are without going
    through the program's own tests. *)

(** The code point of a character. *)
Definition code (c : ascii) : Z := Z.of_nat (nat_of_ascii c).

(** A text of ASCII characters only. On such texts the classes of
    characters below are those of Python; beyond ASCII, Python knows more
    blanks, digits and letters than the model does. *)
Definition ascii_text (s : string) : Prop :=
  Forall (fun c => code c < 128) (list_ascii_of_string s).

(** White space: tab, line feed, vertical tab, form feed, carriage return,
    the separators 28 to 31, and the space. *)
Definition white_space (c : ascii) : Prop :=
  9 <= code c <= 13 \/ 28 <= code c <= 32.

(** [c] is the decimal digit of value [n]. *)
Definition digit_of (c : ascii) (n : Z) : Prop :=
  0 <= n <= 9 /\ code c = 48 + n.

(** The same character, or the same letter of A to Z in the other case. *)
Definition same_letter (a b : ascii) : Prop :=
  code a = code b
  \/ (65 <= code a <= 90 /\ code b = code a + 32)
  \/ (65 <= code b <= 90 /\ code a = code b + 32).

(** [pat] occurs in [s], letter case ignored. *)
Definition occurs_ci_in (pat s : list ascii) : Prop :=
  exists pre mid post, s = (pre ++ mid ++ post)%list /\ Forall2 same_letter pat mid.

Definition occurs_ci (pat s : string) : Prop :=
  occurs_ci_in (list_ascii_of_string pat) (list_ascii_of_string s).

(** The order of the dictionary on texts, characters compared by code
    point: a text comes before the texts it is the beginning of. *)
Inductive lex_lt : list ascii -> list ascii -> Prop :=
| lex_lt_nil y b : lex_lt [] (y :: b)
| lex_lt_head x y a b : code x < code y -> lex_lt (x :: a) (y :: b)
| lex_lt_tail x a b : lex_lt a b -> lex_lt (x :: a) (x :: b).

(** *** Texts and rows *)

(** [pat] occurs in [s]. *)
Definition substring_of (pat s : string) : Prop :=
  exists pre post, s = pre +:+ pat +:+ post.

(** The text that the field value [v] stands for: the string it holds, or
    the empty string when the value is absent or empty. *)
Definition field_text (v : json) (s : string) : Prop :=
  v = JStr s \/ (truthy v = false /\ s = "").

(** A row used to instantiate the statements. *)
Definition sample_row : Row :=
  {| ReleaseDate := Some (Date 2024 1 10); ReleaseDateRaw := JStr "10 Jan 2024";
     LastUpdate := None; UpdateStatus := JNull; Version := JStr "1.2";
     Name := JStr "System CPLD"; Category := JNull;
     DriverId := JStr "ABC12"; DownloadUrl := JNull |}.

(** What the filter is to look for in the name [n] and the category [c]. *)
Definition names_a_cpld (n c : string) : Prop :=
  occurs_ci "cpld" n \/ occurs_ci "cpld" c
  \/ occurs_ci "complex programmable logic" n.

(** *** Vendor responses *)

(** A value that is absent, empty, or a mapping. *)
Definition mapping_or_nothing (v : json) : Prop :=
  truthy v = false \/ exists m, v = JObj m.

(** A vendor entry the normalizer is written for: a mapping, whose
    [FileFrmtInfo], when present, is absent, empty or a mapping. Nothing
    is asked of its other fields. *)
Definition mapping_entry (d : json) : Prop :=
  exists m, d = JObj m /\
    match m !! "FileFrmtInfo" with
    | Some v => mapping_or_nothing v
    | None => True
    end.

(** A response the normalizer is written for: absent or empty, or a mapping
    whose [DriverListData], when present, is a list of such entries. *)
Definition mapping_response (dj : json) : Prop :=
  truthy dj = false \/
  exists m, dj = JObj m /\
    match m !! "DriverListData" with
    | Some v => exists l, v = JArr l /\ Forall mapping_entry l
    | None => True
    end.

(** What the normalizer makes of the mapping [d]: each field is the value
    under the vendor's key, [None] when the key is missing and [""] for the
    name and the category; the two dates are what the parser makes of the
    raw values. *)
Definition normalized (d : json) (r : Row) : Prop :=
  exists m, d = JObj m
    /\ ReleaseDateRaw r = default JNull (m !! "ReleaseDate")
    /\ ReleaseDate r = parse_date (default JNull (m !! "ReleaseDate"))
    /\ LastUpdate r = parse_date (default JNull (m !! "LUPDDate"))
    /\ UpdateStatus r = default JNull (m !! "Imp")
    /\ Version r = default JNull (m !! "DellVer")
    /\ Name r = default (JStr "") (m !! "DriverName")
    /\ Category r = default (JStr "") (m !! "Category").

(** The entries of a response. *)
Definition entries_of (dj : json) : list json :=
  match dj with
  | JObj m => match m !! "DriverListData" with Some (JArr l) => l | _ => [] end
  | _ => []
  end.

(** A response whose only entry has a string where the vendor puts the
    file-format mapping. *)
Definition ill_typed_response : json :=
  JObj {[ "DriverListData" := JArr [ JObj {[ "DriverName" := JStr "CPLD";
                                              "FileFrmtInfo" := JStr "n/a" ]} ] ]}.

(** A response with one entry, every field absent but the name and a date
    that is a number. *)
Definition sparse_response : json :=
  JObj {[ "DriverListData" := JArr [ JObj {[ "DriverName" := JStr "CPLD";
                                              "ReleaseDate" := JNum 20240110 ]} ] ]}.

(** A response whose only entry has a number for a name. *)
Definition number_name_response : json :=
  JObj {[ "DriverListData" := JArr [ JObj {[ "DriverName" := JNum 7;
                                              "Category" := JStr "CPLD" ]} ] ]}.

Definition number_name_row : Row :=
  {| ReleaseDate := None; ReleaseDateRaw := JNull; LastUpdate := None;
     UpdateStatus := JNull; Version := JNull; Name := JNum 7;
     Category := JStr "CPLD"; DriverId := JNull; DownloadUrl := JNull |}.

(** *** What a regular expression matches

    [matches r w g]: the text [w] is matched by [r], the groups capturing
    [g]. *)
Inductive matches : re -> list ascii -> captures -> Prop :=
| M_Cls p c :
    p c = true -> matches (Cls p) [c] []
| M_Seq r1 r2 w1 w2 g1 g2 :
    matches r1 w1 g1 -> matches r2 w2 g2 ->
    matches (Seq r1 r2) (w1 ++ w2)%list (g1 ++ g2)%list
| M_AltL r1 r2 w g :
    matches r1 w g -> matches (Alt r1 r2) w g
| M_AltR r1 r2 w g :
    matches r2 w g -> matches (Alt r1 r2) w g
| M_Plus p w :
    w <> [] -> Forall (fun c => p c = true) w -> matches (Plus p) w []
| M_Grp n r w g :
    matches r w g -> matches (Grp n r) w ((n, w) :: g).

(** *** Dates as text *)

(** A date the [date] type can hold. *)
Definition valid_date (d : date) : Prop :=
  1 <= year d <= 9999 /\ 1 <= month d <= 12
  /\ 1 <= day d <= days_in_month (year d) (month d).

Definition month_abbr : list string :=
  ["Jan"; "Feb"; "Mar"; "Apr"; "May"; "Jun";
   "Jul"; "Aug"; "Sep"; "Oct"; "Nov"; "Dec"].

(** The "DD Mon YYYY" text of a date, as in "15 Mar 2023": two digits, a
    blank, the capitalized English abbreviation of the month, a blank, four
    digits. *)
Definition dd_mon_yyyy_text (d : date) : string :=
  zero_padded 2 (day d)
    (" " +:+ nth (Z.to_nat (month d - 1)) month_abbr "" +:+ " "
     +:+ zero_padded 4 (year d) "").

(** [s] is in valid "DD Mon YYYY" format and names the date [d]. *)
Definition dd_mon_yyyy (s : string) (d : date) : Prop :=
  valid_date d /\ s = dd_mon_yyyy_text d.

(** One or more white-space characters. *)
Definition blanks (w : list ascii) : Prop :=
  w <> [] /\ Forall (fun c => is_space c = true) w.

(** The ways a day of the month may be written: one digit, a blank and one
    digit, or two digits. *)
Inductive day_text : list ascii -> Z -> Prop :=
| day_one c :
    in_range "1" "9" c = true -> day_text [c] (digit_val c)
| day_blank c :
    in_range "1" "9" c = true -> day_text [" "%char; c] (digit_val c)
| day_two c1 c2 :
    is_digit c1 = true -> is_digit c2 = true ->
    1 <= 10 * digit_val c1 + digit_val c2 <= 31 ->
    day_text [c1; c2] (10 * digit_val c1 + digit_val c2).

(** The abbreviation of month [m], in any letter case. *)
Definition month_text (w : list ascii) (m : Z) : Prop :=
  1 <= m <= 12 /\ a_month !! Z.to_nat (m - 1) = Some (lower (string_of_list_ascii w)).

(** Four digits. *)
Definition year_text (w : list ascii) (y : Z) : Prop :=
  exists c1 c2 c3 c4, w = [c1; c2; c3; c4]
    /\ is_digit c1 = true /\ is_digit c2 = true
    /\ is_digit c3 = true /\ is_digit c4 = true
    /\ y = 1000 * digit_val c1 + 100 * digit_val c2 + 10 * digit_val c3 + digit_val c4.

(** The texts the parser takes for the date [d]: a day, blanks, a month,
    blanks, a year, and nothing else, naming a date that exists. *)
Definition accepted_date_text (s : string) (d : date) : Prop :=
  exists dt b1 mo b2 yt,
    list_ascii_of_string s = (dt ++ b1 ++ mo ++ b2 ++ yt)%list
    /\ day_text dt (day d) /\ blanks b1 /\ month_text mo (month d)
    /\ blanks b2 /\ year_text yt (year d) /\ valid_date d.

(** The same, in the words of the specification. A day of the month is
    written with one digit, with a blank and one digit, or with two digits. *)
Inductive day_written : list ascii -> Z -> Prop :=
| day_written_one c n :
    digit_of c n -> 1 <= n -> day_written [c] n
| day_written_blank c n :
    digit_of c n -> 1 <= n -> day_written [" "%char; c] n
| day_written_two c1 c2 n1 n2 :
    digit_of c1 n1 -> digit_of c2 n2 -> 1 <= 10 * n1 + n2 <= 31 ->
    day_written [c1; c2] (10 * n1 + n2).

(** A month is written with its English abbreviation, in any letter case. *)
Definition month_written (w : list ascii) (m : Z) : Prop :=
  1 <= m <= 12
  /\ exists name, month_abbr !! Z.to_nat (m - 1) = Some name
       /\ Forall2 same_letter (list_ascii_of_string name) w.

(** A year is written with four digits. *)
Definition year_written (w : list ascii) (y : Z) : Prop :=
  exists c1 c2 c3 c4 n1 n2 n3 n4, w = [c1; c2; c3; c4]
    /\ digit_of c1 n1 /\ digit_of c2 n2 /\ digit_of c3 n3 /\ digit_of c4 n4
    /\ y = 1000 * n1 + 100 * n2 + 10 * n3 + n4.

(** One or more white-space characters. *)
Definition separator (w : list ascii) : Prop :=
  w <> [] /\ Forall white_space w.

(** [s] is a text that reads as the date [d]: a day, white space, a month,
    white space, a year, and nothing else, naming a day that exists. *)
Definition date_text (s : string) (d : date) : Prop :=
  exists dt b1 mo b2 yt,
    list_ascii_of_string s = (dt ++ b1 ++ mo ++ b2 ++ yt)%list
    /\ day_written dt (day d) /\ separator b1 /\ month_written mo (month d)
    /\ separator b2 /\ year_written yt (year d) /\ valid_date d.

(** *** Selection *)

(** [m] is the first element of [l] whose key is greatest: the elements
    before it have a smaller key, the elements after it have none greater. *)
Definition first_greatest {A K} (key : A -> K) (ltb : K -> K -> bool)
    (l : list A) (m : A) : Prop :=
  exists l1 l2, l = (l1 ++ m :: l2)%list
    /\ Forall (fun x => ltb (key x) (key m) = true) l1
    /\ Forall (fun x => ltb (key m) (key x) = false) l2.

(** The CPLD rows each OS code yields when the codes are queried in order,
    from the state [st] on: one list of rows for each code. *)
Fixpoint queried_rows (net : network) (productcode country : string)
    (oscodes : list string) (st : state) : res (list (list Row)) :=
  match oscodes with
  | [] => Ok []
  | oscode :: later =>
      match call_dell_api net productcode oscode country 3 2 st with
      | (Raise e, _) => Raise e
      | (Ok data, st1) =>
          let* rows := cpld_rows_of data in
          let* rest := queried_rows net productcode country later st1 in
          Ok (rows :: rest)
      end
  end.

(** What the selector may return for the rows [rows], taken in the order
    they were obtained: nothing when there is no row, else the first row of
    greatest rank. *)
Definition selected (best : option Row) (rows : list Row) : Prop :=
  match best with
  | None => rows = []
  | Some r => first_greatest sort_key date_ltb rows r
  end.

(** In the words of the specification. [a] is an earlier day than [b]. *)
Definition earlier (a b : date) : Prop :=
  year a < year b
  \/ (year a = year b
      /\ (month a < month b \/ (month a = month b /\ day a < day b))).

(** The day a row is ranked by: its parsed release date, and for a row
    without one the oldest day there is, 1 January of the year 1. *)
Definition rank (r : Row) : date :=
  match ReleaseDate r with
  | Some d => d
  | None => Date 1 1 1
  end.

(** [best] is the most recent of the rows [rows], taken in the order they
    were obtained, the first one found winning a tie: nothing when there is
    no row; else one of the rows, such that every row obtained before it is
    of an earlier day, and no row obtained after it is of a later day. *)
Definition latest_of (rows : list Row) (best : option Row) : Prop :=
  match best with
  | None => rows = []
  | Some b =>
      exists before after, rows = (before ++ b :: after)%list
        /\ (forall r, r ∈ before -> earlier (rank r) (rank b))
        /\ (forall r, r ∈ after -> ~ earlier (rank b) (rank r))
  end.

(** *** A service to run the program against *)

Definition ok_response (body : json) : http_result :=
  Answered {| resp_url := "https://www.dell.com/support/driver/en-us/ips/api/driverlist/fetchdriversbyproduct";
              status_code := 200; reason := "OK";
              content_type := Some "application/json; charset=utf-8";
              resp_json := Ok body |}.

Definition no_content : http_result :=
  Answered {| resp_url := "https://www.dell.com/support/driver/en-us/ips/api/driverlist/fetchdriversbyproduct";
              status_code := 204; reason := "No Content";
              content_type := None;
              resp_json := Raise (Exn ValueError "Expecting value") |}.

Definition driver_list (entries : list json) : json :=
  JObj {[ "DriverListData" := JArr entries ]}.

Definition vendor_entry (name version released : string) : json :=
  JObj {[ "DriverName" := JStr name;
          "DellVer" := JStr version;
          "ReleaseDate" := JStr released ]}.

(** OS code A yields a CPLD row of 1 January 2023 and an unrelated row,
    OS code B a CPLD row of 1 June 2024, OS code C one of 1 June 2024 too;
    every other request gets no content. *)
Definition two_os_net : network := fun _ rq =>
  if String.eqb (rq_oscode rq) "A" then
    ok_response (driver_list [ vendor_entry "BIOS" "2.1" "05 May 2025";
                               vendor_entry "System CPLD" "1.0" "01 Jan 2023" ])
  else if String.eqb (rq_oscode rq) "B" then
    ok_response (driver_list [ vendor_entry "System CPLD" "1.2" "01 Jun 2024" ])
  else if String.eqb (rq_oscode rq) "C" then
    ok_response (driver_list [ vendor_entry "CPLD for C" "1.2c" "01 Jun 2024" ])
  else no_content.

Definition start : state := State 0 [].

Definition row_of (name version released : string) (d : option date) : Row :=
  {| ReleaseDate := d; ReleaseDateRaw := JStr released;
     LastUpdate := None; UpdateStatus := JNull; Version := JStr version;
     Name := JStr name; Category := JStr "";
     DriverId := JNull; DownloadUrl := JNull |}.

(** A response in which a CPLD row without a date comes before a CPLD row
    dated 1 January of the year 1. *)
Definition min_date_response : json :=
  driver_list [ JObj {[ "DriverName" := JStr "CPLD, undated" ]};
                vendor_entry "CPLD, year one" "0.1" "01 Jan 0001" ].

Definition undated_row : Row :=
  {| ReleaseDate := None; ReleaseDateRaw := JNull;
     LastUpdate := None; UpdateStatus := JNull; Version := JNull;
     Name := JStr "CPLD, undated"; Category := JStr "";
     DriverId := JNull; DownloadUrl := JNull |}.

Definition year_one_row : Row := row_of "CPLD, year one" "0.1" "01 Jan 0001" (Some date_min).

(** *** The API client *)

(** The answer is an HTTP 200 response with a JSON content type. *)
Definition json_200 (o : http_result) : Prop :=
  exists r, o = Answered r /\ status_code r = 200
    /\ startswith (match content_type r with Some c => c | None => "" end)
                  "application/json" = true.

(** The exception of the last of the [n] requests from position [from] on
    that raised one, [acc] when none did. *)
Fixpoint last_failure (net : network) (rq : request) (from n : nat)
    (acc : option exn) : option exn :=
  match n with
  | O => acc
  | S n' =>
      last_failure net rq (S from) n'
        (match net from rq with Failed e => Some e | Answered _ => acc end)
  end.

(** The warnings emitted so far, oldest first. *)
Definition warnings (st : state) : list string :=
  omap (fun e => match e with EWarn m => Some m | _ => None end) (trace st).

(** The requests made so far, oldest first. *)
Definition requests (st : state) : list request :=
  omap (fun e => match e with ERequest rq => Some rq | _ => None end) (trace st).

(** A length that [time.sleep] accepts. *)
Definition sleep_fits (secs : Z) : Prop := 0 <= secs <= sleep_max.

(** A service that is down: every request raises. *)
Definition down_net : network := fun _ _ =>
  Failed (Exn RequestException "Connection refused").

(** A service that answers 204 twice and then with a JSON document. *)
Definition third_time_net : network := fun n _ =>
  if (n <? 2)%nat then no_content else ok_response (driver_list []).

(** *** The snapshot *)

(** Two digits. *)
Definition two_digits (w : list ascii) (n : Z) : Prop :=
  exists c1 c2, w = [c1; c2] /\ is_digit c1 = true /\ is_digit c2 = true
    /\ n = 10 * digit_val c1 + digit_val c2.

(** [s] is the ISO text "YYYY-MM-DD" of the date [d]. *)
Definition iso_text (s : string) (d : date) : Prop :=
  exists yt mt dt,
    list_ascii_of_string s = (yt ++ ["-"%char] ++ mt ++ ["-"%char] ++ dt)%list
    /\ year_text yt (year d) /\ two_digits mt (month d) /\ two_digits dt (day d).

(** The same, in the words of the specification: four digits of year, a
    hyphen, two digits of month, a hyphen, two digits of day. *)
Definition two_written (w : list ascii) (n : Z) : Prop :=
  exists c1 c2 n1 n2, w = [c1; c2]
    /\ digit_of c1 n1 /\ digit_of c2 n2 /\ n = 10 * n1 + n2.

Definition iso_date (s : string) (d : date) : Prop :=
  exists yt mt dt,
    list_ascii_of_string s = (yt ++ ["-"%char] ++ mt ++ ["-"%char] ++ dt)%list
    /\ year_written yt (year d) /\ two_written mt (month d) /\ two_written dt (day d).

(** The release date a row was normalized with is what the parser makes of
    the raw value the row keeps. *)
Definition date_as_parsed (r : Row) : Prop :=
  ReleaseDate r = parse_date (ReleaseDateRaw r).

(** The end-to-end scenario: R750 has one CPLD row, R650 has none. *)
Definition scenario_net : network := fun _ rq =>
  if String.eqb (rq_productcode rq) "R750" then
    ok_response (driver_list [ vendor_entry "System CPLD" "1.2" "10 Jan 2024" ])
  else
    ok_response (driver_list [ vendor_entry "BIOS" "2.1" "05 May 2025" ]).

Definition scenario_servers : list ServerEntry :=
  [ mkServer "R750" (Some ["NAA"]); mkServer "R650" None ].

(** What the run of the scenario stores. *)
Definition scenario_data : list (string * option ResultRecord) :=
  [ ("R750", Some (result_record
                     (row_of "System CPLD" "1.2" "10 Jan 2024" (Some (Date 2024 1 10)))));
    ("R650", None) ].

(** A service whose only CPLD row has a date the parser does not read. *)
Definition unparsed_net : network := fun _ _ =>
  ok_response (driver_list [ vendor_entry "System CPLD" "1.2" "2024-01-10" ]).

(** *** The snapshot file *)

Module FSSpec.
Import FS.

(** The text the writer compares with: what reading the file at [p] gives,
    or the empty text when there is no file there. *)
Definition old_text (p : path) (f : fs) : text :=
  match lookup_node p f with
  | Some (File b) =>
      match decode_utf8 b with
      | Some s => universal_newlines s
      | None => []
      end
  | _ => []
  end.

(** A text without a carriage return. *)
Definition no_carriage_return (s : text) : Prop := 13 ∉ s.

(** The file at [p], when there is one, holds UTF-8. *)
Definition readable (p : path) (f : fs) : Prop :=
  forall b, lookup_node p f = Some (File b) -> is_Some (decode_utf8 b).

(** No regular file stands where a directory of [p] is needed or where
    [p] itself is. *)
Definition no_file_on (p : path) (f : fs) : Prop :=
  forall q c, q `prefix_of` p -> lookup_node q f <> Some (File c).

(** Every node but the working directory lies in a directory. *)
Definition well_formed (f : fs) : Prop :=
  forall q n, tree f !! q = Some n -> is_dir (parent q) f = true.

(** [f1] keeps what is in [f], adds directories only, none deeper than
    [p], and writes no file. *)
Definition grows_to (p : path) (f f1 : fs) : Prop :=
  writes f1 = writes f
  /\ forall q, lookup_node q f1 = lookup_node q f
               \/ (lookup_node q f = None /\ lookup_node q f1 = Some Dir
                   /\ (List.length q <= List.length p)%nat).

Definition snapshot_path : path := ["docs"; "cpld_latest.json"].

Definition empty_fs : fs := mkFs ∅ 0.

(** The text ["{}"] and its bytes. *)
Definition braces : text := [123; 125].

(** A file system where the snapshot is there already. *)
Definition written_fs : fs :=
  mkFs {[ ["docs"] := Dir; snapshot_path := File [123; 125] ]} 1.

(** A sequence of bytes, each from 0 to 255. *)
Definition is_bytes (b : bytes) : Prop := Forall (fun x => 0 <= x < 256) b.

(** A digest function without collisions: it tells any two sequences of
    bytes apart. *)
Definition tells_apart (digest : bytes -> string) : Prop :=
  forall x y, is_bytes x -> is_bytes y -> digest x = digest y -> x = y.

(** A code point, and a text of code points, as a Python [str] is. *)
Definition is_text (s : text) : Prop := Forall (fun c => 0 <= c < 0x110000) s.

(** A digest function to run the writer with: the bytes themselves, as a
    string. It tells any two sequences of bytes apart. *)
Definition raw_digest (b : bytes) : string :=
  string_of_list_ascii ((fun x => ascii_of_nat (Z.to_nat x)) <$> b).

(** A text with a carriage return, one with a lone surrogate, and a file
    that is not UTF-8. *)
Definition two_lines : text := [97; 13; 98].
Definition lone_surrogate : text := [97; 55296].
Definition latin1_fs : fs :=
  mkFs {[ ["docs"] := Dir; snapshot_path := File [255] ]} 1.
End FSSpec.

(** *** The catalog *)

Module CatalogSpec.
Import Catalog.

(** The text of the first child of [comp] with tag [t], [""] when there
    is none. *)
Definition field (t : string) (comp : Element) : string :=
  or_empty (findtext t comp).

(** The names of the supported models of [comp], put together with
    blanks between them. *)
Definition model_names (comp : Element) : string :=
  join_spaces ((fun m => or_empty (text_of m)) <$> supported_models comp).

(** [comp] is a CPLD component for the model hinted at: its name or its
    category contains "cpld", and its model names contain the hint with
    hyphens read as blanks, both whatever the letter case. *)
Definition matches_hint (model_hint : string) (comp : Element) : Prop :=
  (substring_of "cpld" (lower (field "Name" comp))
   \/ substring_of "cpld" (lower (field "Category" comp)))
  /\ substring_of (lower (replace_hyphens model_hint)) (lower (model_names comp)).

Definition text_elem (t x : string) : Element := Elem t (Some x) [].

Definition component (name category released model : string) : Element :=
  Elem "SoftwareComponent" None
    [ text_elem "Name" name;
      text_elem "Category" category;
      text_elem "ReleaseDate" released;
      text_elem "Version" "1.0.3";
      Elem "SupportedSystems" None
        [ Elem "Brand" None [ text_elem "Model" model; text_elem "Model" "PowerEdge T-550" ] ] ].

(** A catalog with two CPLD components for the R750, one for the R650 and
    a BIOS for the R750. *)
Definition small_catalog : Element :=
  Elem "Manifest" None
    [ component "R750 System CPLD" "Firmware" "2023-04-01" "PowerEdge R750";
      component "System cpld" "FW" "2024-02-15" "PowerEdge R650";
      component "BIOS" "BIOS" "2025-01-01" "PowerEdge R750";
      Elem "Bundle" None
        [ component "Backplane" "CPLD firmware" "2024-01-10" "PowerEdge R750" ] ].
End CatalogSpec.

(** *** The catalog, in the words of the specification

    The statement about the lookup is made with these, which are written
    without the program's functions for paths, case and hyphens. *)

Module CatalogWords.
Import Catalog.

(** Everything below [e], in document order. *)
Fixpoint below (e : Element) : list Element :=
  match e with
  | Elem _ _ cs => flat_map (fun c => c :: below c) cs
  end.

(** The elements of [l] with tag [t]. *)
Definition tagged (t : string) (l : list Element) : list Element :=
  filter (fun e => tag_of e = t) l.

(** The software-component entries of the catalog. *)
Definition components (root : Element) : list Element :=
  tagged "SoftwareComponent" (below root).

(** The text of the first child of [comp] with tag [t]: nothing when there
    is no such child, the empty text when the child has none. *)
Definition first_text (t : string) (comp : Element) : option string :=
  (fun c => default "" (text_of c)) <$> head (tagged t (children_of comp)).

(** The model names that [comp] lists as supported: the texts of the
    [Model] children of the [Brand] children of the [SupportedSystems]
    elements below it, in document order. *)
Definition listed_models (comp : Element) : list string :=
  flat_map (fun ss =>
    flat_map (fun brand =>
      (fun m => default "" (text_of m)) <$> tagged "Model" (children_of brand))
      (tagged "Brand" (children_of ss)))
    (tagged "SupportedSystems" (below comp)).

(** The names put one after the other, a blank between two of them. *)
Fixpoint concatenated (names : list string) : list ascii :=
  match names with
  | [] => []
  | [n] => list_ascii_of_string n
  | n :: later => (list_ascii_of_string n ++ " "%char :: concatenated later)%list
  end.

(** The hint with every hyphen read as a blank. *)
Definition hyphens_as_blanks (hint : string) : list ascii :=
  (fun c => if decide (c = "-"%char) then " "%char else c) <$> list_ascii_of_string hint.

(** [comp] is a CPLD component for the model hinted at. *)
Definition cpld_for_model (hint : string) (comp : Element) : Prop :=
  (occurs_ci "cpld" (default "" (first_text "Name" comp))
   \/ occurs_ci "cpld" (default "" (first_text "Category" comp)))
  /\ occurs_ci_in (hyphens_as_blanks hint) (concatenated (listed_models comp)).

(** The release-date string of [comp]. *)
Definition date_string (comp : Element) : list ascii :=
  list_ascii_of_string (default "" (first_text "ReleaseDate" comp)).

(** The component "Backplane" of the small catalog, and its record. *)
Definition backplane : Element :=
  CatalogSpec.component "Backplane" "CPLD firmware" "2024-01-10" "PowerEdge R750".


Definition backplane_entry : entry :=
  {| e_name := Some "Backplane"; e_version := Some "1.0.3";
     e_release_date := "2024-01-10"; e_download_url := None;
     e_category := Some "CPLD firmware"; e_driver_id := None |}.
End CatalogWords.

(** * More specification vocabulary *)

(** *** The API client, attempt by attempt *)

(** The answer delivers the document [v]: HTTP 200, a JSON content type,
    and a body that decodes to [v]. *)
Definition delivers (o : http_result) (v : json) : Prop :=
  exists r, o = Answered r /\ status_code r = 200
    /\ startswith (match content_type r with Some c => c | None => "" end)
                  "application/json" = true
    /\ resp_json r = Ok v.

(** The lengths of the sleeps so far, oldest first. *)
Definition sleeps (st : state) : list Z :=
  omap (fun e => match e with ESleep s => Some s | _ => None end) (trace st).

(** The waits of linear backoff before attempt [S n]: one unit after the
    first attempt, two after the second, and so on. *)
Definition backoff_waits (backoff : Z) (n : nat) : list Z :=
  (fun attempt => backoff * Z.of_nat attempt) <$> seq 1 n.

(** A service that raises once, answers 204 once, and then delivers. *)
Definition flaky_net : network := fun n _ =>
  match n with
  | O => Failed (Exn RequestException "Read timed out")
  | S O => no_content
  | _ => ok_response (driver_list [ vendor_entry "System CPLD" "1.2" "10 Jan 2024" ])
  end.

(** A service whose JSON answers never decode. *)
Definition garbled_net : network := fun _ _ =>
  Answered {| resp_url := "https://www.dell.com/support/driver/en-us/ips/api/driverlist/fetchdriversbyproduct";
              status_code := 200; reason := "OK";
              content_type := Some "application/json";
              resp_json := Raise (Exn ValueError "Expecting value: line 1 column 1 (char 0)") |}.

(** *** The row normalizer, field by field *)

(** An entry with all three sources of a driver id, the first of them
    empty. *)
Definition three_ids_entry : gmap string json :=
  {[ "DriverName" := JStr "System CPLD";
     "DriverId" := JStr "";
     "DriverIdEN" := JStr "EN-42";
     "FileFrmtInfo" := JObj {[ "FileId" := JStr "F-7";
                               "Path" := JStr "https://dl.dell.com/cpld.exe" ]} ]}.

Definition three_ids_row : Row :=
  {| ReleaseDate := None; ReleaseDateRaw := JNull; LastUpdate := None;
     UpdateStatus := JNull; Version := JNull; Name := JStr "System CPLD";
     Category := JStr ""; DriverId := JStr "EN-42";
     DownloadUrl := JStr "https://dl.dell.com/cpld.exe" |}.

(** A response whose second entry is a string. *)
Definition one_bad_entry : gmap string json :=
  {[ "DriverListData" := JArr [ vendor_entry "System CPLD" "1.2" "10 Jan 2024";
                                JStr "n/a" ] ]}.

(** *** The selector and the service *)

(** The row [r] was served: it is what the normalizer makes of an entry of
    a document that the service delivered to a request for the product code
    and one of the OS codes. *)
Definition served_row (net : network) (productcode country : string)
    (oscodes : list string) (r : Row) : Prop :=
  exists oscode n v d,
    oscode ∈ oscodes
    /\ delivers (net n (build_request productcode oscode country)) v
    /\ d ∈ entries_of v
    /\ normalize_row d = Ok r.

(** The requests of a run of the selector that asks for each OS code in
    turn, the code at position [i] as many times as [counts] says at [i]. *)
Definition asked_in_turn (productcode country : string) (oscodes : list string)
    (counts : list nat) : list request :=
  List.concat (zip_with (fun oscode c => replicate c (build_request productcode oscode country))
                        oscodes counts).

(** *** Well-typed answers *)

(** A value that is a string, or absent or empty. *)
Definition text_or_nothing (v : json) : Prop :=
  (exists s, v = JStr s) \/ truthy v = false.

(** An entry as the vendor documents it, as far as the program looks: a
    mapping whose name and category are strings and whose [FileFrmtInfo] is
    a mapping, any of them possibly missing, null or empty. *)
Definition typed_entry (d : json) : Prop :=
  exists m, d = JObj m
    /\ match m !! "FileFrmtInfo" with Some v => mapping_or_nothing v | None => True end
    /\ match m !! "DriverName" with Some v => text_or_nothing v | None => True end
    /\ match m !! "Category" with Some v => text_or_nothing v | None => True end.

Definition typed_response (v : json) : Prop :=
  truthy v = false \/
  exists m, v = JObj m /\
    match m !! "DriverListData" with
    | Some x => exists l, x = JArr l /\ Forall typed_entry l
    | None => True
    end.

(** Every document the service delivers is well typed. *)
Definition typed_network (net : network) : Prop :=
  forall n rq v, delivers (net n rq) v -> typed_response v.

(** A configuration that names a product code twice. *)
Definition repeated_servers : list ServerEntry :=
  [ mkServer "R750" (Some ["NAA"]); mkServer "R650" (Some ["NAA"]);
    mkServer "R750" (Some ["W2022"]) ].

(** What the run stores for it. *)
Definition repeated_data : list (string * option ResultRecord) :=
  [ ("R750", Some (result_record
                     (row_of "System CPLD" "1.2" "10 Jan 2024" (Some (Date 2024 1 10)))));
    ("R650", None) ].

(** *** A service that answers the same at any time *)

(** The answer to a request does not depend on how many requests came
    before it. *)
Definition steady (net : network) : Prop :=
  forall n m rq, net n rq = net m rq.

(** What a run for the configured server [s] alone, from the start, puts
    into the snapshot. *)
Definition entry_alone (net : network) (s : ServerEntry) : option ResultRecord :=
  match (find_latest_cpld net (productcode s) (oscodes s) COUNTRY start).1 with
  | Ok latest => main_entry latest
  | Raise _ => None
  end.

(** *** Catalogs with ISO dates *)

Module CatalogDates.
Import Catalog CatalogSpec.

(** The release date of [comp] is the ISO text of the date [d]. *)
Definition released_on (comp : Element) (d : date) : Prop :=
  valid_date d /\ field "ReleaseDate" comp = isoformat d.

(** Two CPLD components for the R750 whose dates are not ISO texts. *)
Definition vendor_dated_catalog : Element :=
  Elem "Manifest" None
    [ component "System CPLD" "Firmware" "05 May 2025" "PowerEdge R750";
      component "System CPLD" "Firmware" "10 Jan 2024" "PowerEdge R750" ].
End CatalogDates.

(** * Proofs *)

(** ** Sanity checks of the date parser *)

Example parse_date_15_mar : parse_date (JStr "15 Mar 2023") = Some (Date 2023 3 15).
Proof. vm_compute. reflexivity. Qed.
Example parse_date_5_mar : parse_date (JStr "5 mar   2023") = Some (Date 2023 3 5).
Proof. vm_compute. reflexivity. Qed.
Example parse_date_31_feb : parse_date (JStr "31 Feb 2023") = None.
Proof. vm_compute. reflexivity. Qed.
Example parse_date_trail : parse_date (JStr "15 Mar 20231") = None.
Proof. vm_compute. reflexivity. Qed.

(** ** Strings *)

Lemma startswith_spec (p s : string) :
  startswith s p = true <-> exists post, s = p +:+ post.
Proof.
  revert s. induction p as [|a p IH]; intros s; simpl.
  - split; [intros _; by exists s | done].
  - destruct s as [|b s].
    + split; [done | intros [post H]; discriminate H].
    + rewrite andb_true_iff, Ascii.eqb_eq, IH. split.
      * intros [-> [post ->]]. by exists post.
      * intros [post H]. injection H as -> ->. eauto.
Qed.

Lemma contains_spec (pat s : string) :
  contains pat s = true <-> substring_of pat s.
Proof.
  unfold substring_of. induction s as [|b s IH].
  - simpl. rewrite orb_false_r, startswith_spec. split.
    + intros [post H]. by exists "", post.
    + intros [pre [post H]]. destruct pre; [by exists post|discriminate H].
  - cbn [contains]. rewrite orb_true_iff, startswith_spec, IH. split.
    + intros [[post H] | [pre [post H]]].
      * by exists "", post.
      * exists (String b pre), post. simpl. by rewrite H.
    + intros [pre [post H]]. destruct pre as [|a pre].
      * left. by exists post.
      * right. simpl in H. injection H as _ H. by exists pre, post.
Qed.

Lemma py_lower_field (v : json) (s : string) :
  field_text v s -> py_lower (py_or v (JStr "")) = Ok (lower s).
Proof.
  intros [-> | [Hf ->]]; unfold py_or.
  - destruct (truthy (JStr s)) eqn:E; [done|].
    simpl in E. apply negb_false_iff, String.eqb_eq in E. by subst.
  - by rewrite Hf.
Qed.

(** ** The CPLD filter *)

Ltac ascii_cases c := destruct c as [[] [] [] [] [] [] [] []].

Lemma lower_code (c : ascii) :
  code (lower_ascii c)
  = if (65 <=? code c) && (code c <=? 90) then code c + 32 else code c.
Proof. ascii_cases c; by vm_compute. Qed.

Lemma code_inj (a b : ascii) : code a = code b -> a = b.
Proof.
  unfold code. intros H%Nat2Z.inj.
  apply (f_equal ascii_of_nat) in H. by rewrite !ascii_nat_embedding in H.
Qed.

(** Two characters are the same letter exactly when [lower] maps them to
    the same character. *)
Lemma same_letter_lower (a b : ascii) :
  same_letter a b <-> lower_ascii a = lower_ascii b.
Proof.
  split.
  - intros H. apply code_inj. rewrite !lower_code. unfold same_letter in H.
    destruct (Z.leb_spec 65 (code a)), (Z.leb_spec (code a) 90),
             (Z.leb_spec 65 (code b)), (Z.leb_spec (code b) 90); simpl; lia.
  - intros H%(f_equal code). rewrite !lower_code in H. unfold same_letter.
    destruct (Z.leb_spec 65 (code a)), (Z.leb_spec (code a) 90),
             (Z.leb_spec 65 (code b)), (Z.leb_spec (code b) 90); simpl in H; lia.
Qed.

Lemma same_letters_lower (u w : list ascii) :
  Forall2 same_letter u w <-> lower_ascii <$> u = lower_ascii <$> w.
Proof.
  split.
  - induction 1 as [|a b u w Hab _ IH]; [done|].
    rewrite !fmap_cons. f_equal; [by apply same_letter_lower | done].
  - revert w. induction u as [|a u IH]; intros [|b w] H; try done.
    rewrite !fmap_cons in H. injection H as H1 H2.
    constructor; [by apply same_letter_lower | by apply IH].
Qed.

Lemma chars_app (a b : string) :
  list_ascii_of_string (a +:+ b) = (list_ascii_of_string a ++ list_ascii_of_string b)%list.
Proof.
  induction a as [|x a IH]; [done|].
  change (x :: list_ascii_of_string (a +:+ b)
          = x :: (list_ascii_of_string a ++ list_ascii_of_string b)%list).
  by rewrite IH.
Qed.

Lemma chars_lower (s : string) :
  list_ascii_of_string (lower s) = lower_ascii <$> list_ascii_of_string s.
Proof. induction s as [|c s IH]; [done|]. simpl. by rewrite IH. Qed.

Lemma chars_inj (a b : string) :
  list_ascii_of_string a = list_ascii_of_string b -> a = b.
Proof.
  intros H. by rewrite <- (string_of_list_ascii_of_string a),
                       <- (string_of_list_ascii_of_string b), H.
Qed.

(** A text occurs in [s], both in lower case, exactly when it occurs in
    [s] with the case of the letters ignored. *)
Lemma substring_lower_ci (pat s : string) :
  substring_of (lower pat) (lower s) <-> occurs_ci pat s.
Proof.
  unfold substring_of, occurs_ci, occurs_ci_in. split.
  - intros (pre & post & H). apply (f_equal list_ascii_of_string) in H.
    rewrite !chars_app, !chars_lower in H.
    apply fmap_app_inv in H as (a & bc & Ha & Hbc & ->).
    symmetry in Hbc. apply fmap_app_inv in Hbc as (b & c & Hb & Hc & ->).
    exists a, b, c. split; [done|]. by apply same_letters_lower.
  - intros (a & b & c & Hs & Hb%same_letters_lower).
    exists (lower (string_of_list_ascii a)), (lower (string_of_list_ascii c)).
    apply chars_inj. rewrite !chars_app, !chars_lower, Hs, !fmap_app.
    by rewrite !list_ascii_of_string_of_list_ascii, <- Hb.
Qed.

Lemma substring_lower (pat s : string) :
  lower pat = pat ->
  substring_of pat (lower s) <-> occurs_ci pat s.
Proof. intros Hpat. by rewrite <- substring_lower_ci, Hpat. Qed.

Lemma is_cpld_on_texts (row : Row) (n c : string) :
  field_text (Name row) n ->
  field_text (Category row) c ->
  is_cpld row = Ok (contains "cpld" (lower n) || contains "cpld" (lower c)
                    || contains "complex programmable logic" (lower n)).
Proof.
  intros Hn Hc. unfold is_cpld.
  by rewrite (py_lower_field _ _ Hn), (py_lower_field _ _ Hc).
Qed.

(** C2, as the code has it. On a row whose name and category are strings
    (or absent or empty), [is_cpld] returns, and it returns true exactly
    when the name or the category contains "cpld", or the name contains
    "complex programmable logic", whatever the case of the letters. *)
Theorem is_cpld_iff (row : Row) (n c : string) :
  field_text (Name row) n ->
  field_text (Category row) c ->
  (names_a_cpld n c -> is_cpld row = Ok true)
  /\ (~ names_a_cpld n c -> is_cpld row = Ok false).
Proof.
  intros Hn Hc. rewrite (is_cpld_on_texts row n c Hn Hc).
  assert (H : contains "cpld" (lower n) || contains "cpld" (lower c)
              || contains "complex programmable logic" (lower n) = true
              <-> names_a_cpld n c).
  { unfold names_a_cpld.
    rewrite !orb_true_iff, !contains_spec, !substring_lower by reflexivity. tauto. }
  destruct (_ || _ || _); split; intros HP; try done.
  - exfalso. apply HP, H. done.
  - apply H in HP. done.
Qed.

Lemma is_cpld_iff_witness : is_cpld sample_row = Ok true.
Proof.
  apply (proj1 (is_cpld_iff sample_row "System CPLD" "" (or_introl eq_refl)
                  (or_intror (conj eq_refl eq_refl)))).
  left. exists (list_ascii_of_string "System "), (list_ascii_of_string "CPLD"), [].
  split; [reflexivity|].
  simpl. repeat (constructor; [right; right; by vm_compute|]).
  constructor.
Defined.

(** C2 as stated fails: the normalizer hands on a name that is a number,
    and on such a row the filter raises instead of answering. *)
Lemma is_cpld_raises_on_number_name :
  parse_rows number_name_response = Ok [number_name_row]
  /\ is_cpld number_name_row
     = Raise (Exn AttributeError "object has no attribute 'lower'").
Proof. split; by vm_compute. Qed.

(** Upper case in the name, lower case in a category, and a row that is
    about something else. *)
Example is_cpld_mixed_case :
  is_cpld (row_of "Complex PROGRAMMABLE Logic Device" "1" "" None) = Ok true
  /\ is_cpld (row_of "BIOS" "2.1" "" None) = Ok false.
Proof. split; by vm_compute. Qed.

(** ** The row normalizer *)

Lemma py_get_mapping_or_nothing (v : json) (k : string) (d : json) :
  mapping_or_nothing v -> exists x, py_get (py_or v (JObj ∅)) k d = Ok x.
Proof.
  intros [Hf | [m ->]]; unfold py_or.
  - rewrite Hf. simpl. eauto.
  - destruct (truthy (JObj m)); simpl; eauto.
Qed.

(** What the normalizer makes of a mapping: every field that is missing
    becomes [None], and the name and the category become [""]. *)
Lemma normalize_row_mapping (m : gmap string json) (r : Row) :
  normalize_row (JObj m) = Ok r ->
  ReleaseDateRaw r = default JNull (m !! "ReleaseDate")
  /\ ReleaseDate r = parse_date (default JNull (m !! "ReleaseDate"))
  /\ LastUpdate r = parse_date (default JNull (m !! "LUPDDate"))
  /\ UpdateStatus r = default JNull (m !! "Imp")
  /\ Version r = default JNull (m !! "DellVer")
  /\ Name r = default (JStr "") (m !! "DriverName")
  /\ Category r = default (JStr "") (m !! "Category").
Proof.
  unfold normalize_row. cbn [py_get rbind].
  destruct (if truthy _ then _ else _) as [id|e]; [|discriminate]. cbn [rbind].
  destruct (py_get (py_or _ _) "Path" JNull) as [p|e]; [|discriminate]. cbn [rbind].
  intros [= <-]. cbn. repeat split; by destruct (m !! _).
Qed.

Lemma normalize_row_ok (d : json) :
  mapping_entry d -> exists r, normalize_row d = Ok r.
Proof.
  intros (m & -> & Hffi). unfold normalize_row. cbn [py_get rbind].
  assert (Hm : mapping_or_nothing
                 (match m !! "FileFrmtInfo" with Some x => x | None => JNull end)).
  { destruct (m !! "FileFrmtInfo"); [done | by left]. }
  destruct (py_get_mapping_or_nothing _ "FileId" JNull Hm) as [x1 H1].
  destruct (py_get_mapping_or_nothing _ "Path" JNull Hm) as [x2 H2].
  rewrite H1, H2. cbn [rbind].
  repeat (match goal with |- context [if ?b then _ else _] => destruct b end;
          cbn [rbind]); eauto.
Qed.

Lemma normalize_row_normalized (d : json) (r : Row) :
  normalize_row d = Ok r -> normalized d r.
Proof.
  intros H. destruct d as [| | | | |m]; try discriminate H.
  exists m. split; [done|]. by apply normalize_row_mapping.
Qed.

Lemma rmapM_Forall2 {A B} (f : A -> res B) (P : A -> Prop) (xs : list A) :
  (forall x, P x -> exists y, f x = Ok y) ->
  Forall P xs ->
  exists ys, rmapM f xs = Ok ys /\ Forall2 (fun x y => f x = Ok y) xs ys.
Proof.
  intros Hf. induction 1 as [|x xs Hx _ (ys & Hys & H2)]; simpl.
  - exists []. by split.
  - destruct (Hf x Hx) as [y Hy]. rewrite Hy, Hys. simpl.
    exists (y :: ys). split; [done | by constructor].
Qed.

(** C8, as the code has it. On a response that is absent or empty, or a
    mapping whose [DriverListData] is a list of mappings in each of which
    [FileFrmtInfo] is absent, empty or a mapping, [parse_rows] does not
    raise: it returns one row for each entry, in order, in which every
    missing field has its default and every date the parser does not read
    is absent, whatever the types of the values. *)
Theorem parse_rows_total_on_mappings (dj : json) :
  mapping_response dj ->
  exists rows, parse_rows dj = Ok rows
    /\ Forall2 normalized (entries_of dj) rows.
Proof.
  intros [Hf | (m & -> & Hm)]; unfold parse_rows.
  - rewrite Hf. simpl. exists []. split; [done|].
    destruct dj as [| | | | |m]; simpl; try constructor.
    simpl in Hf. apply negb_false_iff, bool_decide_eq_true in Hf. subst m.
    rewrite lookup_empty. constructor.
  - destruct (truthy (JObj m)) eqn:Ht; cbn [negb].
    + cbn [py_in rbind entries_of py_getitem].
      destruct (m !! "DriverListData") as [v|] eqn:E.
      * destruct Hm as (l & -> & Hl).
        rewrite bool_decide_true by eauto. cbn [negb rbind py_iter].
        destruct (rmapM_Forall2 normalize_row mapping_entry l normalize_row_ok Hl)
          as (rows & -> & H2).
        exists rows. split; [done|].
        eapply Forall2_impl; [exact H2|]. apply normalize_row_normalized.
      * rewrite bool_decide_false by (intros [? ?]; discriminate).
        cbn [negb]. exists []. split; [done | constructor].
    + simpl in Ht. apply negb_false_iff, bool_decide_eq_true in Ht. subst m.
      exists []. split; [done|]. simpl. rewrite lookup_empty. constructor.
Qed.

Lemma parse_rows_total_on_mappings_witness :
  exists rows, parse_rows sparse_response = Ok rows
    /\ Forall2 normalized (entries_of sparse_response) rows.
Proof.
  apply (parse_rows_total_on_mappings sparse_response).
  right. eexists. split; [reflexivity|]. vm_compute lookup.
  eexists. split; [reflexivity|].
  constructor; [|constructor].
  eexists. split; [reflexivity|]. vm_compute lookup. exact I.
Defined.

(** C8 as stated fails: an entry whose [FileFrmtInfo] is a non-empty string
    makes [parse_rows] raise [AttributeError]. *)
Lemma parse_rows_raises_on_ill_typed :
  parse_rows ill_typed_response
  = Raise (Exn AttributeError "object has no attribute 'get'").
Proof. vm_compute. reflexivity. Qed.

Example parse_rows_sparse :
  parse_rows sparse_response
  = Ok [ {| ReleaseDate := None; ReleaseDateRaw := JNum 20240110;
            LastUpdate := None; UpdateStatus := JNull; Version := JNull;
            Name := JStr "CPLD"; Category := JStr "";
            DriverId := JNull; DownloadUrl := JNull |} ].
Proof. vm_compute. reflexivity. Qed.

(** ** The matcher against the meaning of a regular expression *)

Lemma plus_class_spec (p : ascii -> bool) (s rest : list ascii) :
  rest ∈ plus_class p s <->
  exists w, s = (w ++ rest)%list /\ w <> [] /\ Forall (fun c => p c = true) w.
Proof.
  induction s as [|c s IH]; simpl.
  - rewrite elem_of_nil. split; [done|].
    intros (w & H & Hw & _). by destruct w.
  - destruct (p c) eqn:Hc.
    + rewrite elem_of_app, list_elem_of_singleton, IH. split.
      * intros [(w & -> & Hw & Hall) | ->].
        -- exists (c :: w). repeat split; [done | by constructor].
        -- exists [c]. repeat split; [done | by repeat constructor].
      * intros (w & H & Hw & Hall). destruct w as [|c' w]; [done|].
        injection H as <- ->. inversion_clear Hall.
        destruct w as [|c2 w]; [by right|].
        left. exists (c2 :: w). by repeat split.
    + rewrite elem_of_nil. split; [done|].
      intros (w & H & Hw & Hall). destruct w as [|c' w]; [done|].
      injection H as <- ->. inversion_clear Hall. congruence.
Qed.

Lemma take_consumed {A} (w rest : list A) :
  take (List.length (w ++ rest) - List.length rest) (w ++ rest) = w.
Proof.
  rewrite length_app. replace (_ + _ - _)%nat with (List.length w) by lia.
  by rewrite take_app_length.
Qed.

(** The matcher lists exactly the ways a prefix of the text is matched. *)
Lemma rmatch_spec (r : re) (s : list ascii) (g : captures) (rest : list ascii) :
  (g, rest) ∈ rmatch r s <-> exists w, s = (w ++ rest)%list /\ matches r w g.
Proof.
  revert s g rest. induction r as [p|r1 IH1 r2 IH2|r1 IH1 r2 IH2|p|n r IH];
    intros s g rest; cbn [rmatch].
  - destruct s as [|c s].
    + rewrite elem_of_nil. split; [done|].
      intros (w & H & Hm). inversion Hm; subst. discriminate H.
    + destruct (p c) eqn:Hc.
      * rewrite list_elem_of_singleton. split.
        -- intros [= -> ->]. exists [c]. split; [done | by constructor].
        -- intros (w & H & Hm). inversion Hm; subst. by injection H as <- <-.
      * rewrite elem_of_nil. split; [done|].
        intros (w & H & Hm). inversion Hm; subst. injection H as <- _. congruence.
  - rewrite list_elem_of_In, in_flat_map. split.
    + intros ([g1 s1] & H1 & H2).
      apply list_elem_of_In, IH1 in H1 as (w1 & -> & Hm1).
      apply list_elem_of_In, list_elem_of_fmap in H2 as ([g2 s2] & [= -> ->] & H2).
      simpl in H2. apply IH2 in H2 as (w2 & -> & Hm2). simpl.
      exists (w1 ++ w2)%list. split; [by rewrite <- app_assoc | by constructor].
    + intros (w & -> & Hm). inversion Hm; subst.
      exists (g1, (w2 ++ rest)%list). split.
      * apply list_elem_of_In, IH1. exists w1. split; [by rewrite <- app_assoc | done].
      * apply list_elem_of_In, list_elem_of_fmap. exists (g2, rest). split; [done|].
        apply IH2. eauto.
  - rewrite elem_of_app, IH1, IH2. split.
    + intros [(w & -> & Hm) | (w & -> & Hm)]; exists w; split; auto using matches.
    + intros (w & -> & Hm). inversion Hm; subst; eauto.
  - rewrite list_elem_of_fmap. split.
    + intros (s' & [= -> ->] & H). apply plus_class_spec in H as (w & -> & Hw & Hall).
      exists w. split; [done | by constructor].
    + intros (w & -> & Hm). inversion Hm; subst.
      exists rest. split; [done|]. apply plus_class_spec. eauto.
  - rewrite list_elem_of_fmap. split.
    + intros ([g1 s1] & [= -> ->] & H). apply IH in H as (w & -> & Hm). simpl.
      rewrite take_consumed. exists w. split; [done | by constructor].
    + intros (w & -> & Hm). inversion Hm; subst.
      exists (g0, rest). simpl. rewrite take_consumed. split; [done|].
      apply IH. eauto.
Qed.

(** ** Characters *)

Lemma digit_not_space (c : ascii) : is_digit c = true -> is_space c = false.
Proof. ascii_cases c; vm_compute; congruence. Qed.

Lemma digit_val_range (c : ascii) : is_digit c = true -> 0 <= digit_val c <= 9.
Proof. ascii_cases c; vm_compute; intuition congruence. Qed.

Lemma in_range_1_9 (c : ascii) :
  in_range "1" "9" c = true <-> is_digit c = true /\ 1 <= digit_val c.
Proof. ascii_cases c; vm_compute; intuition congruence. Qed.

Lemma in_range_0_1 (c : ascii) :
  in_range "0" "1" c = true <-> is_digit c = true /\ digit_val c <= 1.
Proof. ascii_cases c; vm_compute; intuition congruence. Qed.

Lemma in_range_1_2 (c : ascii) :
  in_range "1" "2" c = true <-> is_digit c = true /\ 1 <= digit_val c <= 2.
Proof. ascii_cases c; vm_compute; intuition congruence. Qed.

Lemma ci_char_3 (c : ascii) :
  ci_char "3" c = true <-> is_digit c = true /\ digit_val c = 3.
Proof. ascii_cases c; vm_compute; intuition congruence. Qed.

Lemma ci_char_0 (c : ascii) :
  ci_char "0" c = true <-> is_digit c = true /\ digit_val c = 0.
Proof. ascii_cases c; vm_compute; intuition congruence. Qed.

Lemma ci_char_blank (c : ascii) : ci_char " " c = true <-> c = " "%char.
Proof. ascii_cases c; vm_compute; intuition congruence. Qed.

Lemma space_lower (c : ascii) : is_space c = true -> lower_ascii c = c.
Proof. ascii_cases c; vm_compute; congruence. Qed.

Lemma lower_space (c : ascii) : is_space (lower_ascii c) = true -> is_space c = true.
Proof. ascii_cases c; vm_compute; congruence. Qed.

Lemma ci_char_not_space (x c : ascii) :
  is_space x = false -> ci_char x c = true -> is_space c = false.
Proof.
  unfold ci_char. intros Hx H. apply Ascii.eqb_eq in H.
  destruct (is_space c) eqn:Hc; [|done].
  rewrite (space_lower c Hc) in H. subst c.
  apply lower_space in Hc. congruence.
Qed.

Lemma digit_char_spec (n : Z) :
  is_digit (digit_char n) = true /\ digit_val (digit_char n) = n mod 10.
Proof.
  unfold digit_char.
  assert (H : 0 <= n mod 10 < 10) by (apply Z.mod_pos_bound; lia).
  assert (Hk : n mod 10 = 0 \/ n mod 10 = 1 \/ n mod 10 = 2 \/ n mod 10 = 3
               \/ n mod 10 = 4 \/ n mod 10 = 5 \/ n mod 10 = 6 \/ n mod 10 = 7
               \/ n mod 10 = 8 \/ n mod 10 = 9) by lia.
  destruct Hk as [-> | [-> | [-> | [-> | [-> | [-> | [-> | [-> | [-> | ->]]]]]]]]];
    by vm_compute.
Qed.

(** ** The three fields of a date text *)

Ltac inv_matches :=
  repeat match goal with
  | H : matches (Grp _ _) _ _ |- _ => inversion H; subst; clear H
  | H : matches (Seq _ _) _ _ |- _ => inversion H; subst; clear H
  | H : matches (Alt _ _) _ _ |- _ => inversion H; subst; clear H
  | H : matches (Cls _) _ _ |- _ => inversion H; subst; clear H
  | H : matches (Plus _) _ _ |- _ => inversion H; subst; clear H
  end.

Ltac char_facts :=
  repeat match goal with
  | H : ci_char "3" _ = true |- _ => apply ci_char_3 in H as [? ?]
  | H : ci_char "0" _ = true |- _ => apply ci_char_0 in H as [? ?]
  | H : ci_char " " _ = true |- _ => apply ci_char_blank in H; subst
  | H : in_range "1" "9" _ = true |- _ => apply in_range_1_9 in H as [? ?]
  | H : in_range "0" "1" _ = true |- _ => apply in_range_0_1 in H as [? ?]
  | H : in_range "1" "2" _ = true |- _ => apply in_range_1_2 in H as [? ?]
  end;
  repeat match goal with
  | H : is_digit ?c = true |- _ =>
      lazymatch goal with
      | _ : 0 <= digit_val c <= 9 |- _ => fail
      | _ => pose proof (digit_val_range c H)
      end
  end.

Lemma day_text_of_match (w : list ascii) (g : captures) :
  matches re_d w g -> g = [("d", w)] /\ exists n, day_text w n.
Proof.
  unfold re_d. cbn [alts]. intros H. inv_matches; simpl; (split; [done|]).
  - char_facts. eexists. apply day_two; [done..|lia].
  - char_facts. eexists. apply day_two; [done..|lia].
  - char_facts. eexists. apply day_two; [done..|lia].
  - eexists. by apply day_one.
  - char_facts. eexists. apply day_blank. by apply in_range_1_9.
Qed.

Lemma match_of_day_text (w : list ascii) (n : Z) :
  day_text w n -> matches re_d w [("d", w)].
Proof.
  unfold re_d. cbn [alts]. intros H. apply (M_Grp "d" _ w []).
  destruct H as [c Hc | c Hc | c1 c2 H1 H2 Hn].
  - do 3 apply M_AltR. apply M_AltL. by constructor.
  - do 4 apply M_AltR. apply (M_Seq _ _ [_] [_] [] []); constructor; [|done].
    by apply ci_char_blank.
  - pose proof (digit_val_range _ H1). pose proof (digit_val_range _ H2).
    assert (Hc : digit_val c1 = 3 \/ 1 <= digit_val c1 <= 2 \/ digit_val c1 = 0) by lia.
    destruct Hc as [Hc | [Hc | Hc]].
    + apply M_AltL. apply (M_Seq _ _ [_] [_] [] []); constructor.
      * by apply ci_char_3.
      * apply in_range_0_1. split; [done | lia].
    + apply M_AltR, M_AltL. apply (M_Seq _ _ [_] [_] [] []); constructor; [|done].
      by apply in_range_1_2.
    + do 2 apply M_AltR. apply M_AltL. apply (M_Seq _ _ [_] [_] [] []); constructor.
      * by apply ci_char_0.
      * apply in_range_1_9. split; [done | lia].
Qed.

Lemma day_text_int (w : list ascii) (n : Z) : day_text w n -> py_int w = Ok n.
Proof.
  intros [c Hc | c Hc | c1 c2 H1 H2 Hn]; unfold py_int; cbn [lstrip].
  - apply in_range_1_9 in Hc as [Hd _].
    rewrite (digit_not_space c Hd). cbn [digits_val]. rewrite Hd. f_equal.
  - apply in_range_1_9 in Hc as [Hd _].
    replace (is_space " ") with true by reflexivity. cbn [lstrip].
    rewrite (digit_not_space c Hd). cbn [digits_val]. rewrite Hd. f_equal.
  - rewrite (digit_not_space c1 H1). cbn [digits_val]. rewrite H1, H2. f_equal; lia.
Qed.

Lemma ci_char_eq (x c : ascii) : ci_char x c = true <-> lower_ascii c = lower_ascii x.
Proof. unfold ci_char. apply Ascii.eqb_eq. Qed.

Ltac lit_chars :=
  repeat match goal with
  | H : ci_char _ _ = true |- _ => apply ci_char_eq in H; vm_compute (lower_ascii (Ascii _ _ _ _ _ _ _ _)) in H
  end.

Lemma month_text_of_match (w : list ascii) (g : captures) :
  matches re_b w g -> g = [("b", w)] /\ exists m, month_text w m.
Proof.
  unfold re_b. cbn [alts fmap list_fmap a_month list_ascii_of_string lit].
  intros H. inv_matches; simpl; (split; [done|]); lit_chars.
  - exists 1. split; [lia|]. simpl. congruence.
  - exists 2. split; [lia|]. simpl. congruence.
  - exists 3. split; [lia|]. simpl. congruence.
  - exists 4. split; [lia|]. simpl. congruence.
  - exists 5. split; [lia|]. simpl. congruence.
  - exists 6. split; [lia|]. simpl. congruence.
  - exists 7. split; [lia|]. simpl. congruence.
  - exists 8. split; [lia|]. simpl. congruence.
  - exists 9. split; [lia|]. simpl. congruence.
  - exists 10. split; [lia|]. simpl. congruence.
  - exists 11. split; [lia|]. simpl. congruence.
  - exists 12. split; [lia|]. simpl. congruence.
Qed.

Lemma month_cases (m : Z) :
  1 <= m <= 12 ->
  m = 1 \/ m = 2 \/ m = 3 \/ m = 4 \/ m = 5 \/ m = 6
  \/ m = 7 \/ m = 8 \/ m = 9 \/ m = 10 \/ m = 11 \/ m = 12.
Proof. lia. Qed.

Lemma lower_three (w : list ascii) (a b c : ascii) :
  lower (string_of_list_ascii w) = String a (String b (String c EmptyString)) ->
  exists x y z, w = [x; y; z]
    /\ lower_ascii x = a /\ lower_ascii y = b /\ lower_ascii z = c.
Proof.
  destruct w as [|x [|y [|z [|t w]]]]; simpl; try discriminate.
  intros [= <- <- <-]. by exists x, y, z.
Qed.

Ltac lit_char H :=
  constructor; apply ci_char_eq; rewrite H; reflexivity.

Tactic Notation "month_alt" integer(n) hyp(Hx) hyp(Hy) hyp(Hz) :=
  do n apply M_AltR; try apply M_AltL;
  apply (M_Seq _ _ [_] [_; _] [] []); [lit_char Hx|];
  apply (M_Seq _ _ [_] [_] [] []); [lit_char Hy | lit_char Hz].

Lemma match_of_month_text (w : list ascii) (m : Z) :
  month_text w m -> matches re_b w [("b", w)].
Proof.
  intros [Hm Hw]. apply (M_Grp "b" _ w []).
  cbn [alts fmap list_fmap a_month list_ascii_of_string lit].
  destruct (month_cases m Hm) as [-> | [-> | [-> | [-> | [-> | [-> | [-> | [-> | [-> | [-> | [-> | ->]]]]]]]]]]];
    cbn in Hw; injection Hw as Hw; symmetry in Hw;
    apply lower_three in Hw as (x & y & z & -> & Hx & Hy & Hz).
  - month_alt 0 Hx Hy Hz.
  - month_alt 1 Hx Hy Hz.
  - month_alt 2 Hx Hy Hz.
  - month_alt 3 Hx Hy Hz.
  - month_alt 4 Hx Hy Hz.
  - month_alt 5 Hx Hy Hz.
  - month_alt 6 Hx Hy Hz.
  - month_alt 7 Hx Hy Hz.
  - month_alt 8 Hx Hy Hz.
  - month_alt 9 Hx Hy Hz.
  - month_alt 10 Hx Hy Hz.
  - month_alt 11 Hx Hy Hz.
Qed.

Lemma month_text_index (w : list ascii) (m : Z) :
  month_text w m -> month_index w = Ok m.
Proof.
  intros [Hm Hw]. unfold month_index.
  destruct (month_cases m Hm) as [-> | [-> | [-> | [-> | [-> | [-> | [-> | [-> | [-> | [-> | [-> | ->]]]]]]]]]]];
    cbn in Hw; injection Hw as <-; reflexivity.
Qed.

Lemma year_text_of_match (w : list ascii) (g : captures) :
  matches re_Y w g -> g = [("Y", w)] /\ exists y, year_text w y.
Proof.
  unfold re_Y. intros H. inv_matches. simpl. split; [done|].
  eexists. do 4 eexists. by repeat split.
Qed.

Lemma match_of_year_text (w : list ascii) (y : Z) :
  year_text w y -> matches re_Y w [("Y", w)].
Proof.
  intros (c1 & c2 & c3 & c4 & -> & H1 & H2 & H3 & H4 & _).
  apply (M_Grp "Y" _ _ []).
  apply (M_Seq _ _ [_] [_; _; _] [] []); [by constructor|].
  apply (M_Seq _ _ [_] [_; _] [] []); [by constructor|].
  apply (M_Seq _ _ [_] [_] [] []); by constructor.
Qed.

Lemma year_text_int (w : list ascii) (y : Z) : year_text w y -> py_int w = Ok y.
Proof.
  intros (c1 & c2 & c3 & c4 & -> & H1 & H2 & H3 & H4 & ->).
  unfold py_int. cbn [lstrip]. rewrite (digit_not_space c1 H1).
  cbn [digits_val]. rewrite H1, H2, H3, H4. f_equal; lia.
Qed.

(** ** The whole pattern *)

Lemma date_text_of_match (w : list ascii) (g : captures) :
  matches re_d_b_Y w g ->
  exists dt b1 mo b2 yt dd mm yy,
    w = (dt ++ b1 ++ mo ++ b2 ++ yt)%list
    /\ g = [("d", dt); ("b", mo); ("Y", yt)]
    /\ day_text dt dd /\ blanks b1 /\ month_text mo mm /\ blanks b2 /\ year_text yt yy.
Proof.
  unfold re_d_b_Y. intros H.
  inversion H as [|? ? dt w1 gd g1 Hd H1| | | |]; subst; clear H.
  inversion H1 as [|? ? b1 w2 gb1 g2 Hb1 H2| | | |]; subst; clear H1.
  inversion H2 as [|? ? mo w3 gm g3 Hmo H3| | | |]; subst; clear H2.
  inversion H3 as [|? ? b2 yt gb2 gy Hb2 Hy| | | |]; subst; clear H3.
  inversion Hb1; subst. inversion Hb2; subst.
  apply day_text_of_match in Hd as [-> [dd Hd]].
  apply month_text_of_match in Hmo as [-> [mm Hmo]].
  apply year_text_of_match in Hy as [-> [yy Hy]].
  exists dt, b1, mo, b2, yt, dd, mm, yy.
  split; [done|]. split; [done|]. split; [done|]. split; [by split|].
  split; [done|]. split; [by split | done].
Qed.

Lemma match_of_date_text (dt b1 mo b2 yt : list ascii) (dd mm yy : Z) :
  day_text dt dd -> blanks b1 -> month_text mo mm -> blanks b2 -> year_text yt yy ->
  matches re_d_b_Y (dt ++ b1 ++ mo ++ b2 ++ yt)%list [("d", dt); ("b", mo); ("Y", yt)].
Proof.
  intros Hd [? ?] Hm [? ?] Hy. unfold re_d_b_Y.
  apply (M_Seq _ _ dt _ [("d", dt)] [("b", mo); ("Y", yt)]);
    [by eapply match_of_day_text|].
  apply (M_Seq _ _ b1 _ [] [("b", mo); ("Y", yt)]); [by constructor|].
  apply (M_Seq _ _ mo _ [("b", mo)] [("Y", yt)]); [by eapply match_of_month_text|].
  apply (M_Seq _ _ b2 _ [] [("Y", yt)]); [by constructor|].
  by eapply match_of_year_text.
Qed.

(** ** A text is read as a date in one way only *)

Lemma blanks_split_unique (b b' : list ascii) (x x' : ascii) (r r' : list ascii) :
  Forall (fun c => is_space c = true) b ->
  Forall (fun c => is_space c = true) b' ->
  is_space x = false -> is_space x' = false ->
  (b ++ x :: r)%list = (b' ++ x' :: r')%list ->
  b = b' /\ x :: r = x' :: r'.
Proof.
  intros Hb. revert b'. induction Hb as [|c b Hc Hb IH]; intros b' Hb' Hx Hx' H.
  - destruct Hb' as [|c' b' Hc' Hb']; [done|].
    simpl in H. injection H as -> _. congruence.
  - destruct Hb' as [|c' b' Hc' Hb'].
    + simpl in H. injection H as <- _. congruence.
    + simpl in H. injection H as <- H.
      destruct (IH b' Hb' Hx Hx' H) as [-> ?]. done.
Qed.

Lemma day_split_unique (dt dt' : list ascii) (dd dd' : Z) (s s' : ascii)
    (r r' : list ascii) :
  day_text dt dd -> day_text dt' dd' ->
  is_space s = true -> is_space s' = true ->
  (dt ++ s :: r)%list = (dt' ++ s' :: r')%list ->
  dt = dt' /\ s :: r = s' :: r'.
Proof.
  assert (Hsp : is_space " " = true) by reflexivity.
  intros Hd Hd' Hs Hs' H.
  destruct Hd as [c Hc | c Hc | c1 c2 H1 H2 _];
    destruct Hd' as [c' Hc' | c' Hc' | c1' c2' H1' H2' _];
    simpl in H; injection H; intros; subst;
    repeat match goal with
    | H : in_range "1" "9" _ = true |- _ => apply in_range_1_9 in H as [H _]
    | H : is_digit ?c = true |- _ => apply digit_not_space in H
    end;
    solve [done | congruence].
Qed.

Lemma month_text_shape (w : list ascii) (m : Z) :
  month_text w m -> exists x y z, w = [x; y; z] /\ is_space x = false.
Proof.
  intros [Hm Hw].
  destruct (month_cases m Hm) as [-> | [-> | [-> | [-> | [-> | [-> | [-> | [-> | [-> | [-> | [-> | ->]]]]]]]]]]];
    cbn in Hw; injection Hw as Hw; symmetry in Hw;
    apply lower_three in Hw as (x & y & z & -> & Hx & _ & _);
    exists x, y, z; (split; [done|]);
    (destruct (is_space x) eqn:E; [|done]);
    rewrite (space_lower x E) in Hx; subst x; by vm_compute in E.
Qed.

Lemma date_text_unique
    (dt b1 mo b2 yt dt' b1' mo' b2' yt' rest rest' : list ascii)
    (dd mm yy dd' mm' yy' : Z) :
  day_text dt dd -> blanks b1 -> month_text mo mm -> blanks b2 -> year_text yt yy ->
  day_text dt' dd' -> blanks b1' -> month_text mo' mm' -> blanks b2' -> year_text yt' yy' ->
  ((dt ++ b1 ++ mo ++ b2 ++ yt) ++ rest)%list
  = ((dt' ++ b1' ++ mo' ++ b2' ++ yt') ++ rest')%list ->
  dt = dt' /\ mo = mo' /\ yt = yt' /\ rest = rest'.
Proof.
  intros Hd [Hn1 Hb1] Hm [Hn2 Hb2] Hy Hd' [Hn1' Hb1'] Hm' [Hn2' Hb2'] Hy' H.
  apply month_text_shape in Hm as (x & y & z & -> & Hx).
  apply month_text_shape in Hm' as (x' & y' & z' & -> & Hx').
  destruct Hy as (c1 & c2 & c3 & c4 & -> & Hc1 & _).
  destruct Hy' as (c1' & c2' & c3' & c4' & -> & Hc1' & _).
  apply digit_not_space in Hc1, Hc1'.
  rewrite <- !app_assoc in H.
  destruct Hb1 as [|s b1 Hs Hb1]; [done|].
  destruct Hb1' as [|s' b1' Hs' Hb1']; [done|].
  simpl in H.
  apply (day_split_unique _ _ _ _ _ _ _ _ Hd Hd' Hs Hs') in H as [-> H].
  injection H as <- H.
  apply (blanks_split_unique _ _ _ _ _ _ Hb1 Hb1' Hx Hx') in H as [-> H].
  injection H as <- <- <- H.
  apply (blanks_split_unique _ _ _ _ _ _ Hb2 Hb2' Hc1 Hc1') in H as [-> H].
  by injection H as <- <- <- <- <-.
Qed.

(** ** [strptime] and [parse_date] *)

Lemma datetime_date_ok (y m dd : Z) (d : date) :
  datetime_date y m dd = Ok d <-> d = Date y m dd /\ valid_date d.
Proof.
  unfold datetime_date, valid_date.
  destruct (_ && _) eqn:E.
  - repeat (apply andb_true_iff in E as [E ?]). split.
    + intros [= <-]. simpl. split; [done | lia].
    + by intros [-> _].
  - split; [done|]. intros [-> H]. simpl in H.
    repeat (apply andb_false_iff in E as [E | E]); lia.
Qed.

Lemma strptime_fields (dt mo yt : list ascii) (dd mm yy : Z) :
  day_text dt dd -> month_text mo mm -> year_text yt yy ->
  (let* d := py_int (group "d" [("d", dt); ("b", mo); ("Y", yt)]) in
   let* m := month_index (group "b" [("d", dt); ("b", mo); ("Y", yt)]) in
   let* y := py_int (group "Y" [("d", dt); ("b", mo); ("Y", yt)]) in
   datetime_date y m d) = datetime_date yy mm dd.
Proof.
  intros Hd Hm Hy. cbn [group String.eqb Ascii.eqb Bool.eqb].
  by rewrite (day_text_int _ _ Hd), (month_text_index _ _ Hm), (year_text_int _ _ Hy).
Qed.

(** [strptime] returns a date exactly on the accepted texts. *)
Lemma strptime_spec (s : string) (d : date) :
  strptime_d_b_Y (JStr s) = Ok d <-> accepted_date_text s d.
Proof.
  unfold strptime_d_b_Y, accepted_date_text. split.
  - destruct (rmatch re_d_b_Y (list_ascii_of_string s)) as [|[g rest] l] eqn:E; [done|].
    destruct rest as [|c rest]; [|done].
    assert (Hin : (g, []) ∈ rmatch re_d_b_Y (list_ascii_of_string s))
      by (rewrite E; left).
    apply rmatch_spec in Hin as (w & Hw & Hm). rewrite app_nil_r in Hw. subst w.
    apply date_text_of_match in Hm
      as (dt & b1 & mo & b2 & yt & dd & mm & yy & Hs & -> & Hd & H1 & Hmo & H2 & Hy).
    rewrite (strptime_fields _ _ _ _ _ _ Hd Hmo Hy).
    intros [-> Hv]%datetime_date_ok.
    exists dt, b1, mo, b2, yt. by repeat (split; [done|]).
  - intros (dt & b1 & mo & b2 & yt & Hs & Hd & H1 & Hmo & H2 & Hy & Hv).
    pose proof (match_of_date_text _ _ _ _ _ _ _ _ Hd H1 Hmo H2 Hy) as Hm.
    assert (Hin : ([("d", dt); ("b", mo); ("Y", yt)], [])
                  ∈ rmatch re_d_b_Y (list_ascii_of_string s)).
    { apply rmatch_spec. eexists. split; [|exact Hm]. by rewrite app_nil_r. }
    destruct (rmatch re_d_b_Y (list_ascii_of_string s)) as [|[g rest] l] eqn:E.
    { by apply elem_of_nil in Hin. }
    assert (Hhd : (g, rest) ∈ rmatch re_d_b_Y (list_ascii_of_string s))
      by (rewrite E; left).
    apply rmatch_spec in Hhd as (w & Hw & Hm').
    apply date_text_of_match in Hm'
      as (dt' & b1' & mo' & b2' & yt' & dd' & mm' & yy' & -> & -> & Hd' & H1' & Hmo' & H2' & Hy').
    rewrite Hs, <- (app_nil_r (dt ++ _)) in Hw.
    destruct (date_text_unique _ _ _ _ _ _ _ _ _ _ _ _ _ _ _ _ _ _
                Hd H1 Hmo H2 Hy Hd' H1' Hmo' H2' Hy' Hw) as (<- & <- & <- & <-).
    rewrite (strptime_fields _ _ _ _ _ _ Hd Hmo Hy).
    apply datetime_date_ok. split; [by destruct d | done].
Qed.

Lemma days_in_month_le (y m : Z) : 28 <= days_in_month y m <= 31.
Proof.
  unfold days_in_month.
  repeat match goal with |- context [if ?b then _ else _] => destruct b end; lia.
Qed.

(** The "DD Mon YYYY" text of a date is one of the accepted texts. *)
Lemma dd_mon_yyyy_accepted (d : date) :
  valid_date d -> accepted_date_text (dd_mon_yyyy_text d) d.
Proof.
  intros (Hy & Hm & Hd). pose proof (days_in_month_le (year d) (month d)) as Hdim.
  pose proof (digit_char_spec (day d / 10)) as [Hd1 Hv1].
  pose proof (digit_char_spec (day d)) as [Hd2 Hv2].
  pose proof (digit_char_spec (year d / 10 / 10 / 10)) as [Hy1 Hw1].
  pose proof (digit_char_spec (year d / 10 / 10)) as [Hy2 Hw2].
  pose proof (digit_char_spec (year d / 10)) as [Hy3 Hw3].
  pose proof (digit_char_spec (year d)) as [Hy4 Hw4].
  exists [digit_char (day d / 10); digit_char (day d)], [" "%char],
         (list_ascii_of_string (nth (Z.to_nat (month d - 1)) month_abbr "")),
         [" "%char],
         [digit_char (year d / 10 / 10 / 10); digit_char (year d / 10 / 10);
          digit_char (year d / 10); digit_char (year d)].
  split; [|split; [|split; [|split; [|split; [|split]]]]].
  - unfold dd_mon_yyyy_text. cbn [zero_padded].
    destruct (month_cases _ Hm) as [-> | [-> | [-> | [-> | [-> | [-> | [-> | [-> | [-> | [-> | [-> | ->]]]]]]]]]]];
      reflexivity.
  - replace (day d) with (10 * digit_val (digit_char (day d / 10))
                          + digit_val (digit_char (day d))) at 3
      by (rewrite Hv1, Hv2; Z.div_mod_to_equations; lia).
    apply day_two; [done..|]. rewrite Hv1, Hv2. Z.div_mod_to_equations. lia.
  - split; [done | by repeat constructor].
  - split; [done|].
    destruct (month_cases _ Hm) as [-> | [-> | [-> | [-> | [-> | [-> | [-> | [-> | [-> | [-> | [-> | ->]]]]]]]]]]];
      reflexivity.
  - split; [done | by repeat constructor].
  - do 4 eexists. split; [reflexivity|]. repeat (split; [done|]).
    rewrite Hw1, Hw2, Hw3, Hw4. Z.div_mod_to_equations. lia.
  - done.
Qed.

(** The parser never raises, and returns a date exactly on the accepted
    texts. *)
Lemma parse_date_accepted (v : json) (d : date) :
  parse_date v = Some d <-> exists s, v = JStr s /\ accepted_date_text s d.
Proof.
  assert (Hstr : forall s, parse_date (JStr s) = Some d <-> accepted_date_text s d).
  { intros s. rewrite <- strptime_spec. unfold parse_date.
    destruct (strptime_d_b_Y (JStr s)); split; congruence. }
  split.
  - destruct v as [| | |s| |]; try discriminate.
    intros H. exists s. split; [done | by apply Hstr].
  - intros (s & -> & H). by apply Hstr.
Qed.

(** *** The accepted texts in the words of the specification *)

Lemma is_space_white (c : ascii) : is_space c = true <-> white_space c.
Proof.
  unfold is_space, white_space, code.
  rewrite orb_true_iff, !andb_true_iff, !Nat.leb_le. lia.
Qed.

Lemma is_digit_digit_of (c : ascii) (n : Z) :
  is_digit c = true /\ digit_val c = n <-> digit_of c n.
Proof.
  unfold is_digit, in_range, digit_val, digit_of, code.
  change (nat_of_ascii "0") with 48%nat. change (nat_of_ascii "9") with 57%nat.
  rewrite andb_true_iff, !Nat.leb_le. lia.
Qed.

Lemma blanks_separator (w : list ascii) : blanks w <-> separator w.
Proof.
  unfold blanks, separator. split; intros [H1 H2]; (split; [done|]);
    eapply Forall_impl; try exact H2; intros c Hc; by apply is_space_white.
Qed.

Lemma day_text_written (w : list ascii) (n : Z) : day_text w n <-> day_written w n.
Proof.
  split.
  - intros [c Hc | c Hc | c1 c2 H1 H2 Hr].
    + apply in_range_1_9 in Hc as [Hc Hn].
      apply day_written_one; [by apply is_digit_digit_of | done].
    + apply in_range_1_9 in Hc as [Hc Hn].
      apply day_written_blank; [by apply is_digit_digit_of | done].
    + apply day_written_two; [by apply is_digit_digit_of..|done].
  - intros [c k Hc Hk | c k Hc Hk | c1 c2 n1 n2 H1 H2 Hr].
    + apply is_digit_digit_of in Hc as [Hc <-]. apply day_one. by apply in_range_1_9.
    + apply is_digit_digit_of in Hc as [Hc <-]. apply day_blank. by apply in_range_1_9.
    + apply is_digit_digit_of in H1 as [H1 <-]. apply is_digit_digit_of in H2 as [H2 <-].
      by apply day_two.
Qed.

Lemma month_names (m : Z) :
  1 <= m <= 12 ->
  exists name, month_abbr !! Z.to_nat (m - 1) = Some name
    /\ a_month !! Z.to_nat (m - 1) = Some (lower name).
Proof.
  intros Hm.
  destruct (month_cases _ Hm) as [-> | [-> | [-> | [-> | [-> | [-> | [-> | [-> | [-> | [-> | [-> | ->]]]]]]]]]]];
    eexists; split; reflexivity.
Qed.

Lemma month_text_written (w : list ascii) (m : Z) : month_text w m <-> month_written w m.
Proof.
  unfold month_text, month_written. split.
  - intros [Hm Hw]. split; [done|].
    destruct (month_names m Hm) as (name & Hname & Hlow).
    exists name. split; [done|]. apply same_letters_lower.
    rewrite Hlow in Hw. injection Hw as Hw.
    apply (f_equal list_ascii_of_string) in Hw.
    by rewrite !chars_lower, list_ascii_of_string_of_list_ascii in Hw.
  - intros [Hm (name & Hname & Hw%same_letters_lower)]. split; [done|].
    destruct (month_names m Hm) as (name' & Hname' & Hlow).
    rewrite Hname in Hname'. injection Hname' as <-. rewrite Hlow. f_equal.
    apply chars_inj. by rewrite !chars_lower, list_ascii_of_string_of_list_ascii.
Qed.

Lemma year_text_written (w : list ascii) (y : Z) : year_text w y <-> year_written w y.
Proof.
  split.
  - intros (c1 & c2 & c3 & c4 & -> & H1 & H2 & H3 & H4 & ->).
    exists c1, c2, c3, c4, (digit_val c1), (digit_val c2), (digit_val c3), (digit_val c4).
    split; [done|]. by repeat (split; [by apply is_digit_digit_of|]).
  - intros (c1 & c2 & c3 & c4 & n1 & n2 & n3 & n4 & -> & H1 & H2 & H3 & H4 & ->).
    apply is_digit_digit_of in H1 as [H1 <-]. apply is_digit_digit_of in H2 as [H2 <-].
    apply is_digit_digit_of in H3 as [H3 <-]. apply is_digit_digit_of in H4 as [H4 <-].
    by exists c1, c2, c3, c4.
Qed.

Lemma accepted_date_text_spec (s : string) (d : date) :
  accepted_date_text s d <-> date_text s d.
Proof.
  unfold accepted_date_text, date_text. split;
    intros (dt & b1 & mo & b2 & yt & Hs & Hd & H1 & Hm & H2 & Hy & Hv);
    exists dt, b1, mo, b2, yt; (split; [done|]).
  - by rewrite <- day_text_written, <- !blanks_separator, <- month_text_written,
         <- year_text_written.
  - by rewrite day_text_written, !blanks_separator, month_text_written,
         year_text_written.
Qed.

(** C3, as the code has it. The parser never raises. It returns the date
    of every text in valid "DD Mon YYYY" format, and also of every other
    text made of a day (one digit, a blank and a digit, or two digits),
    white space, the abbreviation of a month in any letter case, white
    space and four digits, that names a day which exists. Among the texts
    of ASCII characters it returns a date on these only; on a value that is
    not a string it returns nothing. *)
Theorem parse_date_spec :
  (forall s d, dd_mon_yyyy s d -> parse_date (JStr s) = Some d)
  /\ (forall s d, date_text s d -> parse_date (JStr s) = Some d)
  /\ (forall s d, ascii_text s -> parse_date (JStr s) = Some d -> date_text s d)
  /\ (forall v, (forall s, v <> JStr s) -> parse_date v = None).
Proof.
  split; [|split; [|split]].
  - intros s d [Hv ->]. apply parse_date_accepted.
    exists (dd_mon_yyyy_text d). split; [done|]. by apply dd_mon_yyyy_accepted.
  - intros s d H. apply parse_date_accepted. exists s. split; [done|].
    by apply accepted_date_text_spec.
  - intros s d _ H. apply parse_date_accepted in H as (s' & [= <-] & H).
    by apply accepted_date_text_spec.
  - intros v Hv. destruct v as [| | |s| |]; try done. by destruct (Hv s).
Qed.

Lemma parse_date_spec_witness :
  parse_date (JStr "15 Mar 2023") = Some (Date 2023 3 15).
Proof.
  apply (proj1 parse_date_spec "15 Mar 2023" (Date 2023 3 15)).
  split; [repeat split; by vm_compute | reflexivity].
Defined.

(** C3 as stated fails: a text with a one-digit day is not in "DD Mon YYYY"
    format, and the parser returns a date for it. *)
Lemma parse_date_single_digit_day :
  (forall d, ~ dd_mon_yyyy "5 Mar 2023" d)
  /\ parse_date (JStr "5 Mar 2023") = Some (Date 2023 3 5).
Proof.
  split; [|by vm_compute].
  intros d [_ H]. unfold dd_mon_yyyy_text in H. cbn [zero_padded] in H.
  injection H as _ H _.
  pose proof (digit_char_spec (day d)) as [Hd _]. rewrite <- H in Hd.
  by vm_compute in Hd.
Qed.

Example parse_date_lower_case : parse_date (JStr "15 mar 2023") = Some (Date 2023 3 15).
Proof. by vm_compute. Qed.
Example parse_date_absent : parse_date JNull = None.
Proof. reflexivity. Qed.
Example parse_date_number : parse_date (JNum 20230315) = None.
Proof. reflexivity. Qed.
Example parse_date_year_0 : parse_date (JStr "01 Jan 0000") = None.
Proof. by vm_compute. Qed.
Example parse_date_not_leap : parse_date (JStr "29 Feb 2023") = None.
Proof. by vm_compute. Qed.
Example parse_date_leap : parse_date (JStr "29 Feb 2024") = Some (Date 2024 2 29).
Proof. by vm_compute. Qed.
Example parse_date_blank_day : parse_date (JStr " 5 Mar 2023") = Some (Date 2023 3 5).
Proof. by vm_compute. Qed.
Example parse_date_two_blanks : parse_date (JStr "  5 Mar 2023") = None.
Proof. by vm_compute. Qed.
Example parse_date_day_0 : parse_date (JStr "00 Jan 2023") = None.
Proof. by vm_compute. Qed.
Example parse_date_day_32 : parse_date (JStr "32 Jan 2023") = None.
Proof. by vm_compute. Qed.
Example parse_date_split_day : parse_date (JStr "1 2 Jan 2023") = None.
Proof. by vm_compute. Qed.
Example parse_date_trailing_blank : parse_date (JStr "15 Mar 2023 ") = None.
Proof. by vm_compute. Qed.
Example parse_date_full_month : parse_date (JStr "15 March 2023") = None.
Proof. by vm_compute. Qed.
Example parse_date_iso : parse_date (JStr "2023-03-15") = None.
Proof. by vm_compute. Qed.
Example parse_date_min : parse_date (JStr "01 Jan 0001") = Some date_min.
Proof. by vm_compute. Qed.

(** ** Sorting and the first greatest element *)

Section FirstGreatest.
Context {A K : Type} (key : A -> K) (ltb : K -> K -> bool).

(** [ltb] is a strict weak order: no two keys are each below the other,
    and "not below" is transitive. *)
Hypothesis ltb_asym : forall a b, ltb a b = true -> ltb b a = false.
Hypothesis ltb_negtrans :
  forall a b c, ltb a b = false -> ltb b c = false -> ltb a c = false.

Lemma ltb_le_lt (a b c : K) : ltb b a = false -> ltb b c = true -> ltb a c = true.
Proof.
  intros Hab Hbc. destruct (ltb a c) eqn:E; [done|].
  rewrite (ltb_negtrans b a c Hab E) in Hbc. done.
Qed.

Lemma insert_desc_perm (x : A) (l : list A) : insert_desc key ltb x l ≡ₚ x :: l.
Proof.
  induction l as [|y l IH]; simpl; [done|].
  destruct (ltb (key x) (key y)); [|done].
  rewrite IH. apply Permutation_swap.
Qed.

(** [sort_desc] rearranges the list... *)
Lemma sort_desc_perm (l : list A) : sort_desc key ltb l ≡ₚ l.
Proof.
  induction l as [|x l IH]; simpl; [done|].
  by rewrite insert_desc_perm, IH.
Qed.

Lemma insert_desc_sorted (x : A) (l : list A) :
  StronglySorted (fun a b => ltb (key a) (key b) = false) l ->
  StronglySorted (fun a b => ltb (key a) (key b) = false) (insert_desc key ltb x l).
Proof.
  induction 1 as [|y l Hs IH Hy]; simpl.
  - repeat constructor.
  - destruct (ltb (key x) (key y)) eqn:E.
    + constructor; [done|].
      rewrite insert_desc_perm. constructor; [by apply ltb_asym | done].
    + constructor; [by constructor|]. constructor; [done|].
      eapply Forall_impl; [exact Hy|]. intros z Hz. simpl in Hz.
      by apply (ltb_negtrans _ (key y)).
Qed.

(** ... so that no element is followed by one with a greater key. *)
Lemma sort_desc_sorted (l : list A) :
  StronglySorted (fun a b => ltb (key a) (key b) = false) (sort_desc key ltb l).
Proof.
  induction l as [|x l IH]; simpl; [constructor | by apply insert_desc_sorted].
Qed.

Lemma sort_desc_nil (l : list A) : sort_desc key ltb l = [] -> l = [].
Proof.
  intros H. apply Permutation_nil_r. rewrite <- H. symmetry. apply sort_desc_perm.
Qed.

Lemma first_greatest_bound (l : list A) (m x : A) :
  first_greatest key ltb l m -> x ∈ l -> ltb (key m) (key x) = false.
Proof.
  intros (l1 & l2 & -> & H1 & H2) Hx.
  apply elem_of_app in Hx as [Hx | Hx].
  - apply ltb_asym. by apply (proj1 (Forall_forall _ _) H1).
  - apply elem_of_cons in Hx as [-> | Hx].
    + destruct (ltb (key m) (key m)) eqn:E; [|done]. by rewrite (ltb_asym _ _ E) in E.
    + by apply (proj1 (Forall_forall _ _) H2).
Qed.

(** The head of the sorted list is the first greatest element: the sort
    is stable. *)
Lemma sort_desc_head (l : list A) (c : A) (t : list A) :
  sort_desc key ltb l = c :: t -> first_greatest key ltb l c.
Proof.
  revert c t. induction l as [|x l IH]; intros c t; simpl; [done|].
  destruct (sort_desc key ltb l) as [|y s] eqn:E; simpl.
  - intros [= <- <-]. apply sort_desc_nil in E as ->.
    exists [], []. by repeat split.
  - specialize (IH y s eq_refl).
    destruct (ltb (key x) (key y)) eqn:Hxy; intros [= <- <-].
    + destruct IH as (l1 & l2 & -> & H1 & H2).
      exists (x :: l1), l2. repeat split; [by constructor | done].
    + exists [], l. repeat split; [constructor|].
      apply Forall_forall. intros z Hz.
      apply (ltb_negtrans _ (key y)); [done|].
      by apply (first_greatest_bound l).
Qed.

(** The first greatest element of two lists put end to end: that of the
    second list if its key is greater, else that of the first. *)
Lemma first_greatest_app (l1 l2 : list A) (b c : A) :
  first_greatest key ltb l1 b -> first_greatest key ltb l2 c ->
  first_greatest key ltb (l1 ++ l2) (if ltb (key b) (key c) then c else b).
Proof.
  intros Hb Hc. destruct (ltb (key b) (key c)) eqn:E.
  - destruct Hc as (p & q & -> & Hp & Hq).
    exists (l1 ++ p)%list, q. split; [by rewrite <- app_assoc|]. split; [|done].
    apply Forall_app. split; [|done].
    apply Forall_forall. intros z Hz. apply (ltb_le_lt _ (key b)); [|done].
    by apply (first_greatest_bound l1).
  - pose proof (fun z => first_greatest_bound _ _ z Hc) as Hle.
    destruct Hb as (p & q & -> & Hp & Hq).
    exists p, (q ++ l2)%list. split; [by rewrite <- app_assoc|]. split; [done|].
    apply Forall_app. split; [done|].
    apply Forall_forall. intros z Hz. apply (ltb_negtrans _ (key c)); [done|].
    by apply Hle.
Qed.
End FirstGreatest.

(** ** The order of dates *)

Lemma date_ltb_spec (a b : date) :
  date_ltb a b = true <->
  year a < year b
  \/ (year a = year b
      /\ (month a < month b \/ (month a = month b /\ day a < day b))).
Proof.
  unfold date_ltb.
  rewrite !orb_true_iff, !andb_true_iff, !orb_true_iff, !andb_true_iff,
    !Z.ltb_lt, !Z.eqb_eq. tauto.
Qed.

Lemma date_ltb_asym (a b : date) : date_ltb a b = true -> date_ltb b a = false.
Proof.
  intros H%date_ltb_spec. apply not_true_is_false. intros H'%date_ltb_spec. lia.
Qed.

Lemma date_ltb_negtrans (a b c : date) :
  date_ltb a b = false -> date_ltb b c = false -> date_ltb a c = false.
Proof.
  intros H1%not_true_iff_false H2%not_true_iff_false.
  apply not_true_is_false. intros H3%date_ltb_spec.
  rewrite date_ltb_spec in H1, H2. lia.
Qed.

(** No date that exists is older than [datetime.min.date()]. *)
Lemma date_min_oldest (d : date) : valid_date d -> date_ltb d date_min = false.
Proof.
  intros (Hy & Hm & Hd). apply not_true_is_false. intros H%date_ltb_spec.
  simpl in H. lia.
Qed.

(** ** The latest selector *)

Lemma selected_keep_best (best : option Row) (seen rows t : list Row) (c : Row) :
  selected best seen ->
  sort_desc sort_key date_ltb rows = c :: t ->
  selected (keep_best best c) (seen ++ rows).
Proof.
  intros Hbest Hsort.
  apply (sort_desc_head _ _ date_ltb_asym date_ltb_negtrans) in Hsort.
  destruct best as [b|]; simpl in *.
  - pose proof (first_greatest_app _ _ date_ltb_asym date_ltb_negtrans
                  _ _ _ _ Hbest Hsort) as H.
    by destruct (date_ltb (sort_key b) (sort_key c)).
  - by subst seen.
Qed.

Lemma find_latest_loop_selects (net : network) (productcode country : string)
    (oscodes : list string) :
  forall (best : option Row) (st : state) (seen : list Row) (rowss : list (list Row)),
    queried_rows net productcode country oscodes st = Ok rowss ->
    selected best seen ->
    exists best' st',
      find_latest_loop net productcode country oscodes best st = (Ok best', st')
      /\ selected best' (seen ++ List.concat rowss).
Proof.
  induction oscodes as [|oscode later IH]; intros best st seen rowss Hq Hbest;
    cbn [queried_rows find_latest_loop] in *.
  - injection Hq as <-. simpl. rewrite app_nil_r. eauto.
  - destruct (call_dell_api net productcode oscode country 3 2 st) as [[data|e] st1];
      [|discriminate].
    destruct (cpld_rows_of data) as [rows|e]; [|discriminate]. cbn [rbind] in Hq.
    destruct (queried_rows net productcode country later st1) as [rest|e] eqn:Hrest;
      [|discriminate].
    injection Hq as <-. cbn [List.concat]. rewrite app_assoc.
    destruct (sort_desc sort_key date_ltb rows) as [|c t] eqn:Hsort.
    + apply sort_desc_nil in Hsort as ->. rewrite app_nil_r. by apply IH.
    + apply IH; [done|]. by eapply selected_keep_best.
Qed.

Lemma selected_latest_of (best : option Row) (rows : list Row) :
  selected best rows -> latest_of rows best.
Proof.
  destruct best as [b|]; [|done]. intros (l1 & l2 & -> & H1 & H2).
  exists l1, l2. split; [done|]. rewrite Forall_forall in H1, H2. split.
  - intros r Hr. apply date_ltb_spec. exact (H1 r Hr).
  - intros r Hr Hlt. apply date_ltb_spec in Hlt.
    specialize (H2 r Hr). unfold sort_key, date_min in H2. unfold rank in Hlt. congruence.
Qed.

(** In terms of the dates themselves: whenever a row has a date later than
    0001-01-01, the row returned has a date, and none of the rows has a
    later one. *)
Lemma selected_real_date (best : option Row) (rows : list Row) (r : Row) (d : date) :
  selected best rows -> r ∈ rows -> ReleaseDate r = Some d ->
  date_ltb date_min d = true ->
  exists b d', best = Some b /\ ReleaseDate b = Some d' /\ date_ltb d' d = false.
Proof.
  intros Hsel Hr Hd Hlt. destruct best as [b|]; simpl in Hsel.
  - pose proof (first_greatest_bound _ _ date_ltb_asym _ _ _ Hsel Hr) as Hb.
    unfold sort_key in Hb. rewrite Hd in Hb.
    destruct (ReleaseDate b) as [d'|] eqn:E; [|congruence].
    by exists b, d'.
  - subst rows. by apply elem_of_nil in Hr.
Qed.

(** C1. When the OS codes are queried in order and every answer can be
    normalized and filtered, the selector returns; it returns nothing when
    no OS code yields a CPLD row, and otherwise the most recent of all the
    CPLD rows, taken OS code by OS code in the order of the list: the
    parsed release date of every row obtained before it, from an earlier OS
    code or earlier in the same answer, is an earlier day, and no row
    obtained after it has a later day, so that of two rows of the same day
    the one of the earlier OS code is kept. A row without a parsed date
    counts as dated 0001-01-01; as soon as one row has a later date than
    that, the row returned has a date, and no row has a later one. *)
Theorem find_latest_cpld_selects (net : network) (productcode : string)
    (oscodes : option (list string)) (country : string) (st : state)
    (rowss : list (list Row)) :
  queried_rows net productcode country (effective_oscodes oscodes) st = Ok rowss ->
  exists best st',
    find_latest_cpld net productcode oscodes country st = (Ok best, st')
    /\ latest_of (List.concat rowss) best
    /\ (forall r d,
          r ∈ List.concat rowss -> ReleaseDate r = Some d -> earlier (Date 1 1 1) d ->
          exists b d', best = Some b /\ ReleaseDate b = Some d' /\ ~ earlier d' d).
Proof.
  intros Hq. unfold find_latest_cpld.
  destruct (find_latest_loop_selects _ _ _ _ None st [] rowss Hq)
    as (best & st' & H & Hsel); [done|].
  exists best, st'. split; [done|]. split; [by apply selected_latest_of|].
  intros r d Hr Hd Hlt. apply date_ltb_spec in Hlt.
  destruct (selected_real_date best _ r d Hsel Hr Hd Hlt) as (b & d' & -> & Hb & Hnot).
  exists b, d'. split; [done|]. split; [done|].
  intros H'%date_ltb_spec. congruence.
Qed.

Lemma find_latest_cpld_selects_witness :
  exists st',
    find_latest_cpld two_os_net "R750" (Some ["A"; "B"; "C"]) COUNTRY start
    = (Ok (Some (row_of "System CPLD" "1.2" "01 Jun 2024" (Some (Date 2024 6 1)))), st')
    /\ latest_of
         [ row_of "System CPLD" "1.0" "01 Jan 2023" (Some (Date 2023 1 1));
           row_of "System CPLD" "1.2" "01 Jun 2024" (Some (Date 2024 6 1));
           row_of "CPLD for C" "1.2c" "01 Jun 2024" (Some (Date 2024 6 1)) ]
         (Some (row_of "System CPLD" "1.2" "01 Jun 2024" (Some (Date 2024 6 1)))).
Proof.
  destruct (find_latest_cpld_selects two_os_net "R750" (Some ["A"; "B"; "C"]) COUNTRY start
              [ [row_of "System CPLD" "1.0" "01 Jan 2023" (Some (Date 2023 1 1))];
                [row_of "System CPLD" "1.2" "01 Jun 2024" (Some (Date 2024 6 1))];
                [row_of "CPLD for C" "1.2c" "01 Jun 2024" (Some (Date 2024 6 1))] ])
    as (best & st' & H & Hsel & _).
  { vm_compute. reflexivity. }
  assert (Hbest : best = Some (row_of "System CPLD" "1.2" "01 Jun 2024" (Some (Date 2024 6 1)))).
  { apply (f_equal fst) in H. vm_compute in H. by injection H as <-. }
  rewrite Hbest in *. exists st'. split; [exact H | exact Hsel].
Defined.

(** The scenario of the specification: the later date wins, and of two
    equal dates the row of the earlier OS code is kept. *)
Example find_latest_cpld_two_os :
  (find_latest_cpld two_os_net "R750" (Some ["A"; "B"; "C"]) COUNTRY start).1
  = Ok (Some (row_of "System CPLD" "1.2" "01 Jun 2024" (Some (Date 2024 6 1)))).
Proof. vm_compute. reflexivity. Qed.

Example find_latest_cpld_tie_reversed :
  (find_latest_cpld two_os_net "R750" (Some ["C"; "B"; "A"]) COUNTRY start).1
  = Ok (Some (row_of "CPLD for C" "1.2c" "01 Jun 2024" (Some (Date 2024 6 1)))).
Proof. vm_compute. reflexivity. Qed.

(** With no OS code given the five default codes are queried; here none of
    them yields a row. *)
Example find_latest_cpld_default_codes :
  (find_latest_cpld two_os_net "R750" (Some []) COUNTRY start).1 = Ok None
  /\ sent (find_latest_cpld two_os_net "R750" (Some []) COUNTRY start).2 = 15%nat.
Proof. vm_compute. split; reflexivity. Qed.

(** ** Rows without a date *)

(** C6, as the code has it. A row without a parsed release date is ranked
    as the date 0001-01-01, which no date precedes. So, once the rows of
    one OS code are sorted, no row dated later than 0001-01-01 comes after
    a row without a date, and the candidate, the first row, has a date as
    soon as one row is dated later than 0001-01-01. *)
Theorem undated_rows_rank_oldest (rows l1 l2 : list Row) (u : Row) :
  sort_desc sort_key date_ltb rows = (l1 ++ u :: l2)%list ->
  ReleaseDate u = None ->
  sort_key u = date_min
  /\ (forall d, valid_date d -> date_ltb d (sort_key u) = false)
  /\ (forall r d, r ∈ l2 -> ReleaseDate r = Some d -> date_ltb date_min d = false)
  /\ (forall r d, r ∈ rows -> ReleaseDate r = Some d -> date_ltb date_min d = true ->
        exists c d', head (sort_desc sort_key date_ltb rows) = Some c
                     /\ ReleaseDate c = Some d' /\ date_ltb d' d = false).
Proof.
  intros Hsort Hu.
  assert (Hk : sort_key u = date_min) by (unfold sort_key; by rewrite Hu).
  split; [done|]. split; [|split].
  - intros d Hd. rewrite Hk. by apply date_min_oldest.
  - intros r d Hr Hd.
    pose proof (sort_desc_sorted sort_key date_ltb date_ltb_asym date_ltb_negtrans rows)
      as Hs.
    rewrite Hsort in Hs. apply StronglySorted_app_1_r in Hs.
    apply StronglySorted_inv in Hs as [_ Hall].
    rewrite Forall_forall in Hall. specialize (Hall r Hr).
    rewrite Hk in Hall. unfold sort_key in Hall. by rewrite Hd in Hall.
  - intros r d Hr Hd Hlt.
    destruct (sort_desc sort_key date_ltb rows) as [|c t] eqn:E.
    { by destruct l1. }
    apply (sort_desc_head _ _ date_ltb_asym date_ltb_negtrans) in E.
    pose proof (first_greatest_bound _ _ date_ltb_asym _ _ _ E Hr)
      as Hb.
    unfold sort_key in Hb. rewrite Hd in Hb.
    destruct (ReleaseDate c) as [d'|] eqn:Hc.
    + exists c, d'. by repeat split.
    + congruence.
Qed.

Lemma undated_rows_rank_oldest_witness :
  sort_key undated_row = date_min
  /\ (forall d, valid_date d -> date_ltb d (sort_key undated_row) = false)
  /\ (forall r d, r ∈ [] -> ReleaseDate r = Some d -> date_ltb date_min d = false)
  /\ (forall r d,
        r ∈ [undated_row; row_of "System CPLD" "1.0" "01 Jan 2023" (Some (Date 2023 1 1))] ->
        ReleaseDate r = Some d -> date_ltb date_min d = true ->
        exists c d',
          head (sort_desc sort_key date_ltb
                  [undated_row; row_of "System CPLD" "1.0" "01 Jan 2023" (Some (Date 2023 1 1))])
          = Some c
          /\ ReleaseDate c = Some d' /\ date_ltb d' d = false).
Proof.
  apply (undated_rows_rank_oldest
           [undated_row; row_of "System CPLD" "1.0" "01 Jan 2023" (Some (Date 2023 1 1))]
           [row_of "System CPLD" "1.0" "01 Jan 2023" (Some (Date 2023 1 1))] []
           undated_row).
  - vm_compute. reflexivity.
  - reflexivity.
Defined.

(** C6 as stated fails: "01 Jan 0001" parses to the oldest date, so a row
    dated that day does not outrank a row without a date that came before
    it; the row without a date stays first and is the candidate. *)
Lemma dated_row_ranks_after_undated :
  cpld_rows_of min_date_response = Ok [undated_row; year_one_row]
  /\ sort_desc sort_key date_ltb [undated_row; year_one_row] = [undated_row; year_one_row]
  /\ ReleaseDate undated_row = None
  /\ ReleaseDate year_one_row = Some (Date 1 1 1).
Proof. vm_compute. repeat split; reflexivity. Qed.

(** ** The API client *)

Lemma warnings_emit (e : event) (st : state) :
  warnings (emit e st)
  = (warnings st ++ match e with EWarn m => [m] | _ => [] end)%list.
Proof.
  unfold warnings, emit. simpl. rewrite omap_app. by destruct e.
Qed.

Lemma requests_emit (e : event) (st : state) :
  requests (emit e st)
  = (requests st ++ match e with ERequest rq => [rq] | _ => [] end)%list.
Proof.
  unfold requests, emit. simpl. rewrite omap_app. by destruct e.
Qed.

(** A request is sent: the counter, the warnings and the log after it. *)
Lemma http_get_state (net : network) (rq : request) (st : state) :
  (http_get net rq st).2 = emit (ERequest rq) (State (S (sent st)) (trace st)).
Proof. done. Qed.

Lemma py_sleep_ok (secs : Z) (st : state) :
  sleep_fits secs -> py_sleep secs st = (Ok tt, emit (ESleep secs) st).
Proof.
  intros [H0 H1]. unfold py_sleep.
  replace (secs <? - sleep_max) with false
    by (symmetry; apply Z.ltb_ge; unfold sleep_max in *; lia).
  replace (sleep_max <? secs) with false by (symmetry; apply Z.ltb_ge; lia).
  by rewrite (proj2 (Z.ltb_ge secs 0) H0).
Qed.

(** The sleeps of the attempts 1 to [n] are accepted when the longest is. *)
Lemma sleeps_fit_upto (backoff : Z) (n : nat) :
  0 <= backoff -> backoff * Z.of_nat n <= sleep_max ->
  Forall (fun attempt => sleep_fits (backoff * Z.of_nat attempt)) (seq 1 n).
Proof.
  intros Hb Hn. apply Forall_forall. intros a [Ha1 Ha2]%elem_of_seq.
  unfold sleep_fits. split; [apply Z.mul_nonneg_nonneg; lia|].
  etransitivity; [|exact Hn]. apply Z.mul_le_mono_nonneg_l; lia.
Qed.

(** One attempt that does not get a JSON 200 answer: either the request
    raised, or the attempt printed, slept and went on. *)
Lemma try_body_failed (net : network) (rq : request) (backoff : Z) (attempt : nat)
    (st : state) :
  sleep_fits (backoff * Z.of_nat attempt) ->
  ~ json_200 (net (sent st) rq) ->
  exists st1,
    try_body net rq backoff attempt st
    = (match net (sent st) rq with Failed e => Caught e | Answered _ => Completed end, st1)
    /\ sent st1 = S (sent st) /\ warnings st1 = warnings st.
Proof.
  intros Hb Hno. unfold try_body, http_get.
  destruct (net (sent st) rq) as [r|e].
  2:{ eexists. split; [reflexivity|]. split; [done|].
      unfold warnings. simpl. by rewrite omap_app, app_nil_r. }
  destruct (_ && _) eqn:E.
  { exfalso. apply Hno. apply andb_true_iff in E as [E1 E2].
    exists r. by rewrite <- Z.eqb_eq. }
  rewrite py_sleep_ok by done.
  eexists. split; [reflexivity|]. split.
  - destruct (Z.eqb (status_code r) 204); reflexivity.
  - rewrite warnings_emit, app_nil_r. destruct (Z.eqb (status_code r) 204);
      rewrite !warnings_emit, !app_nil_r; unfold warnings; simpl;
      by rewrite omap_app, app_nil_r.
Qed.

Lemma attempt_loop_exhausted (net : network) (rq : request) (backoff : Z)
    (attempts : list nat) :
  Forall (fun attempt => sleep_fits (backoff * Z.of_nat attempt)) attempts ->
  forall (last_exc : option exn) (st : state),
    (forall i, (i < List.length attempts)%nat -> ~ json_200 (net (sent st + i)%nat rq)) ->
    exists st',
      attempt_loop net rq backoff attempts last_exc st
      = (LExhausted (last_failure net rq (sent st) (List.length attempts) last_exc), st')
      /\ sent st' = (sent st + List.length attempts)%nat
      /\ warnings st' = warnings st.
Proof.
  induction 1 as [|attempt later Hb _ IH]; intros last_exc st Hno.
  - simpl. exists st. split; [done|]. split; [lia | done].
  - cbn [attempt_loop List.length last_failure].
    assert (H0 : ~ json_200 (net (sent st) rq)).
    { specialize (Hno 0%nat). rewrite Nat.add_0_r in Hno. apply Hno. simpl. lia. }
    destruct (try_body_failed net rq backoff attempt st Hb H0) as (st1 & -> & Hs1 & Hw1).
    assert (Hlater : forall st2, sent st2 = S (sent st) ->
              forall i, (i < List.length later)%nat -> ~ json_200 (net (sent st2 + i)%nat rq)).
    { intros st2 E i Hi. rewrite E.
      replace (S (sent st) + i)%nat with (sent st + S i)%nat by lia.
      apply Hno. simpl. lia. }
    destruct (net (sent st) rq) as [r|e].
    + destruct (IH last_exc st1 (Hlater st1 Hs1)) as (st' & -> & Hs & Hw).
      exists st'. rewrite Hs1 in *. split; [done|]. split; [simpl; lia | congruence].
    + rewrite py_sleep_ok by done.
      set (st2 := emit (ESleep _) _).
      assert (Hs2 : sent st2 = sent st1) by done.
      assert (Hw2 : warnings st2 = warnings st1).
      { unfold st2. by rewrite !warnings_emit, !app_nil_r. }
      destruct (IH (Some e) st2) as (st' & -> & Hs & Hw).
      { apply Hlater. congruence. }
      exists st'. rewrite Hs2, Hs1 in *. split; [done|]. split; [simpl; lia|].
      congruence.
Qed.

(** When every sleep is accepted no exception leaves the loop. *)
Lemma attempt_loop_no_raise (net : network) (rq : request) (backoff : Z)
    (attempts : list nat) :
  Forall (fun attempt => sleep_fits (backoff * Z.of_nat attempt)) attempts ->
  forall (last_exc : option exn) (st : state) (e : exn) (st' : state),
    attempt_loop net rq backoff attempts last_exc st <> (LRaise e, st').
Proof.
  induction 1 as [|attempt later Hb _ IH]; intros last_exc st e st';
    cbn [attempt_loop]; [done|].
  destruct (try_body net rq backoff attempt st) as [[v| |e1] st1]; [done|apply IH|].
  rewrite py_sleep_ok by done. apply IH.
Qed.

(** When every sleep is accepted the client never raises. *)
Lemma call_dell_api_never_raises (net : network) (productcode oscode country : string)
    (retries : nat) (backoff : Z) (st : state) :
  0 <= backoff -> backoff * Z.of_nat retries <= sleep_max ->
  exists v st', call_dell_api net productcode oscode country retries backoff st = (Ok v, st').
Proof.
  intros Hb Hmax. unfold call_dell_api.
  destruct (attempt_loop _ _ _ _ _ _) as [[v|[e|]|e] st1] eqn:E; eauto.
  apply attempt_loop_no_raise in E; [done | by apply sleeps_fit_upto].
Qed.

Lemma append_assoc (a b c : string) : (a +:+ b) +:+ c = a +:+ b +:+ c.
Proof.
  induction a as [|x a IH]; [done|].
  change (String x ((a +:+ b) +:+ c) = String x (a +:+ b +:+ c)). by rewrite IH.
Qed.

(** The warning names the product code and the OS code. *)
Lemma warning_text_names (productcode oscode : string) (e : exn) :
  substring_of productcode (warning_text productcode oscode e)
  /\ substring_of oscode (warning_text productcode oscode e).
Proof.
  unfold warning_text, substring_of. split.
  - by eexists "call_dell_api(", _.
  - exists ("call_dell_api(" +:+ productcode +:+ ", "), (") failed: " +:+ exn_msg e).
    by rewrite !append_assoc.
Qed.

(** C5, as the code has it. When none of the attempts gets an HTTP 200
    answer with a JSON content type, and the backoff is such that
    [time.sleep] accepts every wait (not negative, and [retries * backoff]
    at most 9223372036 seconds), the client does not raise: it returns
    [None] after as many requests as there are attempts. It warns, once and
    with the product code, the OS code and the last exception, when at
    least one attempt raised an exception; when every attempt was answered,
    with whatever status, it emits no warning. *)
Theorem call_dell_api_exhausted (net : network) (productcode oscode country : string)
    (retries : nat) (backoff : Z) (st : state) :
  0 <= backoff ->
  backoff * Z.of_nat retries <= sleep_max ->
  (forall i, (i < retries)%nat ->
     ~ json_200 (net (sent st + i)%nat (build_request productcode oscode country))) ->
  exists st',
    call_dell_api net productcode oscode country retries backoff st = (Ok JNull, st')
    /\ sent st' = (sent st + retries)%nat
    /\ warnings st'
       = (warnings st ++
          match last_failure net (build_request productcode oscode country)
                             (sent st) retries None with
          | Some e => [warning_text productcode oscode e]
          | None => []
          end)%list.
Proof.
  intros Hb Hmax Hno. unfold call_dell_api.
  destruct (attempt_loop_exhausted net (build_request productcode oscode country)
              backoff (seq 1 retries) (sleeps_fit_upto backoff retries Hb Hmax) None st)
    as (st1 & -> & Hs & Hw).
  { by rewrite length_seq. }
  rewrite length_seq in *.
  destruct (last_failure _ _ _ _ _) as [e|].
  - eexists. split; [reflexivity|]. split; [done|].
    by rewrite warnings_emit, Hw.
  - exists st1. by rewrite app_nil_r.
Qed.

Lemma call_dell_api_exhausted_witness :
  exists st',
    call_dell_api down_net "R750" "NAA" COUNTRY 3 2 start = (Ok JNull, st')
    /\ sent st' = (sent start + 3)%nat
    /\ warnings st'
       = (warnings start ++
          match last_failure down_net (build_request "R750" "NAA" COUNTRY)
                             (sent start) 3 None with
          | Some e => [warning_text "R750" "NAA" e]
          | None => []
          end)%list.
Proof.
  apply (call_dell_api_exhausted down_net "R750" "NAA" COUNTRY 3 2 start).
  - lia.
  - by vm_compute.
  - intros i _ (r & H & _). discriminate H.
Defined.

(** C5 as stated fails: three answers 204 exhaust the attempts, the client
    returns [None], and no warning is emitted. *)
Lemma no_warning_without_exception :
  ~ json_200 no_content
  /\ (call_dell_api (fun _ _ => no_content) "R750" "NAA" COUNTRY 3 2 start).1 = Ok JNull
  /\ sent (call_dell_api (fun _ _ => no_content) "R750" "NAA" COUNTRY 3 2 start).2 = 3%nat
  /\ warnings (call_dell_api (fun _ _ => no_content) "R750" "NAA" COUNTRY 3 2 start).2 = [].
Proof.
  split.
  - intros (r & [= <-] & H & _). discriminate H.
  - vm_compute. repeat split; reflexivity.
Qed.

Example call_dell_api_down :
  warnings (call_dell_api down_net "R750" "NAA" COUNTRY 3 2 start).2
  = ["call_dell_api(R750, NAA) failed: Connection refused"].
Proof. vm_compute. reflexivity. Qed.

(** The retry scenario of the specification: the client sleeps 2 and 4
    seconds and returns the document. *)
Example call_dell_api_third_time :
  (call_dell_api third_time_net "R750" "NAA" COUNTRY 3 2 start).1 = Ok (driver_list [])
  /\ omap (fun e => match e with ESleep s => Some s | _ => None end)
          (trace (call_dell_api third_time_net "R750" "NAA" COUNTRY 3 2 start).2)
     = [2; 4].
Proof. vm_compute. split; reflexivity. Qed.

(** A wait that does not fit: with a backoff of 10^10 seconds the handler's
    [time.sleep] raises [OverflowError] after the first request. *)
Example call_dell_api_overflow :
  (call_dell_api down_net "R750" "NAA" COUNTRY 3 10000000000 start).1
  = Raise (Exn OverflowError "timestamp too large to convert to C _PyTime_t")
  /\ sent (call_dell_api down_net "R750" "NAA" COUNTRY 3 10000000000 start).2 = 1%nat.
Proof. vm_compute. split; reflexivity. Qed.

(** ** The snapshot record *)

Lemma rmapM_Forall {A B} (f : A -> res B) (P : B -> Prop) (xs : list A) (ys : list B) :
  (forall x y, f x = Ok y -> P y) -> rmapM f xs = Ok ys -> Forall P ys.
Proof.
  intros Hf. revert ys. induction xs as [|x xs IH]; intros ys; simpl.
  - intros [= <-]. constructor.
  - destruct (f x) as [y|e] eqn:Hy; [|done]. simpl.
    destruct (rmapM f xs) as [ys'|e]; [|done]. simpl.
    intros [= <-]. constructor; eauto.
Qed.

Lemma rfilterM_Forall {A} (p : A -> res bool) (P : A -> Prop) (xs ys : list A) :
  Forall P xs -> rfilterM p xs = Ok ys -> Forall P ys.
Proof.
  intros Hxs. revert ys. induction Hxs as [|x xs Hx _ IH]; intros ys; simpl.
  - intros [= <-]. constructor.
  - destruct (p x) as [b|e]; [|done]. simpl.
    destruct (rfilterM p xs) as [ys'|e]; [|done]. simpl.
    intros [= <-]. destruct b; [constructor; eauto | eauto].
Qed.

Lemma normalize_row_date (d : json) (r : Row) :
  normalize_row d = Ok r -> date_as_parsed r.
Proof.
  intros H. destruct d as [| | | | |m]; try discriminate H.
  apply normalize_row_mapping in H as (H1 & H2 & _).
  unfold date_as_parsed. by rewrite H1, H2.
Qed.

Lemma cpld_rows_of_Forall (P : Row -> Prop) (data : json) (rows : list Row) :
  (forall d r, normalize_row d = Ok r -> P r) ->
  cpld_rows_of data = Ok rows -> Forall P rows.
Proof.
  intros HP. unfold cpld_rows_of.
  destruct (parse_rows data) as [rows0|e] eqn:Hp; [|done]. simpl.
  apply rfilterM_Forall. revert Hp. unfold parse_rows.
  destruct (negb (truthy data)); [intros [= <-]; constructor|].
  destruct (py_in "DriverListData" data) as [b|e]; [|done]. simpl.
  destruct (negb b); [intros [= <-]; constructor|].
  destruct (py_getitem data "DriverListData") as [entries|e]; [|done]. simpl.
  destruct (py_iter entries) as [ds|e]; [|done]. simpl.
  by apply rmapM_Forall.
Qed.

Lemma find_latest_loop_inv (P : Row -> Prop) (net : network)
    (productcode country : string) (oscodes : list string) :
  (forall d r, normalize_row d = Ok r -> P r) ->
  forall (best best' : option Row) (st st' : state),
    (forall b, best = Some b -> P b) ->
    find_latest_loop net productcode country oscodes best st = (Ok best', st') ->
    forall b, best' = Some b -> P b.
Proof.
  intros HP. induction oscodes as [|oscode later IH]; intros best best' st st' Hbest;
    cbn [find_latest_loop].
  - by intros [= <- <-].
  - destruct (call_dell_api _ _ _ _ _ _ _) as [[data|e] st1]; [|done].
    destruct (cpld_rows_of data) as [rows|e] eqn:Hrows; [|done].
    apply (cpld_rows_of_Forall P) in Hrows; [|done].
    destruct (sort_desc sort_key date_ltb rows) as [|c t] eqn:Hsort.
    + by apply IH.
    + apply IH. intros b Hb.
      assert (Hc : P c).
      { rewrite Forall_forall in Hrows. apply Hrows.
        assert (Hin : c ∈ sort_desc sort_key date_ltb rows) by (rewrite Hsort; left).
        by rewrite sort_desc_perm in Hin. }
      unfold keep_best in Hb. destruct best as [b0|]; [|by injection Hb as <-].
      destruct (date_ltb _ _); [by injection Hb as <-|]. by apply Hbest.
Qed.

Lemma dict_get_set {V} (k k0 : string) (v : V) (d : list (string * V)) :
  dict_get k (dict_set k0 v d) = if String.eqb k0 k then Some v else dict_get k d.
Proof.
  induction d as [|[k' v'] d IH]; simpl; [done|].
  destruct (String.eqb k' k0) eqn:E; simpl.
  - apply String.eqb_eq in E as ->. by destruct (String.eqb k0 k).
  - rewrite IH. destruct (String.eqb k' k) eqn:E'; [|done].
    apply String.eqb_eq in E' as ->. by rewrite String.eqb_sym, E.
Qed.

Lemma main_loop_inv (Q : ResultRecord -> Prop) (net : network) (servers : list ServerEntry) :
  (forall latest, date_as_parsed latest -> Q (result_record latest)) ->
  forall (data data' : list (string * option ResultRecord)) (st st' : state),
    (forall pc rec, dict_get pc data = Some (Some rec) -> Q rec) ->
    main_loop net servers data st = (Ok data', st') ->
    forall pc rec, dict_get pc data' = Some (Some rec) -> Q rec.
Proof.
  intros HQ. induction servers as [|s later IH]; intros data data' st st' Hdata;
    cbn [main_loop].
  - by intros [= <- <-].
  - destruct (find_latest_cpld _ _ _ _ _) as [[latest|e] st1] eqn:Hfind; [|done].
    apply IH. intros pc rec. rewrite dict_get_set.
    destruct (String.eqb (productcode s) pc); [|by apply Hdata].
    destruct latest as [r|]; [|done]. intros [= <-]. apply HQ.
    unfold find_latest_cpld in Hfind.
    eapply (find_latest_loop_inv date_as_parsed); [exact normalize_row_date| |exact Hfind|done].
    done.
Qed.

Lemma parse_date_valid (v : json) (d : date) : parse_date v = Some d -> valid_date d.
Proof.
  intros H. apply parse_date_accepted in H as (s & _ & H).
  by destruct H as (? & ? & ? & ? & ? & _ & _ & _ & _ & _ & _ & ?).
Qed.

(** [isoformat] writes the year on four digits, the month and the day on
    two, with hyphens between them. *)
Lemma isoformat_iso_text (d : date) : valid_date d -> iso_text (isoformat d) d.
Proof.
  intros (Hy & Hm & Hd). pose proof (days_in_month_le (year d) (month d)) as Hdim.
  pose proof (digit_char_spec (day d / 10)) as [Hd1 Hv1].
  pose proof (digit_char_spec (day d)) as [Hd2 Hv2].
  pose proof (digit_char_spec (month d / 10)) as [Hm1 Hu1].
  pose proof (digit_char_spec (month d)) as [Hm2 Hu2].
  pose proof (digit_char_spec (year d / 10 / 10 / 10)) as [Hy1 Hw1].
  pose proof (digit_char_spec (year d / 10 / 10)) as [Hy2 Hw2].
  pose proof (digit_char_spec (year d / 10)) as [Hy3 Hw3].
  pose proof (digit_char_spec (year d)) as [Hy4 Hw4].
  exists [digit_char (year d / 10 / 10 / 10); digit_char (year d / 10 / 10);
          digit_char (year d / 10); digit_char (year d)],
         [digit_char (month d / 10); digit_char (month d)],
         [digit_char (day d / 10); digit_char (day d)].
  split; [reflexivity|]. split; [|split].
  - do 4 eexists. split; [reflexivity|]. repeat (split; [done|]).
    rewrite Hw1, Hw2, Hw3, Hw4. Z.div_mod_to_equations. lia.
  - do 2 eexists. split; [reflexivity|]. repeat (split; [done|]).
    rewrite Hu1, Hu2. Z.div_mod_to_equations. lia.
  - do 2 eexists. split; [reflexivity|]. repeat (split; [done|]).
    rewrite Hv1, Hv2. Z.div_mod_to_equations. lia.
Qed.

Lemma iso_text_iso_date (s : string) (d : date) : iso_text s d -> iso_date s d.
Proof.
  intros (yt & mt & dt & Hs & Hy & (m1 & m2 & -> & Hm1 & Hm2 & Hm)
          & (d1 & d2 & -> & Hd1 & Hd2 & Hd)).
  exists yt, [m1; m2], [d1; d2]. split; [done|]. split; [by apply year_text_written|].
  split.
  - exists m1, m2, (digit_val m1), (digit_val m2).
    split; [done|]. split; [by apply is_digit_digit_of|].
    split; [by apply is_digit_digit_of | done].
  - exists d1, d2, (digit_val d1), (digit_val d2).
    split; [done|]. split; [by apply is_digit_digit_of|].
    split; [by apply is_digit_digit_of | done].
Qed.

(** The loop over a configuration in two parts. *)
Lemma main_loop_app (net : network) (before later : list ServerEntry) :
  forall (data : list (string * option ResultRecord)) (st : state),
    main_loop net (before ++ later) data st
    = match main_loop net before data st with
      | (Ok data1, st1) => main_loop net later data1 st1
      | (Raise e, st1) => (Raise e, st1)
      end.
Proof.
  induction before as [|s before IH]; intros data st; [done|].
  cbn [main_loop app]. destruct (find_latest_cpld _ _ _ _ _) as [[latest|e] st1]; [|done].
  apply IH.
Qed.

(** Servers of other product codes leave the entry of a product code alone. *)
Lemma main_loop_keeps (net : network) (pc : string) (later : list ServerEntry) :
  (forall s, s ∈ later -> productcode s <> pc) ->
  forall (data data' : list (string * option ResultRecord)) (st st' : state),
    main_loop net later data st = (Ok data', st') ->
    dict_get pc data' = dict_get pc data.
Proof.
  induction later as [|s later IH]; intros Hpc data data' st st'; cbn [main_loop].
  - by intros [= <- _].
  - destruct (find_latest_cpld _ _ _ _ _) as [[latest|e] st1]; [|done].
    intros H. apply IH in H; [|intros s' Hs'; apply Hpc; by right].
    rewrite H, dict_get_set.
    destruct (String.eqb (productcode s) pc) eqn:E; [|done].
    apply String.eqb_eq in E. destruct (Hpc s); [left | done].
Qed.

(** C4. When the selector returns a row for a product code, the record
    that [main] stores for it is made of that row: name, version, driver
    id, download URL and category are those of the row, and the release
    date is written to the snapshot as a string, the ISO text "YYYY-MM-DD"
    of the date that the raw value of the row parses to, and the empty
    string when the raw value does not parse. The row is the one the
    selector returned for the last server configured with the product
    code, called in the state the servers before it left. *)
Theorem snapshot_release_date (net : network) (before after : list ServerEntry)
    (s : ServerEntry) (st st1 st2 st' : state)
    (data1 data : list (string * option ResultRecord)) (latest : Row) :
  main_loop net before [] st = (Ok data1, st1) ->
  find_latest_cpld net (productcode s) (oscodes s) COUNTRY st1 = (Ok (Some latest), st2) ->
  (forall s', s' ∈ after -> productcode s' <> productcode s) ->
  main_loop net (before ++ s :: after) [] st = (Ok data, st') ->
  exists rec t,
    dict_get (productcode s) data = Some (Some rec)
    /\ dumps_record rec
       = [ ("name", Name latest); ("version", Version latest);
           ("release_date", JStr t); ("driver_id", DriverId latest);
           ("download_url", DownloadUrl latest); ("category", Category latest) ]
    /\ match parse_date (ReleaseDateRaw latest) with
       | Some d => iso_date t d
       | None => t = ""
       end.
Proof.
  intros Hbefore Hfind Hafter Hmain.
  rewrite main_loop_app, Hbefore in Hmain. cbn [main_loop] in Hmain.
  rewrite Hfind in Hmain.
  apply (main_loop_keeps net (productcode s) after Hafter) in Hmain.
  rewrite dict_get_set, String.eqb_refl in Hmain.
  assert (Hparsed : date_as_parsed latest).
  { unfold find_latest_cpld in Hfind.
    eapply (find_latest_loop_inv date_as_parsed);
      [exact normalize_row_date| |exact Hfind|done]. done. }
  unfold date_as_parsed in Hparsed.
  exists (result_record latest),
         (match ReleaseDate latest with Some d => isoformat d | None => "" end).
  split; [done|]. split.
  - unfold dumps_record, result_record. simpl. by destruct (ReleaseDate latest).
  - rewrite <- Hparsed. destruct (ReleaseDate latest) as [d|] eqn:Hd; [|done].
    apply iso_text_iso_date, isoformat_iso_text.
    apply (parse_date_valid (ReleaseDateRaw latest)). by rewrite <- Hparsed.
Qed.

Lemma snapshot_release_date_witness :
  exists rec t,
    dict_get "R750" scenario_data = Some (Some rec)
    /\ dumps_record rec
       = [ ("name", JStr "System CPLD"); ("version", JStr "1.2");
           ("release_date", JStr t); ("driver_id", JNull);
           ("download_url", JNull); ("category", JStr "") ]
    /\ iso_date t (Date 2024 1 10).
Proof.
  apply (snapshot_release_date scenario_net [] [mkServer "R650" None]
           (mkServer "R750" (Some ["NAA"])) start start
           (find_latest_cpld scenario_net "R750" (Some ["NAA"]) COUNTRY start).2
           (main_loop scenario_net scenario_servers [] start).2
           [] scenario_data
           (row_of "System CPLD" "1.2" "10 Jan 2024" (Some (Date 2024 1 10)))).
  - reflexivity.
  - vm_compute. reflexivity.
  - intros s' ->%list_elem_of_singleton. discriminate.
  - vm_compute. reflexivity.
Defined.

(** The end-to-end scenario of the specification. *)
Example main_scenario :
  match (main_loop scenario_net scenario_servers [] start).1 with
  | Ok data =>
      (fun entry : string * option ResultRecord =>
         (entry.1, dumps_record <$> entry.2)) <$> data
      = [ ("R750", Some [ ("name", JStr "System CPLD");
                          ("version", JStr "1.2");
                          ("release_date", JStr "2024-01-10");
                          ("driver_id", JNull);
                          ("download_url", JNull);
                          ("category", JStr "") ]);
          ("R650", None) ]
  | Raise _ => False
  end.
Proof. vm_compute. reflexivity. Qed.

(** A raw date that is kept but not parsed gives the empty string. *)
Example main_unparsed_date :
  match (main_loop unparsed_net [mkServer "R750" (Some ["NAA"])] [] start).1 with
  | Ok [(_, Some rec)] =>
      dict_get "release_date" (dumps_record rec) = Some (JStr "")
  | _ => False
  end.
Proof. vm_compute. reflexivity. Qed.

(** ** The file system *)

Module FSFacts.
Import FS FSSpec.

Lemma parent_length (p : path) : p <> [] -> S (List.length (parent p)) = List.length p.
Proof.
  intros Hp. unfold parent. destruct (exists_last Hp) as (q & x & ->).
  rewrite removelast_last, length_app. simpl. lia.
Qed.

Lemma parent_prefix (p : path) : parent p `prefix_of` p.
Proof.
  destruct p as [|a p]; [by exists []|].
  assert (Hp : a :: p <> []) by done.
  destruct (exists_last Hp) as (q & x & ->).
  unfold parent. rewrite removelast_last. by exists [x].
Qed.

Lemma lookup_node_insert (p q : path) (n : node) (f : fs) (w : nat) :
  p <> [] ->
  lookup_node q (mkFs (<[p := n]> (tree f)) w)
  = if decide (p = q) then Some n else lookup_node q f.
Proof.
  intros Hp. unfold lookup_node. simpl. destruct q as [|a q].
  - by rewrite decide_False.
  - by rewrite lookup_insert.
Qed.

(** What [os.mkdir] does when it succeeds. *)
Lemma os_mkdir_ok (p : path) (f f' : fs) :
  os_mkdir p f = Ok f' ->
  p <> [] /\ lookup_node p f = None /\ is_dir (parent p) f = true
  /\ f' = mkFs (<[p := Dir]> (tree f)) (writes f).
Proof.
  unfold os_mkdir, is_dir. destruct (lookup_node p f) eqn:Hp; [done|].
  destruct (lookup_node (parent p) f) as [[c|]|]; try done.
  intros [= <-]. repeat split. by intros ->.
Qed.

Lemma grows_to_refl (p : path) (f : fs) : grows_to p f f.
Proof. split; [done | by left]. Qed.

Lemma grows_to_trans (p p' : path) (f f1 f2 : fs) :
  (List.length p <= List.length p')%nat ->
  grows_to p f f1 -> grows_to p' f1 f2 -> grows_to p' f f2.
Proof.
  intros Hlen [Hw1 H1] [Hw2 H2]. split; [congruence|]. intros q.
  destruct (H1 q) as [E1 | (E1 & E1' & L1)], (H2 q) as [E2 | (E2 & E2' & L2)].
  - left. congruence.
  - right. repeat split; [congruence | done | done].
  - right. repeat split; [done | congruence | lia].
  - congruence.
Qed.

Lemma os_mkdir_grows (p : path) (f f' : fs) :
  os_mkdir p f = Ok f' -> grows_to p f f' /\ is_dir p f' = true.
Proof.
  intros (Hp & Hnone & _ & ->)%os_mkdir_ok. split; [split; [done|]|].
  - intros q. rewrite lookup_node_insert by done.
    destruct (decide (p = q)) as [<-|]; [right | by left]. by repeat split.
  - unfold is_dir. rewrite lookup_node_insert by done. by rewrite decide_True.
Qed.

Lemma mkdir_exist_ok_grows (p : path) (f f' : fs) :
  mkdir_exist_ok p f = Ok f' -> grows_to p f f' /\ is_dir p f' = true.
Proof.
  unfold mkdir_exist_ok. destruct (os_mkdir p f) as [f1|e] eqn:E.
  - intros [= <-]. by apply os_mkdir_grows.
  - destruct (is_dir p f) eqn:Hd; [|done]. intros [= <-].
    split; [apply grows_to_refl | done].
Qed.

Lemma mkdir_parents_upto_grows (n : nat) :
  forall (p : path) (f f' : fs),
    mkdir_parents_upto n p f = Ok f' -> grows_to p f f' /\ is_dir p f' = true.
Proof.
  induction n as [|n IH]; intros p f f'; cbn [mkdir_parents_upto];
    (destruct (os_mkdir p f) as [f1|e] eqn:E;
     [intros [= <-]; by apply os_mkdir_grows|]).
  - destruct (exn_cls e); try done;
      (destruct (is_dir p f) eqn:Hd; [|done]); intros [= <-];
      (split; [apply grows_to_refl | done]).
  - destruct (exn_cls e);
      try (destruct (is_dir p f) eqn:Hd; [|done]; intros [= <-];
           split; [apply grows_to_refl | done]).
    destruct p as [|a p]; [done|].
    destruct (mkdir_parents_upto n (parent (a :: p)) f) as [f1|e1] eqn:E1; [|done].
    cbn [rbind]. intros H.
    apply IH in E1 as [G1 _]. apply mkdir_exist_ok_grows in H as [G2 D2].
    split; [|done]. eapply grows_to_trans; [|exact G1|exact G2].
    rewrite <- (parent_length (a :: p)) by done. lia.
Qed.

(** A directory that is there is left alone. *)
Lemma mkdir_parents_upto_dir (n : nat) (p : path) (f : fs) :
  is_dir p f = true -> mkdir_parents_upto n p f = Ok f.
Proof.
  intros Hd. unfold is_dir in Hd.
  destruct n; cbn [mkdir_parents_upto]; unfold os_mkdir, is_dir;
    destruct (lookup_node p f) as [[c|]|]; done.
Qed.

(** The bound on the recursion of [mkdir] does not matter once it
    reaches the number of components of the path. *)
Lemma mkdir_parents_upto_step (n : nat) :
  forall (p : path) (f : fs),
    (List.length p <= n)%nat ->
    mkdir_parents_upto (S n) p f = mkdir_parents_upto n p f.
Proof.
  induction n as [|n IH]; intros p f Hlen.
  - destruct p; [|simpl in Hlen; lia]. reflexivity.
  - cbn [mkdir_parents_upto]. destruct (os_mkdir p f) as [f'|e]; [done|].
    destruct (exn_cls e); try done. destruct p as [|a p]; [done|].
    rewrite <- (IH (parent (a :: p))); [done|].
    assert (Hne : a :: p <> []) by done.
    pose proof (parent_length (a :: p) Hne) as L. lia.
Qed.

Lemma mkdir_parents_upto_enough (n : nat) (p : path) (f : fs) :
  (List.length p <= n)%nat -> mkdir_parents_upto n p f = mkdir_parents p f.
Proof.
  unfold mkdir_parents. induction n as [|n IH]; intros Hlen.
  - by replace (List.length p) with 0%nat by lia.
  - destruct (decide (List.length p = S n)) as [->|Hne]; [done|].
    rewrite mkdir_parents_upto_step by lia. apply IH. lia.
Qed.

Lemma no_file_on_parent (p : path) (f : fs) : no_file_on p f -> no_file_on (parent p) f.
Proof.
  intros H q c Hq. apply H. etransitivity; [exact Hq | apply parent_prefix].
Qed.

(** [mkdir] succeeds when no regular file is in the way, and the bound
    on its recursion is never reached. *)
Lemma mkdir_parents_upto_ok (n : nat) :
  forall (p : path) (f : fs),
    (List.length p <= n)%nat -> no_file_on p f ->
    exists f1, mkdir_parents_upto n p f = Ok f1.
Proof.
  induction n as [|n IH]; intros p f Hlen Hno.
  - destruct p; [|simpl in Hlen; lia].
    rewrite mkdir_parents_upto_dir by done. eauto.
  - cbn [mkdir_parents_upto]. unfold os_mkdir at 1.
    destruct (lookup_node p f) as [[c|]|] eqn:Hp.
    + exfalso. by apply (Hno p c).
    + simpl. unfold is_dir. rewrite Hp. eauto.
    + destruct (lookup_node (parent p) f) as [[c|]|] eqn:Hpar.
      * exfalso. apply (Hno (parent p) c); [apply parent_prefix | done].
      * eauto.
      * simpl. destruct p as [|a p]; [done|].
        assert (Hne : a :: p <> []) by done.
        pose proof (parent_length _ Hne) as Hl.
        destruct (IH (parent (a :: p)) f) as [f1 Hf1];
          [lia | by apply no_file_on_parent|].
        rewrite Hf1. cbn [rbind].
        apply mkdir_parents_upto_grows in Hf1 as [[_ G] D].
        unfold mkdir_exist_ok, os_mkdir.
        destruct (G (a :: p)) as [-> | (_ & _ & L)]; [|lia].
        rewrite Hp. unfold is_dir in D.
        destruct (lookup_node (parent (a :: p)) f1) as [[c|]|]; try done. eauto.
Qed.

Lemma os_mkdir_well_formed (p : path) (f f' : fs) :
  well_formed f -> os_mkdir p f = Ok f' -> well_formed f'.
Proof.
  intros Hwf (Hp & Hnone & Hd & ->)%os_mkdir_ok q n. simpl.
  assert (Hmono : forall x, is_dir x f = true ->
            is_dir x (mkFs (<[p := Dir]> (tree f)) (writes f)) = true).
  { intros x. unfold is_dir. rewrite lookup_node_insert by done.
    by destruct (decide (p = x)). }
  rewrite lookup_insert. destruct (decide (p = q)) as [<-|].
  - intros _. by apply Hmono.
  - intros H. by apply Hmono, (Hwf q n).
Qed.

Lemma mkdir_exist_ok_well_formed (p : path) (f f' : fs) :
  well_formed f -> mkdir_exist_ok p f = Ok f' -> well_formed f'.
Proof.
  intros Hwf. unfold mkdir_exist_ok. destruct (os_mkdir p f) as [f1|e] eqn:E.
  - intros [= <-]. by eapply os_mkdir_well_formed.
  - destruct (is_dir p f); [|done]. by intros [= <-].
Qed.

Lemma mkdir_parents_upto_well_formed (n : nat) :
  forall (p : path) (f f' : fs),
    well_formed f -> mkdir_parents_upto n p f = Ok f' -> well_formed f'.
Proof.
  induction n as [|n IH]; intros p f f' Hwf; cbn [mkdir_parents_upto];
    (destruct (os_mkdir p f) as [f1|e] eqn:E;
     [intros [= <-]; by eapply os_mkdir_well_formed|]).
  - destruct (exn_cls e); try done; (destruct (is_dir p f); [|done]); by intros [= <-].
  - destruct (exn_cls e);
      try (destruct (is_dir p f); [|done]; by intros [= <-]).
    destruct p as [|a p]; [done|].
    destruct (mkdir_parents_upto n (parent (a :: p)) f) as [f1|e1] eqn:E1; [|done].
    cbn [rbind]. intros H. eapply mkdir_exist_ok_well_formed; [|exact H].
    by eapply IH.
Qed.

(** In a well-formed file system a directory has all its ancestors. *)
Lemma ancestors_are_dirs (f : fs) (p : path) :
  well_formed f -> is_dir p f = true ->
  forall q, q `prefix_of` p -> is_dir q f = true.
Proof.
  intros Hwf. remember (List.length p) as k eqn:Hk. revert p Hk.
  induction k as [|k IH]; intros p Hk Hd q [r Hq].
  - destruct p; [|done]. by destruct q.
  - destruct (decide (r = [])) as [->|Hr].
    { rewrite app_nil_r in Hq. by subst q. }
    assert (Hp : p <> []) by (intros ->; by destruct q, r).
    apply (IH (parent p)).
    + pose proof (parent_length p Hp). lia.
    + destruct p as [|a p]; [done|]. unfold is_dir, lookup_node in Hd.
      match type of Hd with
      | match ?t with _ => _ end = _ => destruct t as [n|] eqn:E; [|done]
      end.
      by apply (Hwf _ n).
    + destruct (exists_last Hr) as (r' & x & ->). subst p.
      unfold parent. rewrite app_assoc, removelast_last. by exists r'.
Qed.

(** *** UTF-8 *)

Ltac tests :=
  repeat match goal with
         | |- context [?a <=? ?b] =>
             destruct (Z.leb_spec a b); try (exfalso; Z.div_mod_to_equations; lia)
         | |- context [?a <? ?b] =>
             destruct (Z.ltb_spec a b); try (exfalso; Z.div_mod_to_equations; lia)
         end.

Lemma decode_encode_char (c : Z) (b rest : bytes) :
  encode_char c = Some b ->
  decode_utf8 (b ++ rest)%list = cons c <$> decode_utf8 rest.
Proof.
  unfold encode_char, is_surrogate.
  destruct (Z.ltb_spec c 0); [done|].
  destruct (Z.ltb_spec c 0x80).
  { intros [= <-]. cbn [app decode_utf8]. tests. done. }
  destruct (Z.ltb_spec c 0x800).
  { intros [= <-]. cbn [app decode_utf8]. unfold continuation. tests. cbn [andb].
    f_equal. f_equal. Z.div_mod_to_equations. lia. }
  destruct (Z.ltb_spec c 0x10000).
  { destruct (Z.leb_spec 0xD800 c), (Z.leb_spec c 0xDFFF); cbn [andb]; try done;
      intros [= <-]; cbn [app decode_utf8]; unfold continuation, is_surrogate;
      tests; cbn [andb negb];
      replace (((0xE0 + c / 64 / 64 - 0xE0) * 64 + (0x80 + (c / 64) mod 64 - 0x80)) * 64
               + (0x80 + c mod 64 - 0x80)) with c
        by (Z.div_mod_to_equations; lia);
      tests; cbn [andb negb]; done. }
  destruct (Z.ltb_spec c 0x110000); [|done].
  intros [= <-]. cbn [app decode_utf8]. unfold continuation. tests. cbn [andb].
  replace ((((0xF0 + c / 64 / 64 / 64 - 0xF0) * 64 + (0x80 + (c / 64 / 64) mod 64 - 0x80)) * 64
            + (0x80 + (c / 64) mod 64 - 0x80)) * 64 + (0x80 + c mod 64 - 0x80)) with c
    by (Z.div_mod_to_equations; lia).
  tests. done.
Qed.

(** What was encoded decodes to the same text. *)
Lemma decode_encode (s : text) (b : bytes) :
  encode_utf8 s = Some b -> decode_utf8 b = Some s.
Proof.
  revert b. induction s as [|c s IH]; intros b; cbn [encode_utf8].
  - by intros [= <-].
  - destruct (encode_char c) as [bc|] eqn:Hc; [|done].
    destruct (encode_utf8 s) as [rest|]; [|done]. intros [= <-].
    rewrite (decode_encode_char c bc rest Hc), (IH rest eq_refl). done.
Qed.

Lemma encode_utf8_inj (s s' : text) (b : bytes) :
  encode_utf8 s = Some b -> encode_utf8 s' = Some b -> s = s'.
Proof. intros H%decode_encode H'%decode_encode. congruence. Qed.

(** What is encoded is a sequence of bytes. *)
Lemma encode_char_bytes (c : Z) (b : bytes) : encode_char c = Some b -> is_bytes b.
Proof.
  unfold encode_char, is_surrogate, is_bytes.
  destruct (Z.ltb_spec c 0); [done|].
  destruct (Z.ltb_spec c 0x80).
  { intros [= <-]. repeat constructor; lia. }
  destruct (Z.ltb_spec c 0x800).
  { intros [= <-]. repeat constructor; Z.div_mod_to_equations; lia. }
  destruct (Z.ltb_spec c 0x10000).
  { destruct (_ && _); [done|].
    intros [= <-]. repeat constructor; Z.div_mod_to_equations; lia. }
  destruct (Z.ltb_spec c 0x110000); [|done].
  intros [= <-]. repeat constructor; Z.div_mod_to_equations; lia.
Qed.

Lemma encode_utf8_bytes (s : text) (b : bytes) : encode_utf8 s = Some b -> is_bytes b.
Proof.
  revert b. induction s as [|c s IH]; intros b; cbn [encode_utf8].
  - intros [= <-]. constructor.
  - destruct (encode_char c) as [bc|] eqn:Hc; [|done].
    destruct (encode_utf8 s) as [rest|]; [|done]. intros [= <-].
    apply Forall_app. split; [by apply (encode_char_bytes c) | by apply IH].
Qed.

(** A text cannot be encoded exactly when it holds a surrogate. *)
Lemma encode_utf8_None (s : text) :
  is_text s -> encode_utf8 s = None <-> Exists (fun c => is_surrogate c = true) s.
Proof.
  induction 1 as [|c s Hc _ IH]; cbn [encode_utf8].
  - split; [done | by intros ?%Exists_nil].
  - rewrite Exists_cons, <- IH.
    assert (Hchar : encode_char c = None <-> is_surrogate c = true).
    { unfold encode_char, is_surrogate.
      destruct (Z.ltb_spec c 0); [lia|].
      destruct (Z.ltb_spec c 0x80).
      { split; [done|]. intros [? ?]%andb_true_iff. lia. }
      destruct (Z.ltb_spec c 0x800).
      { split; [done|]. intros [? ?]%andb_true_iff. lia. }
      destruct (Z.ltb_spec c 0x10000).
      { by destruct (_ && _). }
      destruct (Z.ltb_spec c 0x110000); [|lia].
      split; [done|]. intros [? ?]%andb_true_iff. lia. }
    rewrite <- Hchar.
    destruct (encode_char c), (encode_utf8 s); split; try done; try tauto; eauto.
    intros [|]; done.
Qed.

Lemma encode_utf8_Forall (s : text) :
  is_Some (encode_utf8 s) <-> Forall (fun c => is_Some (encode_char c)) s.
Proof.
  induction s as [|c s IH]; cbn [encode_utf8].
  - split; [constructor | by eexists].
  - rewrite Forall_cons, <- IH. destruct (encode_char c), (encode_utf8 s); split;
      try (intros [x [=]]); try (intros [[x [=]] ?]); try (intros [? [x [=]]]); eauto.
Qed.

(** A text that was decoded has no surrogate in it. *)
Lemma decode_utf8_encodable (n : nat) :
  forall (b : bytes) (s : text),
    (List.length b <= n)%nat -> decode_utf8 b = Some s ->
    Forall (fun c => is_Some (encode_char c)) s.
Proof.
  assert (Henc : forall c, 0 <= c < 0x110000 -> is_surrogate c = false ->
                   is_Some (encode_char c)).
  { intros c Hc Hs. unfold encode_char. rewrite Hs. tests; by eexists. }
  induction n as [|n IH]; intros b s Hlen.
  { destruct b; [|simpl in Hlen; lia]. intros [= <-]. constructor. }
  destruct b as [|b0 r0]; [intros [= <-]; constructor|]. cbn [decode_utf8].
  simpl in Hlen.
  assert (Hstep : forall c r,
            (List.length r <= n)%nat -> 0 <= c < 0x110000 -> is_surrogate c = false ->
            cons c <$> decode_utf8 r = Some s ->
            Forall (fun c => is_Some (encode_char c)) s).
  { intros c r Hr Hc Hs H. destruct (decode_utf8 r) as [s'|] eqn:E; [|done].
    injection H as <-. constructor; [by apply Henc | by apply (IH r)]. }
  destruct (Z.leb_spec 0 b0), (Z.ltb_spec b0 0x80); cbn [andb].
  { apply Hstep; [lia | lia|]. unfold is_surrogate. tests; done. }
  all: destruct (Z.leb_spec 0xC2 b0), (Z.leb_spec b0 0xDF); cbn [andb];
    try (destruct r0 as [|b1 r1]; [done|]; unfold continuation;
         destruct (Z.leb_spec 0x80 b1), (Z.leb_spec b1 0xBF); cbn [andb]; try done;
         apply Hstep; [simpl in Hlen; lia | lia|]; unfold is_surrogate; tests; done).
  all: destruct (Z.leb_spec 0xE0 b0), (Z.leb_spec b0 0xEF); cbn [andb];
    try (destruct r0 as [|b1 [|b2 r2]]; try done; unfold continuation;
         destruct (Z.leb_spec 0x80 b1), (Z.leb_spec b1 0xBF); cbn [andb]; try done;
         destruct (Z.leb_spec 0x80 b2), (Z.leb_spec b2 0xBF); cbn [andb]; try done;
         cbv zeta;
         destruct (Z.leb_spec 0x800 (((b0 - 0xE0) * 64 + (b1 - 0x80)) * 64 + (b2 - 0x80)));
         cbn [andb]; try done;
         destruct (is_surrogate (((b0 - 0xE0) * 64 + (b1 - 0x80)) * 64 + (b2 - 0x80))) eqn:Hs;
         cbn [negb]; try done;
         apply Hstep; [simpl in Hlen; lia | lia | done]).
  all: destruct (Z.leb_spec 0xF0 b0), (Z.leb_spec b0 0xF4); cbn [andb]; try done;
    destruct r0 as [|b1 [|b2 [|b3 r3]]]; try done; unfold continuation;
    destruct (Z.leb_spec 0x80 b1), (Z.leb_spec b1 0xBF); cbn [andb]; try done;
    destruct (Z.leb_spec 0x80 b2), (Z.leb_spec b2 0xBF); cbn [andb]; try done;
    destruct (Z.leb_spec 0x80 b3), (Z.leb_spec b3 0xBF); cbn [andb]; try done;
    cbv zeta;
    destruct (Z.leb_spec 0x10000
                ((((b0 - 0xF0) * 64 + (b1 - 0x80)) * 64 + (b2 - 0x80)) * 64 + (b3 - 0x80)));
    cbn [andb]; try done;
    destruct (Z.leb_spec ((((b0 - 0xF0) * 64 + (b1 - 0x80)) * 64 + (b2 - 0x80)) * 64
                          + (b3 - 0x80)) 0x10FFFF); try done;
    apply Hstep; [simpl in Hlen; lia | lia|]; unfold is_surrogate; tests; done.
Qed.

Lemma universal_newlines_encodable (s : text) :
  Forall (fun c => is_Some (encode_char c)) s ->
  Forall (fun c => is_Some (encode_char c)) (universal_newlines s).
Proof.
  assert (H10 : is_Some (encode_char 10)) by (by eexists).
  remember (List.length s) as n eqn:Hn. revert s Hn.
  induction n as [n IH] using lt_wf_ind. intros s -> Hs.
  destruct s as [|c s]; [constructor|]. cbn [universal_newlines].
  apply Forall_cons in Hs as [Hc Hs].
  destruct (c =? 13).
  - constructor; [done|]. destruct s as [|c' s']; [constructor|].
    destruct (c' =? 10).
    + apply Forall_cons in Hs as [_ Hs]. eapply IH; [|reflexivity|done]. simpl. lia.
    + eapply IH; [|reflexivity|done]. simpl. lia.
  - constructor; [done|]. eapply IH; [|reflexivity|done]. simpl. lia.
Qed.

Lemma universal_newlines_id (s : text) :
  no_carriage_return s -> universal_newlines s = s.
Proof.
  unfold no_carriage_return. induction s as [|c s IH]; [done|]. intros H.
  apply not_elem_of_cons in H as [Hc Hs]. cbn [universal_newlines].
  destruct (Z.eqb_spec c 13); [congruence|]. by rewrite IH.
Qed.

(** The text that was read can always be encoded. *)
Lemma read_text_encodable (p : path) (f : fs) (s : text) :
  read_text p f = Ok s -> exists b, str_encode s = Ok b.
Proof.
  unfold read_text, bytes_decode, str_encode.
  destruct (lookup_node p f) as [[b|]|]; [|done..].
  destruct (decode_utf8 b) as [s0|] eqn:E; [|done]. intros [= <-].
  assert (H : is_Some (encode_utf8 (universal_newlines s0))).
  { apply encode_utf8_Forall, universal_newlines_encodable.
    by apply (decode_utf8_encodable (List.length b) b). }
  destruct H as [b' ->]. eauto.
Qed.

Lemma str_encode_Ok (s : text) (b : bytes) : str_encode s = Ok b <-> encode_utf8 s = Some b.
Proof. unfold str_encode. destruct (encode_utf8 s); split; congruence. Qed.

(** *** The writer *)

Section Writer.
Variable sha256_hexdigest : bytes -> string.

(** What the writer reads before it compares: the text of the file, or the
    empty text. *)
Lemma old_text_read (p : path) (f : fs) (old : text) :
  (if exists_ p f then read_text p f else Ok []) = Ok old -> old = old_text p f.
Proof.
  unfold exists_, read_text, old_text, bytes_decode.
  destruct (lookup_node p f) as [[b|]|]; [|done|by intros [= <-]].
  destruct (decode_utf8 b); [|done]. by intros [= <-].
Qed.

(** What a call that returns has done. *)
Lemma write_if_changed_ok (p : path) (content : text) (f f2 : fs) (b : bool) :
  write_if_changed sha256_hexdigest p content f = (Ok b, f2) ->
  exists f1 ob nb,
    mkdir_parents (parent p) f = Ok f1
    /\ lookup_node p f1 = lookup_node p f
    /\ lookup_node p f <> Some Dir
    /\ p <> []
    /\ is_dir (parent p) f1 = true
    /\ readable p f
    /\ encode_utf8 (old_text p f) = Some ob
    /\ encode_utf8 content = Some nb
    /\ b = negb (String.eqb (sha256_hexdigest ob) (sha256_hexdigest nb))
    /\ f2 = if b then mkFs (<[p := File nb]> (tree f1)) (S (writes f1)) else f1.
Proof.
  unfold write_if_changed.
  destruct (mkdir_parents (parent p) f) as [f1|e] eqn:Hmk; [|done].
  pose proof Hmk as [[Hw G] D]%mkdir_parents_upto_grows.
  assert (Hsame : lookup_node p f1 = lookup_node p f).
  { destruct (decide (p = [])) as [->|Hp]; [done|].
    destruct (G p) as [E | (_ & _ & L)]; [done|].
    pose proof (parent_length p Hp). lia. }
  destruct (if exists_ p f1 then read_text p f1 else Ok []) as [old|e] eqn:Hold; [|done].
  assert (Hnd : lookup_node p f <> Some Dir).
  { intros E. unfold exists_, read_text in Hold. by rewrite Hsame, E in Hold. }
  assert (Hne : p <> []) by (intros ->; by apply Hnd).
  assert (Hread : readable p f).
  { intros b0 E. unfold exists_, read_text, bytes_decode in Hold.
    rewrite Hsame, E in Hold. destruct (decode_utf8 b0); [by eexists | done]. }
  apply old_text_read in Hold as ->.
  assert (Hot : old_text p f1 = old_text p f) by (unfold old_text; by rewrite Hsame).
  rewrite Hot.
  destruct (str_encode (old_text p f)) as [ob|e] eqn:Hob; [|done].
  destruct (str_encode content) as [nb|e] eqn:Hnb; [|done].
  apply str_encode_Ok in Hob. pose proof Hnb as Hnb'%str_encode_Ok.
  unfold write_text. rewrite Hsame, Hnb. pose proof D as D'. unfold is_dir in D'.
  destruct (negb (String.eqb _ _)) eqn:Hb.
  - destruct (lookup_node p f) as [[c|]|] eqn:Hp; [|done|];
      (destruct (lookup_node (parent p) f1) as [[c'|]|]; try done);
      intros [= <- <-]; exists f1, ob, nb; by split_and!.
  - intros [= <- <-]. exists f1, ob, nb. by split_and!.
Qed.

(** A second call on what a call left reads the same text again when the
    first call wrote nothing, and the content when it wrote it, provided no
    carriage return is in it. *)
Lemma write_if_changed_again (p : path) (content : text) (f1 : fs) (nb : bytes) :
  p <> [] ->
  is_dir (parent p) f1 = true ->
  encode_utf8 content = Some nb ->
  (exists ob, encode_utf8 (old_text p f1) = Some ob
              /\ String.eqb (sha256_hexdigest ob) (sha256_hexdigest nb) = true) ->
  lookup_node p f1 <> Some Dir ->
  readable p f1 ->
  write_if_changed sha256_hexdigest p content f1 = (Ok false, f1).
Proof.
  intros Hp Hd Hnb (ob & Hob & Heq) Hnd Hread.
  unfold write_if_changed, mkdir_parents.
  rewrite (mkdir_parents_upto_dir _ (parent p)) by done.
  assert (Hold : (if exists_ p f1 then read_text p f1 else Ok []) = Ok (old_text p f1)).
  { unfold exists_, read_text, old_text, bytes_decode.
    destruct (lookup_node p f1) as [[b|]|] eqn:E; [|done|done].
    destruct (Hread b E) as [s ->]. done. }
  rewrite Hold. apply str_encode_Ok in Hob, Hnb. by rewrite Hob, Hnb, Heq.
Qed.


(** C10. When nothing is at the target path and the content is empty,
    the call reports no change and the path stays empty; all it does
    is make the parent directory, and with it, in a well-formed file
    system, every directory above it. No file is written. *)
Theorem write_if_changed_empty_absent (p : path) (f : fs) :
  lookup_node p f = None ->
  no_file_on p f ->
  exists f1,
    write_if_changed sha256_hexdigest p [] f = (Ok false, f1)
    /\ lookup_node p f1 = None
    /\ grows_to (parent p) f f1
    /\ is_dir (parent p) f1 = true
    /\ (well_formed f -> forall q, q `prefix_of` parent p -> is_dir q f1 = true).
Proof.
  intros Hnone Hno.
  destruct (mkdir_parents_upto_ok (List.length (parent p)) (parent p) f)
    as [f1 Hmk]; [done | by apply no_file_on_parent|].
  assert (Hp : p <> []) by (intros ->; done).
  pose proof Hmk as [G D]%mkdir_parents_upto_grows.
  assert (Hsame : lookup_node p f1 = None).
  { destruct G as [_ G]. destruct (G p) as [E | (_ & _ & L)]; [congruence|].
    pose proof (parent_length p Hp). lia. }
  exists f1. unfold write_if_changed, mkdir_parents. rewrite Hmk.
  unfold exists_. rewrite Hsame. cbn. rewrite String.eqb_refl. simpl.
  repeat split; try done; try apply G.
  intros Hwf. apply ancestors_are_dirs; [|done].
  by eapply mkdir_parents_upto_well_formed.
Qed.
End Writer.

(** The digest used in the examples has no collisions. *)
Lemma raw_digest_inj : tells_apart raw_digest.
Proof.
  unfold tells_apart, is_bytes, raw_digest. intros x y Hx. revert y. induction Hx as [|a x Ha _ IH]; intros y Hy H.
  - destruct Hy; [done | discriminate H].
  - destruct Hy as [|b y Hb Hy]; [discriminate H|].
    rewrite !fmap_cons in H. simpl in H. injection H as H1 H2.
    apply (f_equal nat_of_ascii) in H1. rewrite !nat_ascii_embedding in H1 by lia.
    f_equal; [lia | by apply IH].
Qed.


Lemma write_if_changed_empty_absent_witness :
  exists f1,
    write_if_changed raw_digest snapshot_path [] empty_fs = (Ok false, f1)
    /\ lookup_node snapshot_path f1 = None
    /\ grows_to (parent snapshot_path) empty_fs f1
    /\ is_dir (parent snapshot_path) f1 = true
    /\ (well_formed empty_fs ->
        forall q, q `prefix_of` parent snapshot_path -> is_dir q f1 = true).
Proof.
  apply (write_if_changed_empty_absent raw_digest snapshot_path empty_fs).
  - reflexivity.
  - intros q c _. destruct q; [done|]. unfold lookup_node. simpl.
    by rewrite lookup_empty.
Defined.

(** A file that holds the content already is left alone, whatever the
    digest function. *)
Lemma unchanged_when_content_is_there (sha256_hexdigest : bytes -> string) :
  write_if_changed sha256_hexdigest snapshot_path braces written_fs
  = (Ok false, written_fs).
Proof.
  unfold write_if_changed.
  assert (H1 : mkdir_parents (parent snapshot_path) written_fs = Ok written_fs)
    by (by vm_compute).
  assert (H2 : exists_ snapshot_path written_fs = true) by (by vm_compute).
  assert (H3 : read_text snapshot_path written_fs = Ok braces) by (by vm_compute).
  assert (H4 : str_encode braces = Ok [123; 125]) by (by vm_compute).
  by rewrite H1, H2, H3, H4, String.eqb_refl.
Qed.


(** And with a carriage return in the content the second call writes
    again: what was written is read back with a line feed. *)
Example write_if_changed_carriage_return :
  (write_if_changed raw_digest snapshot_path two_lines empty_fs).1 = Ok true
  /\ (write_if_changed raw_digest snapshot_path two_lines
        (write_if_changed raw_digest snapshot_path two_lines empty_fs).2).1 = Ok true
  /\ writes (write_if_changed raw_digest snapshot_path two_lines
               (write_if_changed raw_digest snapshot_path two_lines empty_fs).2).2 = 2%nat.
Proof. by vm_compute. Qed.

Example write_if_changed_makes_dirs :
  match write_if_changed raw_digest ["a"; "b"; "c"; "out.json"] [] empty_fs with
  | (Ok false, f1) =>
      is_dir ["a"] f1 && is_dir ["a"; "b"] f1 && is_dir ["a"; "b"; "c"] f1
      && negb (exists_ ["a"; "b"; "c"; "out.json"] f1) = true
  | _ => False
  end.
Proof. by vm_compute. Qed.

Example write_if_changed_file_in_the_way :
  (write_if_changed raw_digest ["docs"; "cpld_latest.json"; "x"] braces written_fs).1
  = Raise (Exn FileExistsError "File exists").
Proof. by vm_compute. Qed.
End FSFacts.

(** ** The order of strings *)

Lemma ascii_code_inj (x y : ascii) : nat_of_ascii x = nat_of_ascii y -> x = y.
Proof.
  intros H. rewrite <- (ascii_nat_embedding x), <- (ascii_nat_embedding y). by rewrite H.
Qed.

Lemma str_ltb_cons (x y : ascii) (a b : string) :
  str_ltb (String x a) (String y b) = true <->
  (nat_of_ascii x < nat_of_ascii y)%nat
  \/ (nat_of_ascii x = nat_of_ascii y /\ str_ltb a b = true).
Proof.
  cbn [str_ltb]. rewrite orb_true_iff, andb_true_iff, Nat.ltb_lt, Ascii.eqb_eq.
  split; (intros [H | [H1 H2]]; [by left | right; split; [|done]]).
  - by subst.
  - by apply ascii_code_inj.
Qed.

Lemma str_ltb_asym (a b : string) : str_ltb a b = true -> str_ltb b a = false.
Proof.
  revert b. induction a as [|x a IH]; intros [|y b]; try done.
  intros H%str_ltb_cons. apply not_true_is_false. intros H'%str_ltb_cons.
  destruct H as [H | [H1 H2]], H' as [H' | [H1' H2']]; try lia.
  apply IH in H2. congruence.
Qed.

Lemma str_ltb_negtrans (a b c : string) :
  str_ltb a b = false -> str_ltb b c = false -> str_ltb a c = false.
Proof.
  revert b c. induction a as [|x a IH]; intros [|y b] [|z c]; try done.
  intros H1%not_true_iff_false H2%not_true_iff_false.
  apply not_true_is_false. intros H3%str_ltb_cons.
  rewrite str_ltb_cons in H1, H2.
  destruct (str_ltb a b) eqn:Eab; [apply H1; lia|].
  destruct (str_ltb b c) eqn:Ebc; [apply H2; lia|].
  rewrite (IH b c Eab Ebc) in H3.
  destruct H3 as [H3 | [_ ?]]; [|done].
  destruct (lt_eq_lt_dec (nat_of_ascii x) (nat_of_ascii y)) as [[?|?]|?];
    [apply H1; lia | | ];
    (destruct (lt_eq_lt_dec (nat_of_ascii y) (nat_of_ascii z)) as [[?|?]|?];
     [apply H2; lia | | ]); lia.
Qed.

(** ** The catalog fallback *)

Lemma first_greatest_fmap {A B K} (f : A -> B) (key : B -> K) (ltb : K -> K -> bool)
    (l : list A) (y : B) :
  first_greatest key ltb (f <$> l) y ->
  exists x, y = f x /\ first_greatest (fun a => key (f a)) ltb l x.
Proof.
  intros (l1 & l2 & H & H1 & H2).
  apply fmap_app_inv in H as (k1 & k2' & -> & Hk & ->).
  symmetry in Hk. apply fmap_cons_inv in Hk as (x & k2 & -> & -> & ->).
  exists x. split; [done|]. exists k1, k2. split; [done|].
  by rewrite !Forall_fmap in *.
Qed.

Lemma filter_sublist {A} (p : A -> bool) (l : list A) : List.filter p l `sublist_of` l.
Proof.
  induction l as [|x l IH]; simpl; [constructor|].
  destruct (p x); by constructor.
Qed.

Module CatalogFacts.
Import Catalog CatalogSpec CatalogWords.

Lemma is_candidate_spec (model_hint : string) (comp : Element) :
  is_candidate (lower (replace_hyphens model_hint)) comp = true
  <-> matches_hint model_hint comp.
Proof.
  unfold is_candidate, names_cpld, systems_of, matches_hint, field, model_names.
  rewrite andb_true_iff, negb_true_iff, andb_false_iff, !negb_false_iff,
    !contains_spec. tauto.
Qed.

Lemma best_of_candidates (cands : list (string * entry)) :
  match (match cands with
         | [] => None
         | c :: cs => snd <$> head (sort_desc fst str_ltb (c :: cs))
         end) with
  | None => cands = []
  | Some e => exists h, first_greatest fst str_ltb cands h /\ e = h.2
  end.
Proof.
  destruct cands as [|c cs]; [done|].
  destruct (sort_desc fst str_ltb (c :: cs)) as [|h t] eqn:Hs.
  { by apply sort_desc_nil in Hs. }
  apply (sort_desc_head _ _ str_ltb_asym str_ltb_negtrans) in Hs.
  simpl. by exists h.
Qed.

(** The words of the specification and the program's functions. *)

Lemma iter_below (e : Element) : iter e = e :: below e.
Proof.
  revert e. fix IH 1. intros [t x cs]. simpl. f_equal.
  induction cs as [|c cs IHcs]; [done|]. simpl. by rewrite IH, IHcs.
Qed.

Lemma below_children (e : Element) : flat_map iter (children_of e) = below e.
Proof.
  destruct e as [t x cs]. simpl.
  induction cs as [|c cs IH]; [done|]. simpl. by rewrite iter_below, IH.
Qed.

Lemma filter_tagged (t : string) (l : list Element) :
  List.filter (has_tag t) l = tagged t l.
Proof.
  unfold tagged, has_tag. induction l as [|e l IH]; [done|].
  simpl. rewrite filter_cons, IH.
  destruct (String.eqb_spec (tag_of e) t), (decide (tag_of e = t)); done.
Qed.

Lemma descendants_tagged (t : string) (e : Element) :
  descendants t e = tagged t (below e).
Proof. unfold descendants. by rewrite below_children, filter_tagged. Qed.

Lemma findtext_first_text (t : string) (comp : Element) :
  findtext t comp = first_text t comp.
Proof.
  unfold findtext, first_text, children_tagged. rewrite filter_tagged.
  destruct (tagged t (children_of comp)) as [|c l]; [done|].
  simpl. by destruct (text_of c).
Qed.

Lemma field_first_text (t : string) (comp : Element) :
  field t comp = default "" (first_text t comp).
Proof.
  unfold field. rewrite findtext_first_text. by destruct (first_text t comp).
Qed.

Lemma flat_map_flat_map {A B C} (g : B -> list C) (h : A -> list B) (l : list A) :
  flat_map g (flat_map h l) = flat_map (fun x => flat_map g (h x)) l.
Proof.
  induction l as [|x l IH]; [done|]. simpl. by rewrite flat_map_app, IH.
Qed.

Lemma fmap_flat_map {A B C} (f : B -> C) (g : A -> list B) (l : list A) :
  f <$> flat_map g l = flat_map (fun x => f <$> g x) l.
Proof.
  induction l as [|x l IH]; [done|]. simpl. by rewrite fmap_app, IH.
Qed.

Lemma supported_models_listed (comp : Element) :
  (fun m => or_empty (text_of m)) <$> supported_models comp = listed_models comp.
Proof.
  unfold supported_models, listed_models.
  rewrite descendants_tagged, flat_map_flat_map, fmap_flat_map.
  apply flat_map_ext. intros ss. unfold children_tagged at 2.
  rewrite filter_tagged, fmap_flat_map.
  apply flat_map_ext. intros brand. unfold children_tagged.
  rewrite filter_tagged. apply list_fmap_ext. intros _ m _.
  by destruct (text_of m).
Qed.

Lemma chars_join_spaces (names : list string) :
  list_ascii_of_string (join_spaces names) = concatenated names.
Proof.
  induction names as [|n [|n' later] IH]; [done..|].
  change (join_spaces (n :: n' :: later)) with (n +:+ " " +:+ join_spaces (n' :: later)).
  change (concatenated (n :: n' :: later))
    with (list_ascii_of_string n ++ " "%char :: concatenated (n' :: later))%list.
  by rewrite !chars_app, IH.
Qed.

Lemma chars_replace_hyphens (s : string) :
  list_ascii_of_string (replace_hyphens s) = hyphens_as_blanks s.
Proof.
  unfold hyphens_as_blanks. induction s as [|c s IH]; [done|].
  simpl. rewrite IH. f_equal.
  by destruct (Ascii.eqb_spec c "-"), (decide (c = "-"%char)).
Qed.

Lemma matches_hint_words (model_hint : string) (comp : Element) :
  matches_hint model_hint comp <-> cpld_for_model model_hint comp.
Proof.
  unfold matches_hint, cpld_for_model, model_names.
  change "cpld" with (lower "cpld") at 1 2.
  rewrite !substring_lower_ci, !field_first_text.
  unfold occurs_ci at 3.
  by rewrite chars_replace_hyphens, chars_join_spaces, supported_models_listed.
Qed.

Lemma str_ltb_lex_lt (a b : string) :
  str_ltb a b = true <-> lex_lt (list_ascii_of_string a) (list_ascii_of_string b).
Proof.
  revert b. induction a as [|x a IH]; intros [|y b]; simpl.
  - split; [done | inversion 1].
  - split; [constructor | done].
  - split; [done | inversion 1].
  - change (str_ltb (String x a) (String y b) = true
            <-> lex_lt (x :: list_ascii_of_string a) (y :: list_ascii_of_string b)).
    rewrite str_ltb_cons. split.
    + intros [H | [H1 H2]].
      * apply lex_lt_head. unfold code. lia.
      * apply ascii_code_inj in H1 as ->. apply lex_lt_tail. by apply IH.
    + inversion 1 as [| ? ? ? ? Hc | ? ? ? Hl]; subst.
      * left. unfold code in Hc. lia.
      * right. split; [done|]. by apply IH.
Qed.



(** The scenario of the specification, and a hint with a hyphen. *)
Example best_cpld_R750 :
  e_name <$> best_cpld_for_model_from_catalog small_catalog "R750"
  = Some (Some "Backplane")
  /\ e_release_date <$> best_cpld_for_model_from_catalog small_catalog "R750"
     = Some "2024-01-10".
Proof. by vm_compute. Qed.

Example best_cpld_R650 :
  e_name <$> best_cpld_for_model_from_catalog small_catalog "poweredge-r650"
  = Some (Some "System cpld").
Proof. by vm_compute. Qed.

Example best_cpld_hyphen_in_model :
  best_cpld_for_model_from_catalog small_catalog "T-550" = None.
Proof. by vm_compute. Qed.

Example best_cpld_none :
  best_cpld_for_model_from_catalog small_catalog "R7525" = None.
Proof. by vm_compute. Qed.
End CatalogFacts.

(** * More properties of the code *)

(** ** The API client, attempt by attempt *)

Lemma sleeps_emit (e : event) (st : state) :
  sleeps (emit e st)
  = (sleeps st ++ match e with ESleep s => [s] | _ => [] end)%list.
Proof.
  unfold sleeps, emit. simpl. rewrite omap_app. by destruct e.
Qed.

(** The state after a request was sent, seen through the three logs. *)
Lemma sent_logs (net : network) (rq : request) (st : state) :
  sent (http_get net rq st).2 = S (sent st)
  /\ warnings (http_get net rq st).2 = warnings st
  /\ sleeps (http_get net rq st).2 = sleeps st
  /\ requests (http_get net rq st).2 = (requests st ++ [rq])%list.
Proof.
  unfold http_get, warnings, sleeps, requests. simpl.
  rewrite !omap_app. simpl. by rewrite !app_nil_r.
Qed.

Ltac logs :=
  rewrite ?warnings_emit, ?sleeps_emit, ?requests_emit, ?app_nil_r.

(** Whatever the answer, an attempt makes one request and warns of nothing. *)
Lemma try_body_one_request (net : network) (rq : request) (backoff : Z) (attempt : nat)
    (st : state) :
  sent (try_body net rq backoff attempt st).2 = S (sent st)
  /\ warnings (try_body net rq backoff attempt st).2 = warnings st
  /\ requests (try_body net rq backoff attempt st).2 = (requests st ++ [rq])%list.
Proof.
  pose proof (sent_logs net rq st) as (H1 & H2 & _ & H4).
  unfold try_body. destruct (http_get net rq st) as [[r|e] st1]; simpl in *; [|done].
  destruct (_ && _).
  - destruct (resp_json r); cbv beta zeta iota delta [snd]; logs; done.
  - unfold py_sleep.
    destruct (_ || _), (backoff * Z.of_nat attempt <? 0), (Z.eqb (status_code r) 204);
      cbv beta zeta iota delta [snd]; logs; done.
Qed.

(** An attempt that delivers returns the document at once, without a sleep. *)
Lemma try_body_delivers (net : network) (rq : request) (backoff : Z) (attempt : nat)
    (st : state) (v : json) :
  delivers (net (sent st) rq) v ->
  exists st1, try_body net rq backoff attempt st = (Returned v, st1)
    /\ sleeps st1 = sleeps st.
Proof.
  intros (r & Hr & Hs & Hc & Hj).
  pose proof (sent_logs net rq st) as (_ & _ & H3 & _).
  unfold try_body. unfold http_get in *. rewrite Hr.
  rewrite Hs, Hc, Hj. simpl in *. eexists. split; [reflexivity|]. by logs.
Qed.

(** One turn of the loop on an attempt that does not deliver: a request,
    one sleep of [backoff * attempt], no warning, then the next attempt. *)
Lemma attempt_fails_step (net : network) (rq : request) (backoff : Z)
    (attempt : nat) (later : list nat) (last_exc : option exn) (st : state) :
  sleep_fits (backoff * Z.of_nat attempt) ->
  (forall v, ~ delivers (net (sent st) rq) v) ->
  exists last_exc' st2,
    attempt_loop net rq backoff (attempt :: later) last_exc st
    = attempt_loop net rq backoff later last_exc' st2
    /\ sent st2 = S (sent st)
    /\ warnings st2 = warnings st
    /\ requests st2 = (requests st ++ [rq])%list
    /\ sleeps st2 = (sleeps st ++ [backoff * Z.of_nat attempt])%list.
Proof.
  intros Hb Hno. cbn [attempt_loop].
  pose proof (sent_logs net rq st) as (H1 & H2 & H3 & H4).
  unfold try_body. unfold http_get in *. simpl in *.
  destruct (net (sent st) rq) as [r|e] eqn:Hr.
  - destruct (_ && _) eqn:E.
    + apply andb_true_iff in E as [E1%Z.eqb_eq E2].
      destruct (resp_json r) as [v|e] eqn:Hj.
      { exfalso. apply (Hno v). by exists r. }
      rewrite py_sleep_ok by done. eexists _, _. split; [reflexivity|].
      logs. by rewrite H2, H3, H4.
    + rewrite py_sleep_ok by done. eexists _, _. split; [reflexivity|].
      destruct (Z.eqb (status_code r) 204); logs; by rewrite H2, H3, H4.
  - rewrite py_sleep_ok by done. eexists _, _. split; [reflexivity|].
    logs. by rewrite H2, H3, H4.
Qed.

Lemma attempt_loop_delivers (net : network) (rq : request) (backoff : Z) (v : json) :
  forall (k a n : nat) (last_exc : option exn) (st : state),
    Forall (fun attempt => sleep_fits (backoff * Z.of_nat attempt)) (seq a k) ->
    (k < n)%nat ->
    (forall i, (i < k)%nat -> forall w, ~ delivers (net (sent st + i)%nat rq) w) ->
    delivers (net (sent st + k)%nat rq) v ->
    exists st',
      attempt_loop net rq backoff (seq a n) last_exc st = (LReturn v, st')
      /\ sent st' = (sent st + S k)%nat
      /\ requests st' = (requests st ++ replicate (S k) rq)%list
      /\ warnings st' = warnings st
      /\ sleeps st'
         = (sleeps st ++ ((fun i => backoff * Z.of_nat i) <$> seq a k))%list.
Proof.
  induction k as [|k IH]; intros a n last_exc st Hb Hk Hno Hyes;
    (destruct n as [|n]; [lia|]); cbn [seq].
  - rewrite Nat.add_0_r in Hyes. cbn [attempt_loop].
    destruct (try_body_delivers net rq backoff a st v Hyes) as (st1 & E & Hs).
    pose proof (try_body_one_request net rq backoff a st) as (H1 & H2 & H3).
    rewrite E in *. simpl in *. exists st1.
    split; [done|]. split; [lia|]. split; [done|]. split; [done|]. by rewrite app_nil_r.
  - cbn [seq] in Hb. apply Forall_cons in Hb as [Hb Hbs].
    destruct (attempt_fails_step net rq backoff a (seq (S a) n) last_exc st Hb)
      as (le & st2 & -> & Hs2 & Hw2 & Hr2 & Hz2).
    { specialize (Hno 0%nat). rewrite Nat.add_0_r in Hno. apply Hno. lia. }
    destruct (IH (S a) n le st2) as (st' & -> & Hs & Hr & Hw & Hz); [done | lia | | |].
    + intros i Hi. rewrite Hs2.
      replace (S (sent st) + i)%nat with (sent st + S i)%nat by lia.
      apply Hno. lia.
    + rewrite Hs2. by replace (S (sent st) + k)%nat with (sent st + S k)%nat by lia.
    + exists st'. split; [done|]. split; [lia|]. split.
      { rewrite Hr, Hr2, <- app_assoc. done. }
      split; [congruence|]. rewrite Hz, Hz2, <- app_assoc. done.
Qed.

(** X1. Success after failures. When attempt [k + 1] is the first whose
    answer delivers a document (HTTP 200, JSON content type, a body that
    decodes), and [time.sleep] accepts the waits up to [k * backoff], the
    client returns that document after exactly [k + 1] requests, all the
    same, having slept [backoff], [2 * backoff], ..., [k * backoff]
    between them, and it emits no warning, also when earlier attempts
    raised exceptions. *)
Theorem call_dell_api_delivers (net : network) (productcode oscode country : string)
    (retries : nat) (backoff : Z) (st : state) (k : nat) (v : json) :
  0 <= backoff ->
  backoff * Z.of_nat k <= sleep_max ->
  (k < retries)%nat ->
  (forall i, (i < k)%nat -> forall w,
     ~ delivers (net (sent st + i)%nat (build_request productcode oscode country)) w) ->
  delivers (net (sent st + k)%nat (build_request productcode oscode country)) v ->
  exists st',
    call_dell_api net productcode oscode country retries backoff st = (Ok v, st')
    /\ sent st' = (sent st + S k)%nat
    /\ requests st'
       = (requests st ++ replicate (S k) (build_request productcode oscode country))%list
    /\ warnings st' = warnings st
    /\ sleeps st' = (sleeps st ++ backoff_waits backoff k)%list.
Proof.
  intros Hb Hmax Hk Hno Hyes. unfold call_dell_api.
  destruct (attempt_loop_delivers net _ backoff v k 1 retries None st
              (sleeps_fit_upto backoff k Hb Hmax) Hk Hno Hyes)
    as (st' & -> & H). by exists st'.
Qed.

Lemma call_dell_api_delivers_witness :
  exists st',
    call_dell_api flaky_net "R750" "NAA" COUNTRY 3 2 start
    = (Ok (driver_list [ vendor_entry "System CPLD" "1.2" "10 Jan 2024" ]), st')
    /\ sent st' = (sent start + 3)%nat
    /\ requests st'
       = (requests start ++ replicate 3 (build_request "R750" "NAA" COUNTRY))%list
    /\ warnings st' = warnings start
    /\ sleeps st' = (sleeps start ++ backoff_waits 2 2)%list.
Proof.
  apply (call_dell_api_delivers flaky_net "R750" "NAA" COUNTRY 3 2 start 2).
  - lia.
  - by vm_compute.
  - lia.
  - intros i Hi w (r & Hr & Hs & _).
    destruct i as [|[|i]]; [discriminate Hr | | lia].
    injection Hr as <-. discriminate Hs.
  - eexists. repeat split; reflexivity.
Defined.

Lemma attempt_loop_never_delivers (net : network) (rq : request) (backoff : Z) :
  forall (n a : nat) (last_exc : option exn) (st : state),
    Forall (fun attempt => sleep_fits (backoff * Z.of_nat attempt)) (seq a n) ->
    (forall i, (i < n)%nat -> forall w, ~ delivers (net (sent st + i)%nat rq) w) ->
    exists last_exc' st',
      attempt_loop net rq backoff (seq a n) last_exc st = (LExhausted last_exc', st')
      /\ sent st' = (sent st + n)%nat
      /\ requests st' = (requests st ++ replicate n rq)%list
      /\ warnings st' = warnings st
      /\ sleeps st'
         = (sleeps st ++ ((fun i => backoff * Z.of_nat i) <$> seq a n))%list.
Proof.
  induction n as [|n IH]; intros a last_exc st Hb Hno; cbn [seq].
  - exists last_exc, st. cbn. split; [done|]. split; [lia|].
    by rewrite !app_nil_r.
  - cbn [seq] in Hb. apply Forall_cons in Hb as [Hb Hbs].
    destruct (attempt_fails_step net rq backoff a (seq (S a) n) last_exc st Hb)
      as (le & st2 & -> & Hs2 & Hw2 & Hr2 & Hz2).
    { specialize (Hno 0%nat). rewrite Nat.add_0_r in Hno. apply Hno. lia. }
    destruct (IH (S a) le st2 Hbs) as (le' & st' & -> & Hs & Hr & Hw & Hz).
    + intros i Hi. rewrite Hs2.
      replace (S (sent st) + i)%nat with (sent st + S i)%nat by lia.
      apply Hno. lia.
    + exists le', st'. split; [done|]. split; [lia|]. split.
      { rewrite Hr, Hr2, <- app_assoc. done. }
      split; [congruence|]. rewrite Hz, Hz2, <- app_assoc. done.
Qed.

(** A call none of whose attempts delivers. *)
Lemma call_dell_api_exhausts (net : network)
    (productcode oscode country : string) (retries : nat) (backoff : Z) (st : state) :
  0 <= backoff ->
  backoff * Z.of_nat retries <= sleep_max ->
  (forall i, (i < retries)%nat -> forall w,
     ~ delivers (net (sent st + i)%nat (build_request productcode oscode country)) w) ->
  exists st' ws,
    call_dell_api net productcode oscode country retries backoff st = (Ok JNull, st')
    /\ sent st' = (sent st + retries)%nat
    /\ requests st'
       = (requests st ++ replicate retries (build_request productcode oscode country))%list
    /\ sleeps st' = (sleeps st ++ backoff_waits backoff retries)%list
    /\ warnings st' = (warnings st ++ ws)%list
    /\ (List.length ws <= 1)%nat.
Proof.
  intros Hb Hmax Hno. unfold call_dell_api.
  destruct (attempt_loop_never_delivers net _ backoff retries 1 None st
              (sleeps_fit_upto backoff retries Hb Hmax) Hno)
    as (le & st' & -> & Hs & Hr & Hw & Hz).
  destruct le as [e|].
  - eexists _, [_]. split; [reflexivity|]. logs.
    split; [done|]. split; [done|]. split; [done|].
    split; [by rewrite Hw | simpl; lia].
  - exists st', []. rewrite app_nil_r. repeat split; try done. simpl. lia.
Qed.

(** X2. Exhaustion. When no attempt delivers a document, answers 200 with
    a JSON content type whose body does not decode included, and
    [time.sleep] accepts the waits up to [retries * backoff], the client
    returns [None] after exactly [retries] requests, all the same, having
    slept [backoff], [2 * backoff], ..., [retries * backoff], one sleep
    after each attempt, the last one included; it emits at most one
    warning. *)
Theorem call_dell_api_never_delivered (net : network)
    (productcode oscode country : string) (retries : nat) (backoff : Z) (st : state) :
  0 <= backoff ->
  backoff * Z.of_nat retries <= sleep_max ->
  (forall i, (i < retries)%nat -> forall w,
     ~ delivers (net (sent st + i)%nat (build_request productcode oscode country)) w) ->
  exists st' ws,
    call_dell_api net productcode oscode country retries backoff st = (Ok JNull, st')
    /\ sent st' = (sent st + retries)%nat
    /\ requests st'
       = (requests st ++ replicate retries (build_request productcode oscode country))%list
    /\ sleeps st' = (sleeps st ++ backoff_waits backoff retries)%list
    /\ warnings st' = (warnings st ++ ws)%list
    /\ (List.length ws <= 1)%nat.
Proof. apply call_dell_api_exhausts. Qed.

Lemma call_dell_api_never_delivered_witness :
  exists st' ws,
    call_dell_api garbled_net "R750" "NAA" COUNTRY 3 2 start = (Ok JNull, st')
    /\ sent st' = (sent start + 3)%nat
    /\ requests st'
       = (requests start ++ replicate 3 (build_request "R750" "NAA" COUNTRY))%list
    /\ sleeps st' = (sleeps start ++ backoff_waits 2 3)%list
    /\ warnings st' = (warnings start ++ ws)%list
    /\ (List.length ws <= 1)%nat.
Proof.
  apply (call_dell_api_never_delivered garbled_net "R750" "NAA" COUNTRY 3 2 start).
  - lia.
  - by vm_compute.
  - intros i _ w (r & [= <-] & _ & _ & H). discriminate H.
Defined.

Example call_dell_api_garbled_warns :
  warnings (call_dell_api garbled_net "R750" "NAA" COUNTRY 3 2 start).2
  = ["call_dell_api(R750, NAA) failed: Expecting value: line 1 column 1 (char 0)"].
Proof. vm_compute. reflexivity. Qed.

Lemma try_body_returned (net : network) (rq : request) (backoff : Z) (attempt : nat)
    (st st1 : state) (v : json) :
  try_body net rq backoff attempt st = (Returned v, st1) ->
  delivers (net (sent st) rq) v.
Proof.
  unfold try_body, http_get. destruct (net (sent st) rq) as [r|e]; [|done].
  destruct (_ && _) eqn:E.
  - apply andb_true_iff in E as [E1%Z.eqb_eq E2].
    destruct (resp_json r) as [w|e] eqn:Hj; [|done]. intros [= <- _]. by exists r.
  - by destruct (py_sleep _ _) as [[[]|e] st2].
Qed.

(** How the loop can end, whatever the service does. *)
Lemma attempt_loop_outcome (net : network) (rq : request) (backoff : Z)
    (attempts : list nat) :
  Forall (fun attempt => sleep_fits (backoff * Z.of_nat attempt)) attempts ->
  forall (last_exc : option exn) (st : state),
    exists st',
      (sent st <= sent st' <= sent st + List.length attempts)%nat
      /\ (attempts <> [] -> (sent st < sent st')%nat)
      /\ requests st' = (requests st ++ replicate (sent st' - sent st) rq)%list
      /\ warnings st' = warnings st
      /\ ((exists last_exc',
             attempt_loop net rq backoff attempts last_exc st = (LExhausted last_exc', st'))
          \/ (exists v n,
                attempt_loop net rq backoff attempts last_exc st = (LReturn v, st')
                /\ (sent st <= n < sent st')%nat
                /\ delivers (net n rq) v)).
Proof.
  assert (Hrep : forall (st st1 st' : state),
            sent st1 = S (sent st) -> (sent st1 <= sent st')%nat ->
            requests st1 = (requests st ++ [rq])%list ->
            requests st' = (requests st1 ++ replicate (sent st' - sent st1) rq)%list ->
            requests st' = (requests st ++ replicate (sent st' - sent st) rq)%list).
  { intros st st1 st' E1 Hle E2 ->. rewrite E2, <- app_assoc. f_equal.
    replace (sent st' - sent st)%nat with (S (sent st' - sent st1)) by lia. done. }
  induction 1 as [|attempt later Hb _ IH]; intros last_exc st.
  - exists st. simpl. split; [lia|]. split; [done|].
    rewrite Nat.sub_diag, app_nil_r. split; [done|]. split; [done|]. left. eauto.
  - cbn [attempt_loop List.length].
    pose proof (try_body_one_request net rq backoff attempt st) as (Hs & Hw & Hr).
    destruct (try_body net rq backoff attempt st) as [[v| |e] st1] eqn:E;
      simpl in Hs, Hw, Hr.
    + exists st1. split; [lia|]. split; [lia|]. split.
      { rewrite Hr, Hs. by replace (S (sent st) - sent st)%nat with 1%nat by lia. }
      split; [done|].
      right. exists v, (sent st). split; [done|]. split; [lia|].
      by eapply try_body_returned.
    + destruct (IH last_exc st1) as (st' & H1 & _ & H2 & H3 & H4).
      exists st'. split; [lia|]. split; [lia|].
      split; [apply (Hrep st st1 st'); auto; lia|]. split; [congruence|].
      destruct H4 as [[le ->] | (v & n & -> & Hn & Hd)]; [left; eauto|].
      right. exists v, n. split; [done|]. split; [lia | done].
    + rewrite py_sleep_ok by done.
      set (st2 := emit (ESleep _) _).
      destruct (IH (Some e) st2) as (st' & H1 & _ & H2 & H3 & H4).
      assert (Hs2 : sent st2 = S (sent st)) by done.
      assert (Hw2 : warnings st2 = warnings st).
      { unfold st2. logs. done. }
      assert (Hr2 : requests st2 = (requests st ++ [rq])%list).
      { unfold st2. logs. done. }
      exists st'. split; [lia|]. split; [lia|].
      split; [apply (Hrep st st2 st'); auto; lia|]. split; [congruence|].
      destruct H4 as [[le ->] | (v & n & -> & Hn & Hd)]; [left; eauto|].
      right. exists v, n. split; [done|]. split; [lia | done].
Qed.

(** What a call gives, whatever the service does: [None], or the document
    of one of the answers it got. *)
Lemma call_dell_api_outcome (net : network) (productcode oscode country : string)
    (retries : nat) (backoff : Z) (st : state) :
  0 <= backoff ->
  backoff * Z.of_nat retries <= sleep_max ->
  exists v st' ws,
    call_dell_api net productcode oscode country retries backoff st = (Ok v, st')
    /\ (sent st <= sent st' <= sent st + retries)%nat
    /\ ((0 < retries)%nat -> (sent st < sent st')%nat)
    /\ requests st'
       = (requests st
          ++ replicate (sent st' - sent st) (build_request productcode oscode country))%list
    /\ warnings st' = (warnings st ++ ws)%list
    /\ (List.length ws <= 1)%nat
    /\ (v = JNull
        \/ (ws = []
            /\ exists n, (sent st <= n < sent st')%nat
                 /\ delivers (net n (build_request productcode oscode country)) v)).
Proof.
  intros Hb Hmax. unfold call_dell_api.
  destruct (attempt_loop_outcome net (build_request productcode oscode country)
              backoff (seq 1 retries) (sleeps_fit_upto backoff retries Hb Hmax) None st)
    as (st' & H1 & H2 & Hr & H3 & H4).
  rewrite length_seq in H1.
  assert (H2' : (0 < retries)%nat -> (sent st < sent st')%nat).
  { intros Hpos. apply H2. destruct retries; [lia | done]. }
  destruct H4 as [[le ->] | (v & n & -> & Hn & Hd)].
  - destruct le as [e|].
    + eexists JNull, _, [_]. split; [reflexivity|]. logs.
      split; [done|]. split; [done|]. split; [done|].
      split; [by rewrite H3|]. split; [simpl; lia | by left].
    + exists JNull, st', []. rewrite app_nil_r.
      split_and!; try done; try lia; try (simpl; lia). by left.
  - exists v, st', []. rewrite app_nil_r.
    split_and!; try done; try lia; try (simpl; lia).
    right. split; [done|]. by exists n.
Qed.

(** X3. Bounded retries. With a backoff whose waits [time.sleep] accepts
    (not negative, and [retries * backoff] at most 9223372036 seconds) and
    whatever the service does, a call never raises; it makes at least one
    request (when [retries] is positive) and at most [retries], all the
    same; it emits at most one warning; and what it returns is [None] or
    the document of an answer it received, in which case it emits no
    warning. *)
Theorem call_dell_api_bounded (net : network) (productcode oscode country : string)
    (retries : nat) (backoff : Z) (st : state) :
  0 <= backoff ->
  backoff * Z.of_nat retries <= sleep_max ->
  exists v st' ws,
    call_dell_api net productcode oscode country retries backoff st = (Ok v, st')
    /\ (sent st <= sent st' <= sent st + retries)%nat
    /\ ((0 < retries)%nat -> (sent st < sent st')%nat)
    /\ requests st'
       = (requests st
          ++ replicate (sent st' - sent st) (build_request productcode oscode country))%list
    /\ warnings st' = (warnings st ++ ws)%list
    /\ (List.length ws <= 1)%nat
    /\ (v = JNull
        \/ (ws = []
            /\ exists n, (sent st <= n < sent st')%nat
                 /\ delivers (net n (build_request productcode oscode country)) v)).
Proof. apply call_dell_api_outcome. Qed.

Lemma call_dell_api_bounded_witness :
  exists v st' ws,
    call_dell_api flaky_net "R750" "NAA" COUNTRY 3 2 start = (Ok v, st')
    /\ (sent start <= sent st' <= sent start + 3)%nat
    /\ ((0 < 3)%nat -> (sent start < sent st')%nat)
    /\ requests st'
       = (requests start
          ++ replicate (sent st' - sent start) (build_request "R750" "NAA" COUNTRY))%list
    /\ warnings st' = (warnings start ++ ws)%list
    /\ (List.length ws <= 1)%nat
    /\ (v = JNull
        \/ (ws = []
            /\ exists n, (sent start <= n < sent st')%nat
                 /\ delivers (flaky_net n (build_request "R750" "NAA" COUNTRY)) v)).
Proof.
  apply (call_dell_api_bounded flaky_net "R750" "NAA" COUNTRY 3 2 start).
  - lia.
  - by vm_compute.
Defined.

(** X4. A negative backoff. The sleeps are not guarded: with a negative
    backoff, a first attempt that does not deliver makes the call raise
    after that single request, instead of retrying. What [time.sleep]
    raises is [ValueError] for a length down to -9223372036 seconds, and
    [OverflowError] below, where the length does not fit. *)
Theorem call_dell_api_negative_backoff (net : network)
    (productcode oscode country : string) (retries : nat) (backoff : Z) (st : state) :
  backoff < 0 ->
  (0 < retries)%nat ->
  (forall w, ~ delivers (net (sent st) (build_request productcode oscode country)) w) ->
  exists st',
    call_dell_api net productcode oscode country retries backoff st
    = (Raise (if - sleep_max <=? backoff
              then Exn ValueError "sleep length must be non-negative"
              else Exn OverflowError "timestamp too large to convert to C _PyTime_t"),
       st')
    /\ sent st' = S (sent st).
Proof.
  intros Hb Hr Hno. unfold call_dell_api.
  destruct retries as [|n]; [lia|]. cbn [seq attempt_loop].
  assert (Hsleep : forall st0,
            py_sleep (backoff * Z.of_nat 1) st0
            = (Raise (if - sleep_max <=? backoff
                      then Exn ValueError "sleep length must be non-negative"
                      else Exn OverflowError "timestamp too large to convert to C _PyTime_t"),
               st0)).
  { intros st0. unfold py_sleep. rewrite Z.mul_1_r.
    replace (sleep_max <? backoff) with false
      by (symmetry; apply Z.ltb_ge; unfold sleep_max; lia).
    rewrite orb_false_r.
    destruct (- sleep_max <=? backoff) eqn:E.
    - apply Z.leb_le in E. rewrite (proj2 (Z.ltb_ge _ _) E).
      by rewrite (proj2 (Z.ltb_lt _ _) Hb).
    - apply Z.leb_gt in E. by rewrite (proj2 (Z.ltb_lt _ _) E). }
  unfold try_body, http_get.
  destruct (net (sent st) _) as [r|e] eqn:Hnet.
  - destruct (_ && _) eqn:E.
    + apply andb_true_iff in E as [E1%Z.eqb_eq E2].
      destruct (resp_json r) as [v|e] eqn:Hj.
      { exfalso. apply (Hno v). by exists r. }
      rewrite Hsleep. eauto.
    + rewrite !Hsleep. eexists. split; [reflexivity|].
      by destruct (Z.eqb (status_code r) 204).
  - rewrite Hsleep. eauto.
Qed.

Lemma call_dell_api_negative_backoff_witness :
  exists st',
    call_dell_api down_net "R750" "NAA" COUNTRY 3 (-2) start
    = (Raise (if - sleep_max <=? -2
              then Exn ValueError "sleep length must be non-negative"
              else Exn OverflowError "timestamp too large to convert to C _PyTime_t"),
       st')
    /\ sent st' = S (sent start).
Proof.
  apply (call_dell_api_negative_backoff down_net "R750" "NAA" COUNTRY 3 (-2) start).
  - lia.
  - lia.
  - intros w (r & H & _). discriminate H.
Defined.

Example call_dell_api_negative_overflow :
  (call_dell_api down_net "R750" "NAA" COUNTRY 3 (-10000000000) start).1
  = Raise (Exn OverflowError "timestamp too large to convert to C _PyTime_t").
Proof. by vm_compute. Qed.

(** ** The row normalizer, field by field *)

(** What the normalizer makes of the three sources of a driver id and of
    the download path. *)
Lemma normalize_row_ids (m : gmap string json) (r : Row) :
  normalize_row (JObj m) = Ok r ->
  exists ffi : gmap string json,
    py_or (default JNull (m !! "FileFrmtInfo")) (JObj ∅) = JObj ffi
    /\ DownloadUrl r = default JNull (ffi !! "Path")
    /\ DriverId r
       = (if truthy (default JNull (m !! "DriverId"))
          then default JNull (m !! "DriverId")
          else if truthy (default JNull (m !! "DriverIdEN"))
               then default JNull (m !! "DriverIdEN")
               else default JNull (ffi !! "FileId")).
Proof.
  unfold normalize_row. cbn [py_get rbind].
  change (match m !! "FileFrmtInfo" with Some x => x | None => JNull end)
    with (default JNull (m !! "FileFrmtInfo")).
  change (match m !! "DriverId" with Some x => x | None => JNull end)
    with (default JNull (m !! "DriverId")).
  change (match m !! "DriverIdEN" with Some x => x | None => JNull end)
    with (default JNull (m !! "DriverIdEN")).
  destruct (py_or (default JNull (m !! "FileFrmtInfo")) (JObj ∅)) as [| | | | |ffi];
    try (repeat (match goal with |- context [if ?b then _ else _] => destruct b end;
                 cbn [py_get rbind]); discriminate).
  cbn [py_get rbind].
  destruct (truthy (default JNull (m !! "DriverId"))); cbn [rbind].
  - intros [= <-]. by exists ffi.
  - destruct (truthy (default JNull (m !! "DriverIdEN"))); cbn [rbind];
      intros [= <-]; by exists ffi.
Qed.

(** X5. The driver id and the download URL. The driver id of a row is the
    value under [DriverId] unless it is missing or empty, else the value
    under [DriverIdEN] unless it is missing or empty, else the [FileId] of
    the [FileFrmtInfo] mapping, and [None] when that is missing too; a
    value that is present but empty (["" ], [0], [null]) is passed over. The
    download URL is the [Path] of [FileFrmtInfo], [None] when missing. *)
Theorem normalize_row_driver_id (m : gmap string json) (r : Row) :
  normalize_row (JObj m) = Ok r ->
  exists ffi : gmap string json,
    py_or (default JNull (m !! "FileFrmtInfo")) (JObj ∅) = JObj ffi
    /\ DownloadUrl r = default JNull (ffi !! "Path")
    /\ DriverId r
       = (if truthy (default JNull (m !! "DriverId"))
          then default JNull (m !! "DriverId")
          else if truthy (default JNull (m !! "DriverIdEN"))
               then default JNull (m !! "DriverIdEN")
               else default JNull (ffi !! "FileId")).
Proof. apply normalize_row_ids. Qed.

Lemma normalize_row_driver_id_witness :
  exists ffi : gmap string json,
    py_or (default JNull (three_ids_entry !! "FileFrmtInfo")) (JObj ∅) = JObj ffi
    /\ DownloadUrl three_ids_row = default JNull (ffi !! "Path")
    /\ DriverId three_ids_row
       = (if truthy (default JNull (three_ids_entry !! "DriverId"))
          then default JNull (three_ids_entry !! "DriverId")
          else if truthy (default JNull (three_ids_entry !! "DriverIdEN"))
               then default JNull (three_ids_entry !! "DriverIdEN")
               else default JNull (ffi !! "FileId")).
Proof.
  apply (normalize_row_driver_id three_ids_entry three_ids_row).
  vm_compute. reflexivity.
Defined.

Lemma normalize_row_ok_inv (d : json) (r : Row) :
  normalize_row d = Ok r -> mapping_entry d.
Proof.
  intros H. destruct d as [| | | | |m]; try discriminate H.
  apply normalize_row_ids in H as (ffi & Hffi & _).
  exists m. split; [done|]. destruct (m !! "FileFrmtInfo") as [v|]; [|done].
  simpl in Hffi. unfold py_or in Hffi. destruct (truthy v) eqn:Hv; [|by left].
  right. by exists ffi.
Qed.

Lemma rmapM_Ok_Forall {A B} (f : A -> res B) (xs : list A) (ys : list B) :
  rmapM f xs = Ok ys -> Forall (fun x => exists y, f x = Ok y) xs.
Proof.
  revert ys. induction xs as [|x xs IH]; intros ys; simpl; [constructor|].
  destruct (f x) as [y|e] eqn:Hy; [|done]. simpl.
  destruct (rmapM f xs) as [ys'|e]; [|done]. simpl.
  intros _. constructor; eauto.
Qed.

(** X6. One bad entry loses the response. On a response whose
    [DriverListData] is a list, [parse_rows] returns rows if and only if
    every entry of the list is a mapping whose [FileFrmtInfo] is absent,
    empty or a mapping; a single entry of another kind makes the whole call
    raise, the good entries included. *)
Theorem parse_rows_all_or_nothing (m : gmap string json) (l : list json) :
  m !! "DriverListData" = Some (JArr l) ->
  (exists rows, parse_rows (JObj m) = Ok rows) <-> Forall mapping_entry l.
Proof.
  intros Hl. unfold parse_rows.
  assert (Ht : truthy (JObj m) = true).
  { simpl. apply negb_true_iff, bool_decide_eq_false. intros ->.
    by rewrite lookup_empty in Hl. }
  rewrite Ht. cbn [negb py_in rbind py_getitem]. rewrite Hl.
  rewrite bool_decide_true by eauto. cbn [negb rbind py_iter]. split.
  - intros [rows H]. apply rmapM_Ok_Forall in H.
    eapply Forall_impl; [exact H|]. intros d [r Hr]. by eapply normalize_row_ok_inv.
  - intros H.
    destruct (rmapM_Forall2 normalize_row mapping_entry l normalize_row_ok H)
      as (rows & Hrows & _).
    by exists rows.
Qed.

Lemma parse_rows_all_or_nothing_witness :
  (exists rows, parse_rows (JObj one_bad_entry) = Ok rows)
  <-> Forall mapping_entry [ vendor_entry "System CPLD" "1.2" "10 Jan 2024"; JStr "n/a" ].
Proof.
  apply (parse_rows_all_or_nothing one_bad_entry).
  vm_compute. reflexivity.
Defined.

Example parse_rows_one_bad_entry :
  parse_rows (JObj one_bad_entry)
  = Raise (Exn AttributeError "object has no attribute 'get'").
Proof. vm_compute. reflexivity. Qed.

(** ** The date parser on well-formed texts *)

(** On a text made of a day, blanks, a month, blanks and a year, [strptime]
    is the constructor of dates applied to the three numbers. *)
Lemma strptime_on_text (s : string) (dt b1 mo b2 yt : list ascii) (dd mm yy : Z) :
  list_ascii_of_string s = (dt ++ b1 ++ mo ++ b2 ++ yt)%list ->
  day_text dt dd -> blanks b1 -> month_text mo mm -> blanks b2 -> year_text yt yy ->
  strptime_d_b_Y (JStr s) = datetime_date yy mm dd.
Proof.
  intros Hs Hd H1 Hmo H2 Hy. unfold strptime_d_b_Y.
  pose proof (match_of_date_text _ _ _ _ _ _ _ _ Hd H1 Hmo H2 Hy) as Hm.
  assert (Hin : ([("d", dt); ("b", mo); ("Y", yt)], [])
                ∈ rmatch re_d_b_Y (list_ascii_of_string s)).
  { apply rmatch_spec. eexists. split; [|exact Hm]. by rewrite app_nil_r. }
  destruct (rmatch re_d_b_Y (list_ascii_of_string s)) as [|[g rest] l] eqn:E.
  { by apply elem_of_nil in Hin. }
  assert (Hhd : (g, rest) ∈ rmatch re_d_b_Y (list_ascii_of_string s))
    by (rewrite E; left).
  apply rmatch_spec in Hhd as (w & Hw & Hm').
  apply date_text_of_match in Hm'
    as (dt' & b1' & mo' & b2' & yt' & dd' & mm' & yy' & -> & -> & Hd' & H1' & Hmo' & H2' & Hy').
  rewrite Hs, <- (app_nil_r (dt ++ _)) in Hw.
  destruct (date_text_unique _ _ _ _ _ _ _ _ _ _ _ _ _ _ _ _ _ _
              Hd H1 Hmo H2 Hy Hd' H1' Hmo' H2' Hy' Hw) as (<- & <- & <- & <-).
  by rewrite (strptime_fields _ _ _ _ _ _ Hd Hmo Hy).
Qed.

(** The "DD Mon YYYY" text of three numbers in the ranges of the format,
    whether or not they make a date. *)
Lemma dd_mon_yyyy_text_fields (y m dd : Z) :
  0 <= y <= 9999 -> 1 <= m <= 12 -> 1 <= dd <= 31 ->
  exists dt b1 mo b2 yt,
    list_ascii_of_string (dd_mon_yyyy_text (Date y m dd))
    = (dt ++ b1 ++ mo ++ b2 ++ yt)%list
    /\ day_text dt dd /\ blanks b1 /\ month_text mo m /\ blanks b2 /\ year_text yt y.
Proof.
  intros Hy Hm Hd.
  pose proof (digit_char_spec (dd / 10)) as [Hd1 Hv1].
  pose proof (digit_char_spec dd) as [Hd2 Hv2].
  pose proof (digit_char_spec (y / 10 / 10 / 10)) as [Hy1 Hw1].
  pose proof (digit_char_spec (y / 10 / 10)) as [Hy2 Hw2].
  pose proof (digit_char_spec (y / 10)) as [Hy3 Hw3].
  pose proof (digit_char_spec y) as [Hy4 Hw4].
  exists [digit_char (dd / 10); digit_char dd], [" "%char],
         (list_ascii_of_string (nth (Z.to_nat (m - 1)) month_abbr "")),
         [" "%char],
         [digit_char (y / 10 / 10 / 10); digit_char (y / 10 / 10);
          digit_char (y / 10); digit_char y].
  split; [|split; [|split; [|split; [|split]]]].
  - unfold dd_mon_yyyy_text. cbn [zero_padded year month day].
    destruct (month_cases _ Hm) as [-> | [-> | [-> | [-> | [-> | [-> | [-> | [-> | [-> | [-> | [-> | ->]]]]]]]]]]];
      reflexivity.
  - replace dd with (10 * digit_val (digit_char (dd / 10))
                     + digit_val (digit_char dd)) at 3
      by (rewrite Hv1, Hv2; Z.div_mod_to_equations; lia).
    apply day_two; [done..|]. rewrite Hv1, Hv2. Z.div_mod_to_equations. lia.
  - split; [done | by repeat constructor].
  - split; [done|].
    destruct (month_cases _ Hm) as [-> | [-> | [-> | [-> | [-> | [-> | [-> | [-> | [-> | [-> | [-> | ->]]]]]]]]]]];
      reflexivity.
  - split; [done | by repeat constructor].
  - do 4 eexists. split; [reflexivity|]. repeat (split; [done|]).
    rewrite Hw1, Hw2, Hw3, Hw4. Z.div_mod_to_equations. lia.
Qed.

(** X7. Days that do not exist. On the "DD Mon YYYY" text of a day from 01
    to 31, a month and a four-digit year, the parser returns the date when
    the day is within the length of the month (29 for February in leap
    years only) and the year is not 0000, and [None] otherwise: "31 Apr",
    "30 Feb", "29 Feb" of a common year and the year 0000 are turned down
    without an exception. *)
Theorem parse_date_calendar (y m dd : Z) :
  0 <= y <= 9999 -> 1 <= m <= 12 -> 1 <= dd <= 31 ->
  parse_date (JStr (dd_mon_yyyy_text (Date y m dd)))
  = if (1 <=? y) && (dd <=? days_in_month y m) then Some (Date y m dd) else None.
Proof.
  intros Hy Hm Hd.
  destruct (dd_mon_yyyy_text_fields y m dd Hy Hm Hd)
    as (dt & b1 & mo & b2 & yt & Hs & Hdt & H1 & Hmo & H2 & Hyt).
  unfold parse_date.
  rewrite (strptime_on_text _ _ _ _ _ _ _ _ _ Hs Hdt H1 Hmo H2 Hyt).
  unfold datetime_date.
  replace (y <=? 9999) with true by (symmetry; apply Z.leb_le; lia).
  replace (1 <=? m) with true by (symmetry; apply Z.leb_le; lia).
  replace (m <=? 12) with true by (symmetry; apply Z.leb_le; lia).
  replace (1 <=? dd) with true by (symmetry; apply Z.leb_le; lia).
  rewrite !andb_true_r. by destruct (_ && _).
Qed.

Lemma parse_date_calendar_witness :
  parse_date (JStr (dd_mon_yyyy_text (Date 1900 2 29)))
  = if (1 <=? 1900) && (29 <=? days_in_month 1900 2) then Some (Date 1900 2 29) else None.
Proof. apply (parse_date_calendar 1900 2 29); lia. Defined.

Example parse_date_29_feb_1900 : parse_date (JStr "29 Feb 1900") = None.
Proof. by vm_compute. Qed.
Example parse_date_29_feb_2000 : parse_date (JStr "29 Feb 2000") = Some (Date 2000 2 29).
Proof. by vm_compute. Qed.
Example parse_date_31_apr : parse_date (JStr "31 Apr 2024") = None.
Proof. by vm_compute. Qed.

(** ** The selector and the service *)

Lemma rfilterM_true {A} (p : A -> res bool) (xs ys : list A) :
  rfilterM p xs = Ok ys -> Forall (fun y => p y = Ok true) ys /\ ys ⊆ xs.
Proof.
  revert ys. induction xs as [|x xs IH]; intros ys; simpl.
  - intros [= <-]. split; [constructor | done].
  - destruct (p x) as [b|e] eqn:Hp; [|done]. simpl.
    destruct (rfilterM p xs) as [ys'|e]; [|done]. simpl.
    destruct (IH ys' eq_refl) as [H1 H2].
    intros [= <-]. destruct b.
    + split; [by constructor|].
      intros z [-> | Hz]%elem_of_cons; [left | right; by apply H2].
    + split; [done|]. intros z Hz. right. by apply H2.
Qed.

Lemma rmapM_elem_of {A B} (f : A -> res B) (xs : list A) (ys : list B) (y : B) :
  rmapM f xs = Ok ys -> y ∈ ys -> exists x, x ∈ xs /\ f x = Ok y.
Proof.
  revert ys. induction xs as [|x xs IH]; intros ys; simpl.
  - intros [= <-] H. by apply elem_of_nil in H.
  - destruct (f x) as [y0|e] eqn:Hy; [|done]. simpl.
    destruct (rmapM f xs) as [ys'|e]; [|done]. simpl.
    intros [= <-] [-> | H]%elem_of_cons.
    + exists x. split; [left | done].
    + destruct (IH ys' eq_refl H) as (x' & Hx & Hf). exists x'. split; [by right | done].
Qed.

(** Every row of [parse_rows] is the normalization of an entry of the list
    under [DriverListData]. *)
Lemma parse_rows_entries (v : json) (rows : list Row) (r : Row) :
  parse_rows v = Ok rows -> r ∈ rows ->
  exists d, d ∈ entries_of v /\ normalize_row d = Ok r.
Proof.
  unfold parse_rows. destruct (negb (truthy v)).
  { intros [= <-] H. by apply elem_of_nil in H. }
  destruct (py_in "DriverListData" v) as [b|e]; [|done]. cbn [rbind].
  destruct (negb b).
  { intros [= <-] H. by apply elem_of_nil in H. }
  destruct v as [| | | | |m]; try done. cbn [py_getitem entries_of].
  destruct (m !! "DriverListData") as [x|]; [|done]. cbn [rbind].
  destruct x as [| | |s|l|m']; try done; cbn [py_iter rbind]; intros Hm Hr.
  - destruct (rmapM_elem_of _ _ _ _ Hm Hr) as (d & Hd & Hn).
    exfalso. clear -Hd Hn. induction s as [|c s IH]; simpl in Hd.
    + by apply elem_of_nil in Hd.
    + apply elem_of_cons in Hd as [-> | Hd]; [done | by apply IH].
  - by eapply rmapM_elem_of.
  - destruct (rmapM_elem_of _ _ _ _ Hm Hr) as (d & Hd & Hn).
    apply list_elem_of_fmap in Hd as (k & -> & _). done.
Qed.

Lemma find_latest_loop_rows (P : Row -> Prop) (net : network)
    (productcode country : string) (oscodes : list string) :
  forall (best best' : option Row) (st st' : state),
    (forall oscode st0 data st1 rows r,
       oscode ∈ oscodes ->
       call_dell_api net productcode oscode country 3 2 st0 = (Ok data, st1) ->
       cpld_rows_of data = Ok rows -> r ∈ rows -> P r) ->
    (forall b, best = Some b -> P b) ->
    find_latest_loop net productcode country oscodes best st = (Ok best', st') ->
    forall b, best' = Some b -> P b.
Proof.
  induction oscodes as [|oscode later IH]; intros best best' st st' HP Hbest;
    cbn [find_latest_loop].
  - by intros [= <- <-].
  - destruct (call_dell_api _ _ _ _ _ _ _) as [[data|e] st1] eqn:Hcall; [|done].
    destruct (cpld_rows_of data) as [rows|e] eqn:Hrows; [|done].
    assert (HP' : forall oscode0 st0 data0 st2 rows0 r,
              oscode0 ∈ later ->
              call_dell_api net productcode oscode0 country 3 2 st0 = (Ok data0, st2) ->
              cpld_rows_of data0 = Ok rows0 -> r ∈ rows0 -> P r).
    { intros ? ? ? ? ? ? Hin. apply HP. by right. }
    destruct (sort_desc sort_key date_ltb rows) as [|c t] eqn:Hsort.
    + by apply IH.
    + apply IH; [done|]. intros b Hb.
      assert (Hc : P c).
      { apply (HP oscode st data st1 rows c); [left | done | done |].
        assert (Hin : c ∈ sort_desc sort_key date_ltb rows) by (rewrite Hsort; left).
        by rewrite sort_desc_perm in Hin. }
      unfold keep_best in Hb. destruct best as [b0|]; [|by injection Hb as <-].
      destruct (date_ltb _ _); [by injection Hb as <-|]. by apply Hbest.
Qed.

Lemma find_latest_cpld_row (net : network) (productcode : string)
    (oscodes : option (list string)) (country : string) (st st' : state) (r : Row) :
  find_latest_cpld net productcode oscodes country st = (Ok (Some r), st') ->
  is_cpld r = Ok true
  /\ served_row net productcode country (effective_oscodes oscodes) r.
Proof.
  unfold find_latest_cpld. intros H.
  eapply (find_latest_loop_rows
            (fun r => is_cpld r = Ok true
                      /\ served_row net productcode country (effective_oscodes oscodes) r));
    [| |exact H|reflexivity]; [|done].
  intros oscode st0 data st1 rows r0 Hos Hcall Hrows Hr.
  unfold cpld_rows_of in Hrows.
  destruct (parse_rows data) as [rows0|e] eqn:Hp; [|done]. cbn [rbind] in Hrows.
  apply rfilterM_true in Hrows as [Htrue Hsub].
  split; [by apply (proj1 (Forall_forall _ _) Htrue)|].
  destruct (parse_rows_entries _ _ r0 Hp (Hsub _ Hr)) as (d & Hd & Hn).
  destruct (call_dell_api_outcome net productcode oscode country 3 2 st0)
    as (v & st2 & ws & Hc & _ & _ & _ & _ & _ & Hv); [lia | by vm_compute|].
  rewrite Hcall in Hc. injection Hc as <- <-.
  destruct Hv as [-> | (_ & n & _ & Hdel)].
  { by apply elem_of_nil in Hd. }
  by exists oscode, n, data, d.
Qed.

(** X8. Where the result comes from. A row that the selector returns
    passes the CPLD filter, and it is the normalization of an entry of a
    document that the service delivered, with HTTP 200 and a JSON content
    type, to a request for this product code and one of the OS codes
    queried: the selector never makes up a row, and never returns one that
    the filter turns down. *)
Theorem find_latest_cpld_served (net : network) (productcode : string)
    (oscodes : option (list string)) (country : string) (st st' : state) (r : Row) :
  find_latest_cpld net productcode oscodes country st = (Ok (Some r), st') ->
  is_cpld r = Ok true
  /\ served_row net productcode country (effective_oscodes oscodes) r.
Proof. apply find_latest_cpld_row. Qed.

Lemma find_latest_cpld_served_witness :
  is_cpld (row_of "System CPLD" "1.2" "01 Jun 2024" (Some (Date 2024 6 1))) = Ok true
  /\ served_row two_os_net "R750" COUNTRY (effective_oscodes (Some ["A"; "B"; "C"]))
       (row_of "System CPLD" "1.2" "01 Jun 2024" (Some (Date 2024 6 1))).
Proof.
  apply (find_latest_cpld_served two_os_net "R750" (Some ["A"; "B"; "C"]) COUNTRY start
           (find_latest_cpld two_os_net "R750" (Some ["A"; "B"; "C"]) COUNTRY start).2).
  vm_compute. reflexivity.
Defined.

Lemma find_latest_loop_requests (net : network) (productcode country : string)
    (oscodes : list string) :
  forall (best : option Row) (st st' : state) (result : option Row),
    find_latest_loop net productcode country oscodes best st = (Ok result, st') ->
    exists counts : list nat,
      List.length counts = List.length oscodes
      /\ Forall (fun c => (1 <= c <= 3)%nat) counts
      /\ sent st' = (sent st + sum_list counts)%nat
      /\ requests st'
         = (requests st ++ asked_in_turn productcode country oscodes counts)%list.
Proof.
  induction oscodes as [|oscode later IH]; intros best st st' result;
    cbn [find_latest_loop].
  - intros [= <- <-]. exists []. split; [done|]. split; [constructor|].
    split; [simpl; lia|]. unfold asked_in_turn. simpl. by rewrite app_nil_r.
  - destruct (call_dell_api_outcome net productcode oscode country 3 2 st)
      as (v & st1 & ws & -> & Hs & Hpos & Hr & _); [lia | by vm_compute|].
    specialize (Hpos ltac:(lia)).
    assert (Hgo : forall b,
              find_latest_loop net productcode country later b st1 = (Ok result, st') ->
              exists counts : list nat,
                List.length counts = List.length (oscode :: later)
                /\ Forall (fun c => (1 <= c <= 3)%nat) counts
                /\ sent st' = (sent st + sum_list counts)%nat
                /\ requests st'
                   = (requests st
                      ++ asked_in_turn productcode country (oscode :: later) counts)%list).
    { intros b H. apply IH in H as (counts & Hlen & Hall & Hsum & Hreq).
      exists ((sent st1 - sent st)%nat :: counts).
      split; [simpl; lia|]. split; [constructor; [lia | done]|].
      split; [simpl; lia|].
      rewrite Hreq, Hr, <- app_assoc. done. }
    destruct (cpld_rows_of v) as [rows|e]; [|done].
    destruct (sort_desc sort_key date_ltb rows) as [|c t]; apply Hgo.
Qed.

(** X9. No early termination. A call of the selector that returns has
    asked for every OS code of its list in turn, the five default codes
    when the list is empty or absent, also after a match was found: its
    requests are, for each code in the order of the list, between one and
    three requests for this product code and that code, and nothing else. *)
Theorem find_latest_cpld_queries_all (net : network) (productcode : string)
    (oscodes : option (list string)) (country : string) (st st' : state)
    (best : option Row) :
  find_latest_cpld net productcode oscodes country st = (Ok best, st') ->
  exists counts : list nat,
    List.length counts = List.length (effective_oscodes oscodes)
    /\ Forall (fun c => (1 <= c <= 3)%nat) counts
    /\ sent st' = (sent st + sum_list counts)%nat
    /\ requests st'
       = (requests st
          ++ asked_in_turn productcode country (effective_oscodes oscodes) counts)%list.
Proof. apply find_latest_loop_requests. Qed.

Lemma find_latest_cpld_queries_all_witness :
  exists counts : list nat,
    List.length counts = List.length (effective_oscodes None)
    /\ Forall (fun c => (1 <= c <= 3)%nat) counts
    /\ sent (find_latest_cpld flaky_net "R750" None COUNTRY start).2
       = (sent start + sum_list counts)%nat
    /\ requests (find_latest_cpld flaky_net "R750" None COUNTRY start).2
       = (requests start ++ asked_in_turn "R750" COUNTRY (effective_oscodes None) counts)%list.
Proof.
  apply (find_latest_cpld_queries_all flaky_net "R750" None COUNTRY start _
           (Some (row_of "System CPLD" "1.2" "10 Jan 2024" (Some (Date 2024 1 10))))).
  vm_compute. reflexivity.
Defined.

(** With the service that fails twice: three requests for the first code,
    one for each of the others. *)
Example find_latest_cpld_flaky_requests :
  requests (find_latest_cpld flaky_net "R750" None COUNTRY start).2
  = asked_in_turn "R750" COUNTRY DEFAULT_OSCODES [3; 1; 1; 1; 1]%nat.
Proof. by vm_compute. Qed.

Lemma find_latest_loop_nothing_delivered (net : network) (productcode country : string)
    (oscodes : list string) :
  (forall n rq w, ~ delivers (net n rq) w) ->
  forall (best : option Row) (st : state),
    exists st',
      find_latest_loop net productcode country oscodes best st = (Ok best, st')
      /\ sent st' = (sent st + 3 * List.length oscodes)%nat.
Proof.
  intros Hno. induction oscodes as [|oscode later IH]; intros best st;
    cbn [find_latest_loop List.length].
  - exists st. split; [done | lia].
  - destruct (call_dell_api_exhausts net productcode oscode country 3 2 st)
      as (st1 & ws & -> & Hs & _); [lia | by vm_compute | by intros; apply Hno|].
    change (cpld_rows_of JNull) with (Ok (@nil Row)). cbn [sort_desc].
    destruct (IH best st1) as (st' & -> & Hs').
    exists st'. split; [done | lia].
Qed.

(** X10. A service that is down. When no request is ever answered with a
    document, the selector raises nothing: it returns [None] for the
    product code, after three requests for each OS code of its list. *)
Theorem find_latest_cpld_nothing_delivered (net : network) (productcode : string)
    (oscodes : option (list string)) (country : string) (st : state) :
  (forall n rq w, ~ delivers (net n rq) w) ->
  exists st',
    find_latest_cpld net productcode oscodes country st = (Ok None, st')
    /\ sent st' = (sent st + 3 * List.length (effective_oscodes oscodes))%nat.
Proof. intros Hno. by apply find_latest_loop_nothing_delivered. Qed.

Lemma find_latest_cpld_nothing_delivered_witness :
  exists st',
    find_latest_cpld down_net "R750" (Some ["NAA"; "W2022"]) COUNTRY start = (Ok None, st')
    /\ sent st'
       = (sent start + 3 * List.length (effective_oscodes (Some ["NAA"; "W2022"])))%nat.
Proof.
  apply (find_latest_cpld_nothing_delivered down_net "R750" (Some ["NAA"; "W2022"])
           COUNTRY start).
  intros n rq w (r & H & _). discriminate H.
Defined.

(** ** The loop of [main] *)

Lemma dict_set_keys {V} (k : string) (v : V) (d : list (string * V)) :
  (dict_set k v d).*1 = if bool_decide (k ∈ d.*1) then d.*1 else (d.*1 ++ [k])%list.
Proof.
  induction d as [|[k' v'] d IH]; [done|]. cbn [dict_set].
  destruct (String.eqb k' k) eqn:E.
  - apply String.eqb_eq in E as ->. cbn. rewrite bool_decide_true; [done | left].
  - apply String.eqb_neq in E. rewrite !fmap_cons. cbn [fst]. rewrite IH.
    destruct (decide (k ∈ d.*1)) as [Hin|Hin].
    + rewrite !bool_decide_true; [done | by right | done].
    + rewrite !bool_decide_false; [done | | done].
      intros [?|?]%elem_of_cons; [congruence | done].
Qed.

Lemma main_loop_keys_from (net : network) (servers : list ServerEntry) :
  forall (data data' : list (string * option ResultRecord)) (st st' : state),
    main_loop net servers data st = (Ok data', st') ->
    NoDup data.*1 ->
    NoDup data'.*1
    /\ (forall pc, pc ∈ data'.*1 <-> pc ∈ data.*1 \/ pc ∈ productcode <$> servers)
    /\ (NoDup (data.*1 ++ (productcode <$> servers)) ->
        data'.*1 = (data.*1 ++ (productcode <$> servers))%list).
Proof.
  induction servers as [|s later IH]; intros data data' st st'; cbn [main_loop].
  - intros [= <- <-] Hnd. split; [done|]. split.
    + intros pc. rewrite fmap_nil, elem_of_nil. tauto.
    + intros _. by rewrite fmap_nil, app_nil_r.
  - destruct (find_latest_cpld _ _ _ _ _) as [[latest|e] st1]; [|done].
    intros H Hnd. apply IH in H.
    2:{ rewrite dict_set_keys. case_bool_decide; [done|].
        apply NoDup_app. split; [done|]. split; [|apply NoDup_singleton].
        intros x Hx ->%list_elem_of_singleton. done. }
    destruct H as (H1 & H2 & H3). split; [done|]. split.
    + intros pc. rewrite H2, dict_set_keys, fmap_cons, elem_of_cons.
      case_bool_decide as Hin.
      * split; [tauto|]. intros [?|[->|?]]; tauto.
      * rewrite elem_of_app, list_elem_of_singleton. tauto.
    + intros Hall. rewrite fmap_cons in Hall.
      assert (Hnot : productcode s ∉ data.*1).
      { apply NoDup_app in Hall as (_ & Hdis & _). intros Hin.
        apply (Hdis _ Hin). left. }
      rewrite dict_set_keys, bool_decide_false in H3 by done.
      rewrite <- app_assoc in H3. rewrite fmap_cons. apply H3.
      simpl. done.
Qed.

(** X11. The keys of the snapshot. When the loop of [main] ends, the data
    holds exactly one entry, a record or [None], for each configured
    product code and for nothing else; a product code configured twice has
    one entry. When the configured codes are all different, the entries are
    in the order of the configuration. *)
Theorem main_loop_keys (net : network) (servers : list ServerEntry) (st st' : state)
    (data : list (string * option ResultRecord)) :
  main_loop net servers [] st = (Ok data, st') ->
  NoDup data.*1
  /\ (forall pc, pc ∈ data.*1 <-> pc ∈ productcode <$> servers)
  /\ (NoDup (productcode <$> servers) -> data.*1 = productcode <$> servers).
Proof.
  intros H. apply main_loop_keys_from in H as (H1 & H2 & H3); [|constructor].
  split; [done|]. split; [|done].
  intros pc. rewrite H2. simpl. rewrite elem_of_nil. tauto.
Qed.

Lemma main_loop_keys_witness :
  NoDup repeated_data.*1
  /\ (forall pc, pc ∈ repeated_data.*1 <-> pc ∈ productcode <$> repeated_servers)
  /\ (NoDup (productcode <$> repeated_servers) ->
      repeated_data.*1 = productcode <$> repeated_servers).
Proof.
  apply (main_loop_keys scenario_net repeated_servers start
           (main_loop scenario_net repeated_servers [] start).2 repeated_data).
  vm_compute. reflexivity.
Defined.

(** ** A run on well-typed answers *)

Lemma text_or_nothing_field (v : json) :
  text_or_nothing v -> exists s, field_text v s.
Proof.
  intros [[s ->] | Hf].
  - exists s. by left.
  - exists "". by right.
Qed.

Lemma typed_entry_mapping (d : json) : typed_entry d -> mapping_entry d.
Proof. intros (m & -> & H & _). by exists m. Qed.

Lemma typed_entry_filter (d : json) (r : Row) :
  typed_entry d -> normalize_row d = Ok r -> exists b, is_cpld r = Ok b.
Proof.
  intros (m & -> & _ & Hn & Hc) Hr.
  apply normalize_row_mapping in Hr as (_ & _ & _ & _ & _ & Hname & Hcat).
  assert (Hn' : exists s, field_text (Name r) s).
  { rewrite Hname. destruct (m !! "DriverName"); simpl.
    - by apply text_or_nothing_field.
    - exists "". by left. }
  assert (Hc' : exists s, field_text (Category r) s).
  { rewrite Hcat. destruct (m !! "Category"); simpl.
    - by apply text_or_nothing_field.
    - exists "". by left. }
  destruct Hn' as [n Hn'], Hc' as [c Hc']. unfold is_cpld.
  rewrite (py_lower_field _ _ Hn'), (py_lower_field _ _ Hc'). simpl. eauto.
Qed.

Lemma rfilterM_total {A} (p : A -> res bool) (xs : list A) :
  Forall (fun x => exists b, p x = Ok b) xs -> exists ys, rfilterM p xs = Ok ys.
Proof.
  induction 1 as [|x xs [b Hb] _ [ys Hys]]; simpl; [eauto|].
  rewrite Hb, Hys. simpl. eauto.
Qed.

Lemma cpld_rows_of_typed (v : json) :
  typed_response v -> exists rows, cpld_rows_of v = Ok rows.
Proof.
  intros Hv. unfold cpld_rows_of.
  assert (Hrows : exists rows, parse_rows v = Ok rows
                    /\ Forall (fun r => exists b, is_cpld r = Ok b) rows).
  { destruct Hv as [Hf | (m & -> & Hm)]; unfold parse_rows.
    - rewrite Hf. simpl. eauto.
    - destruct (truthy (JObj m)); cbn [negb]; [|eauto].
      cbn [py_in rbind py_getitem].
      destruct (m !! "DriverListData") as [x|] eqn:E.
      + destruct Hm as (l & -> & Hl).
        rewrite bool_decide_true by eauto. cbn [negb rbind py_iter].
        destruct (rmapM_Forall2 normalize_row typed_entry l) as (rows & -> & H2).
        { intros d Hd. by apply normalize_row_ok, typed_entry_mapping. }
        { done. }
        exists rows. split; [done|].
        clear E. induction H2 as [|d r l rows Hr _ IH]; [constructor|].
        apply Forall_cons in Hl as [Hd Hl]. constructor; [|by apply IH].
        by apply (typed_entry_filter d).
      + rewrite bool_decide_false by (intros [? ?]; discriminate).
        cbn [negb]. eauto. }
  destruct Hrows as (rows & -> & Hall). cbn [rbind].
  by apply rfilterM_total.
Qed.

Lemma find_latest_loop_typed (net : network) (productcode country : string) :
  typed_network net ->
  forall (codes : list string) (best : option Row) (st : state),
    exists r st', find_latest_loop net productcode country codes best st = (Ok r, st').
Proof.
  intros Hnet codes. induction codes as [|oscode later IH]; intros best st;
    cbn [find_latest_loop]; [eauto|].
  destruct (call_dell_api_outcome net productcode oscode country 3 2 st)
    as (v & st1 & ws & -> & _ & _ & _ & _ & _ & Hv); [lia | by vm_compute|].
  assert (Ht : typed_response v).
  { destruct Hv as [-> | (_ & n & _ & Hd)]; [by left | by apply Hnet in Hd]. }
  destruct (cpld_rows_of_typed v Ht) as [rows ->].
  destruct (sort_desc sort_key date_ltb rows); apply IH.
Qed.

(** X12. On well-typed answers the run completes. When every document the
    service delivers is empty or a mapping whose [DriverListData] is a list
    of mappings with string (or absent) names and categories and a mapping
    (or absent) [FileFrmtInfo], the loop of [main] raises nothing, whatever
    else the service does: failures, other statuses and bodies that do not
    decode cost retries only. *)
Theorem main_loop_completes (net : network) (servers : list ServerEntry) (st : state) :
  typed_network net ->
  exists data st', main_loop net servers [] st = (Ok data, st').
Proof.
  intros Hnet. generalize (@nil (string * option ResultRecord)) as data.
  revert st. induction servers as [|s later IH]; intros st data;
    cbn [main_loop]; [eauto|].
  destruct (find_latest_loop_typed net (productcode s) COUNTRY Hnet
              (effective_oscodes (oscodes s)) None st) as (r & st1 & Hr).
  unfold find_latest_cpld. rewrite Hr. apply IH.
Qed.

Lemma scenario_net_typed : typed_network scenario_net.
Proof.
  intros n rq v (r & H & _ & _ & Hj). unfold scenario_net in H.
  destruct (String.eqb _ _); injection H as <-; simpl in Hj; injection Hj as <-;
    right; (eexists; split; [reflexivity|]); vm_compute lookup;
    (eexists; split; [reflexivity|]);
    (constructor; [|constructor]);
    (eexists; split; [reflexivity|]); vm_compute lookup;
    (split; [exact I|]); (split; [left; eauto | exact I]).
Qed.

Lemma main_loop_completes_witness :
  exists data st', main_loop scenario_net scenario_servers [] start = (Ok data, st').
Proof.
  apply (main_loop_completes scenario_net scenario_servers start).
  exact scenario_net_typed.
Defined.

(** ** More on [write_if_changed] *)

Module FSMore.
Import FS FSSpec FSFacts.

(** [mkdir] makes directories on the way to [p] only. *)
Lemma os_mkdir_on_path (p : path) (f f' : fs) :
  os_mkdir p f = Ok f' ->
  forall q, lookup_node q f' = lookup_node q f
            \/ (lookup_node q f = None /\ lookup_node q f' = Some Dir /\ q = p).
Proof.
  intros (Hp & Hnone & _ & ->)%os_mkdir_ok q.
  rewrite lookup_node_insert by done.
  destruct (decide (p = q)) as [<-|]; [by right | by left].
Qed.

Lemma mkdir_parents_upto_on_path (n : nat) :
  forall (p : path) (f f' : fs),
    mkdir_parents_upto n p f = Ok f' ->
    forall q, lookup_node q f' = lookup_node q f
              \/ (lookup_node q f = None /\ lookup_node q f' = Some Dir
                  /\ q `prefix_of` p).
Proof.
  induction n as [|n IH]; intros p f f'; cbn [mkdir_parents_upto];
    (destruct (os_mkdir p f) as [f1|e] eqn:E;
     [intros [= <-] q;
      destruct (os_mkdir_on_path _ _ _ E q) as [?|(?&?&->)]; [by left | by right]|]).
  - destruct (exn_cls e); try done;
      (destruct (is_dir p f); [|done]); intros [= <-] q; by left.
  - destruct (exn_cls e);
      try (destruct (is_dir p f); [|done]; intros [= <-] q; by left).
    destruct p as [|a p]; [done|].
    destruct (mkdir_parents_upto n (parent (a :: p)) f) as [f1|e1] eqn:E1; [|done].
    cbn [rbind]. unfold mkdir_exist_ok.
    destruct (os_mkdir (a :: p) f1) as [f2|e2] eqn:E2.
    + intros [= <-] q.
      destruct (IH _ _ _ E1 q) as [H1 | (H1 & H1' & Hq)],
               (os_mkdir_on_path _ _ _ E2 q) as [H2 | (H2 & H2' & ->)].
      * left. congruence.
      * right. split; [congruence|]. by split.
      * right. split; [done|]. split; [congruence|].
        etransitivity; [exact Hq | apply parent_prefix].
      * congruence.
    + destruct (is_dir (a :: p) f1); [|done]. intros [= <-] q.
      destruct (IH _ _ _ E1 q) as [H1 | (H1 & H1' & Hq)]; [by left|].
      right. split; [done|]. split; [done|].
      etransitivity; [exact Hq | apply parent_prefix].
Qed.

Lemma write_text_well_formed (p : path) (content : bytes) (f : fs) :
  p <> [] -> well_formed f -> is_dir (parent p) f = true ->
  lookup_node p f <> Some Dir ->
  well_formed (mkFs (<[p := File content]> (tree f)) (S (writes f))).
Proof.
  intros Hp Hwf Hd Hnd q n. simpl.
  assert (Hmono : forall x, is_dir x f = true ->
            is_dir x (mkFs (<[p := File content]> (tree f)) (S (writes f))) = true).
  { intros x. unfold is_dir. rewrite lookup_node_insert by done.
    destruct (decide (p = x)) as [<-|]; [|done].
    destruct (lookup_node p f) as [[c|]|]; done. }
  rewrite lookup_insert. destruct (decide (p = q)) as [<-|].
  - intros _. by apply Hmono.
  - intros H. by apply Hmono, (Hwf q n).
Qed.

Section Writer.
Variable sha256_hexdigest : bytes -> string.

(** X13. What a successful call leaves behind. The content can be encoded,
    and the target holds its bytes when a change is reported; when none is
    reported the target is as it was, and the text that was read there has
    the digest of the content. Every other path is as it was, but for
    directories made on the way to the parent of the target, where nothing
    was before. A well-formed file system stays well formed. *)
Theorem write_if_changed_frame (p : path) (content : text) (f f2 : fs) (b : bool) :
  write_if_changed sha256_hexdigest p content f = (Ok b, f2) ->
  exists ob nb,
    encode_utf8 (old_text p f) = Some ob
    /\ encode_utf8 content = Some nb
    /\ lookup_node p f2 = (if b then Some (File nb) else lookup_node p f)
    /\ (b = false -> sha256_hexdigest ob = sha256_hexdigest nb)
    /\ (forall q, q <> p ->
          lookup_node q f2 = lookup_node q f
          \/ (lookup_node q f = None /\ lookup_node q f2 = Some Dir
              /\ q `prefix_of` parent p))
    /\ (well_formed f -> well_formed f2).
Proof.
  intros (f1 & ob & nb & Hmk & Hsame & Hnd & Hp & Hd & Hread & Hob & Hnb & Hb & ->)
         %write_if_changed_ok.
  pose proof (mkdir_parents_upto_on_path _ _ _ _ Hmk) as Hpath.
  assert (Hwf1 : well_formed f -> well_formed f1)
    by (intros Hwf; by eapply mkdir_parents_upto_well_formed).
  exists ob, nb. split; [done|]. split; [done|]. destruct b.
  - split; [|split; [done|split]].
    + rewrite lookup_node_insert by done. by rewrite decide_True.
    + intros q Hq. rewrite lookup_node_insert by done.
      rewrite decide_False by done. apply Hpath.
    + intros Hwf. apply write_text_well_formed; auto. by rewrite Hsame.
  - split; [done|]. split; [|split; [|done]].
    + intros _. symmetry in Hb. by apply negb_false_iff, String.eqb_eq in Hb.
    + intros q _. apply Hpath.
Qed.

Lemma mkdir_parents_fails (p : path) (f : fs) (e : exn) :
  mkdir_parents p f = Raise e -> ~ no_file_on p f.
Proof.
  intros H Hno.
  destruct (mkdir_parents_upto_ok (List.length p) p f) as [f1 Hf1]; [done | done|].
  unfold mkdir_parents in H. congruence.
Qed.

(** What the writer finds at the target once the directories are there. *)
Lemma read_old (p : path) (f1 : fs) :
  match lookup_node p f1 with
  | Some Dir =>
      (if exists_ p f1 then read_text p f1 else Ok [])
      = Raise (Exn IsADirectoryError "Is a directory")
  | Some (File b) =>
      match decode_utf8 b with
      | Some s => (if exists_ p f1 then read_text p f1 else Ok []) = Ok (old_text p f1)
      | None => (if exists_ p f1 then read_text p f1 else Ok [])
                = Raise (Exn UnicodeDecodeError "invalid start byte")
      end
  | None => (if exists_ p f1 then read_text p f1 else Ok []) = Ok (old_text p f1)
  end.
Proof.
  unfold exists_, read_text, old_text, bytes_decode.
  destruct (lookup_node p f1) as [[b|]|]; [|done..]. by destruct (decode_utf8 b).
Qed.

Lemma old_text_encodable (p : path) (f : fs) : is_Some (encode_utf8 (old_text p f)).
Proof.
  unfold old_text. destruct (lookup_node p f) as [[b|]|]; try by eexists.
  destruct (decode_utf8 b) as [s|] eqn:E; [|by eexists].
  apply encode_utf8_Forall, universal_newlines_encodable.
  by apply (decode_utf8_encodable (List.length b) b).
Qed.

(** X14. A failed call writes nothing. When the call raises, no file has
    been written or changed, and at most directories on the way to the
    parent of the target have been made. In a file system that refuses
    nothing for lack of permission, space or the like, it raises in four
    cases only: the target is a directory ([IsADirectoryError]); a regular
    file stands where a directory is needed, and then the file system is
    untouched; the file at the target is not UTF-8 ([UnicodeDecodeError]);
    the content has a surrogate and cannot be encoded
    ([UnicodeEncodeError]). *)
Theorem write_if_changed_failure (p : path) (content : text) (f f1 : fs) (e : exn) :
  write_if_changed sha256_hexdigest p content f = (Raise e, f1) ->
  grows_to (parent p) f f1
  /\ ((lookup_node p f = Some Dir /\ exn_cls e = IsADirectoryError)
      \/ (f1 = f /\ ~ no_file_on (parent p) f)
      \/ (~ readable p f /\ exn_cls e = UnicodeDecodeError)
      \/ (encode_utf8 content = None /\ exn_cls e = UnicodeEncodeError)).
Proof.
  unfold write_if_changed.
  destruct (mkdir_parents (parent p) f) as [f0|e0] eqn:Hmk.
  2:{ intros [= <- <-]. split; [apply grows_to_refl|]. right. left.
      split; [done|]. by eapply mkdir_parents_fails. }
  pose proof Hmk as [G D]%mkdir_parents_upto_grows.
  assert (Hsame : lookup_node p f0 = lookup_node p f).
  { destruct (decide (p = [])) as [->|Hp]; [done|].
    destruct G as [_ G]. destruct (G p) as [E | (_ & _ & L)]; [done|].
    pose proof (parent_length p Hp). lia. }
  pose proof (read_old p f0) as Hold. rewrite Hsame in Hold.
  destruct (old_text_encodable p f0) as [ob Hob%str_encode_Ok].
  destruct (lookup_node p f) as [[b|]|] eqn:Hp.
  - destruct (decode_utf8 b) as [s|] eqn:Hdec.
    + rewrite Hold, Hob.
      destruct (str_encode content) as [nb|e1] eqn:Hnb.
      * destruct (negb _); [|done]. unfold write_text. rewrite Hsame, Hnb.
        unfold is_dir in D.
        destruct (lookup_node (parent p) f0) as [[c'|]|]; done.
      * intros [= <- <-]. split; [done|]. right. right. right.
        unfold str_encode in Hnb. destruct (encode_utf8 content); [done|].
        by injection Hnb as <-.
    + rewrite Hold. intros [= <- <-]. split; [done|]. right. right. left.
      split; [|done]. intros Hr. destruct (Hr b Hp) as [s Hs]. congruence.
  - rewrite Hold. intros [= <- <-]. split; [done|]. by left.
  - rewrite Hold, Hob.
    destruct (str_encode content) as [nb|e1] eqn:Hnb.
    + destruct (negb _); [|done]. unfold write_text. rewrite Hsame, Hnb.
      unfold is_dir in D.
      destruct (lookup_node (parent p) f0) as [[c'|]|]; done.
    + intros [= <- <-]. split; [done|]. right. right. right.
      unfold str_encode in Hnb. destruct (encode_utf8 content); [done|].
        by injection Hnb as <-.
Qed.

(** X15. When the call succeeds. In a well-formed file system that refuses
    nothing for lack of permission, space or the like, the call returns,
    raising nothing, exactly when no regular file stands where a directory
    of the target is needed, the target is not a directory, the file at the
    target, if there is one, is UTF-8, and the content has no surrogate. *)
Theorem write_if_changed_returns_iff (p : path) (content : text) (f : fs) :
  well_formed f ->
  (exists b f2, write_if_changed sha256_hexdigest p content f = (Ok b, f2))
  <-> (no_file_on (parent p) f /\ lookup_node p f <> Some Dir
       /\ readable p f /\ is_Some (encode_utf8 content)).
Proof.
  intros Hwf. split.
  - intros (b & f2 & (f1 & ob & nb & Hmk & Hsame & Hnd & Hp & Hd & Hread & _ & Hnb & _)
                     %write_if_changed_ok).
    split; [|split; [done|split; [done|by eexists]]]. intros q c Hq Hfile.
    pose proof Hmk as [[_ G] _]%mkdir_parents_upto_grows.
    assert (Hq1 : is_dir q f1 = true).
    { eapply ancestors_are_dirs; [|exact Hd|exact Hq].
      by eapply mkdir_parents_upto_well_formed. }
    unfold is_dir in Hq1.
    destruct (G q) as [E | (E & _)]; [|congruence].
    rewrite E, Hfile in Hq1. done.
  - intros (Hno & Hnd & Hread & [nb Hnb%str_encode_Ok]).
    destruct (mkdir_parents_upto_ok (List.length (parent p)) (parent p) f)
      as [f1 Hmk]; [done | done|].
    pose proof Hmk as [[_ G] D]%mkdir_parents_upto_grows.
    assert (Hp : p <> []) by (intros ->; done).
    assert (Hsame : lookup_node p f1 = lookup_node p f).
    { destruct (G p) as [E | (_ & _ & L)]; [done|].
      pose proof (parent_length p Hp). lia. }
    unfold write_if_changed, mkdir_parents. rewrite Hmk.
    pose proof (read_old p f1) as Hold. rewrite Hsame in Hold.
    destruct (old_text_encodable p f1) as [ob Hob%str_encode_Ok].
    assert (Hrd : (if exists_ p f1 then read_text p f1 else Ok []) = Ok (old_text p f1)).
    { destruct (lookup_node p f) as [[b|]|] eqn:E; [|done|done].
      destruct (Hread b E) as [s Hs]. by rewrite Hs in Hold. }
    rewrite Hrd, Hob, Hnb. destruct (negb _); [|eauto].
    unfold write_text. rewrite Hsame, Hnb. unfold is_dir in D.
    destruct (lookup_node p f) as [[c|]|]; [|done|];
      destruct (lookup_node (parent p) f1) as [[c'|]|]; try done; eauto.
Qed.
End Writer.

Lemma write_if_changed_frame_witness :
  exists ob nb,
    encode_utf8 (old_text snapshot_path empty_fs) = Some ob
    /\ encode_utf8 braces = Some nb
    /\ lookup_node snapshot_path (write_if_changed raw_digest snapshot_path braces empty_fs).2
       = (if true then Some (File nb) else lookup_node snapshot_path empty_fs)
    /\ (true = false -> raw_digest ob = raw_digest nb)
    /\ (forall q, q <> snapshot_path ->
          lookup_node q (write_if_changed raw_digest snapshot_path braces empty_fs).2
          = lookup_node q empty_fs
          \/ (lookup_node q empty_fs = None
              /\ lookup_node q (write_if_changed raw_digest snapshot_path braces empty_fs).2
                 = Some Dir
              /\ q `prefix_of` parent snapshot_path))
    /\ (well_formed empty_fs ->
        well_formed (write_if_changed raw_digest snapshot_path braces empty_fs).2).
Proof.
  apply (write_if_changed_frame raw_digest snapshot_path braces empty_fs).
  vm_compute. reflexivity.
Defined.

Lemma write_if_changed_failure_witness :
  grows_to (parent snapshot_path) empty_fs
    (write_if_changed raw_digest snapshot_path lone_surrogate empty_fs).2
  /\ ((lookup_node snapshot_path empty_fs = Some Dir
       /\ exn_cls (Exn UnicodeEncodeError "surrogates not allowed") = IsADirectoryError)
      \/ ((write_if_changed raw_digest snapshot_path lone_surrogate empty_fs).2 = empty_fs
          /\ ~ no_file_on (parent snapshot_path) empty_fs)
      \/ (~ readable snapshot_path empty_fs
          /\ exn_cls (Exn UnicodeEncodeError "surrogates not allowed") = UnicodeDecodeError)
      \/ (encode_utf8 lone_surrogate = None
          /\ exn_cls (Exn UnicodeEncodeError "surrogates not allowed") = UnicodeEncodeError)).
Proof.
  apply (write_if_changed_failure raw_digest snapshot_path lone_surrogate empty_fs).
  vm_compute. reflexivity.
Defined.

Lemma empty_fs_well_formed : well_formed empty_fs.
Proof. intros q n H. simpl in H. by rewrite lookup_empty in H. Qed.

Lemma write_if_changed_returns_iff_witness :
  (exists b f2, write_if_changed raw_digest snapshot_path braces empty_fs = (Ok b, f2))
  <-> (no_file_on (parent snapshot_path) empty_fs
       /\ lookup_node snapshot_path empty_fs <> Some Dir
       /\ readable snapshot_path empty_fs /\ is_Some (encode_utf8 braces)).
Proof.
  apply (write_if_changed_returns_iff raw_digest snapshot_path braces empty_fs).
  exact empty_fs_well_formed.
Defined.

(** The target is a directory; the file there is not UTF-8; a file is in
    the way of the directory. *)
Example write_if_changed_on_a_directory :
  (write_if_changed raw_digest ["docs"] braces written_fs).1
  = Raise (Exn IsADirectoryError "Is a directory").
Proof. by vm_compute. Qed.

Example write_if_changed_not_utf8 :
  write_if_changed raw_digest snapshot_path braces latin1_fs
  = (Raise (Exn UnicodeDecodeError "invalid start byte"), latin1_fs).
Proof. by vm_compute. Qed.
End FSMore.

(** ** A steady service *)

Lemma try_body_steady (net : network) (rq : request) (backoff : Z) (attempt : nat)
    (st st0 : state) :
  steady net ->
  (try_body net rq backoff attempt st).1 = (try_body net rq backoff attempt st0).1.
Proof.
  intros Hs. unfold try_body, http_get. rewrite (Hs (sent st) (sent st0)).
  destruct (net (sent st0) rq) as [resp|e]; [|done].
  destruct (_ && _).
  - by destruct (resp_json resp).
  - unfold py_sleep. destruct (_ || _); [done|]. by destruct (_ <? 0).
Qed.

Lemma attempt_loop_steady (net : network) (rq : request) (backoff : Z) :
  steady net ->
  forall (attempts : list nat) (last_exc : option exn) (st st0 : state),
    (attempt_loop net rq backoff attempts last_exc st).1
    = (attempt_loop net rq backoff attempts last_exc st0).1.
Proof.
  intros Hs. induction attempts as [|a later IH]; intros last_exc st st0; [done|].
  cbn [attempt_loop].
  pose proof (try_body_steady net rq backoff a st st0 Hs) as H.
  destruct (try_body net rq backoff a st) as [t st1],
           (try_body net rq backoff a st0) as [t0 st2].
  simpl in H. subst t0. destruct t as [v| |e]; [done | apply IH|].
  unfold py_sleep. destruct (_ || _); [done|]. destruct (_ <? 0); [done | apply IH].
Qed.

Lemma call_dell_api_steady (net : network) (productcode oscode country : string)
    (retries : nat) (backoff : Z) (st st0 : state) :
  steady net ->
  (call_dell_api net productcode oscode country retries backoff st).1
  = (call_dell_api net productcode oscode country retries backoff st0).1.
Proof.
  intros Hs. unfold call_dell_api.
  pose proof (attempt_loop_steady net (build_request productcode oscode country)
                backoff Hs (seq 1 retries) None st st0) as H.
  destruct (attempt_loop _ _ _ _ _ st) as [l st1],
           (attempt_loop _ _ _ _ _ st0) as [l0 st2].
  simpl in H. subst l0. destruct l as [v|[e|]|e]; done.
Qed.

Lemma find_latest_loop_steady (net : network) (productcode country : string) :
  steady net ->
  forall (codes : list string) (best : option Row) (st st0 : state),
    (find_latest_loop net productcode country codes best st).1
    = (find_latest_loop net productcode country codes best st0).1.
Proof.
  intros Hs codes. induction codes as [|oscode later IH]; intros best st st0; [done|].
  cbn [find_latest_loop].
  pose proof (call_dell_api_steady net productcode oscode country 3 2 st st0 Hs) as H.
  destruct (call_dell_api _ _ _ _ _ _ st) as [r st1],
           (call_dell_api _ _ _ _ _ _ st0) as [r0 st2].
  simpl in H. subst r0. destruct r as [v|e]; [|done].
  destruct (cpld_rows_of v) as [rows|e]; [|done].
  destruct (sort_desc sort_key date_ltb rows); apply IH.
Qed.

Lemma main_loop_steady_from (net : network) :
  steady net ->
  forall (servers : list ServerEntry) (data0 data : list (string * option ResultRecord))
         (st st' : state),
    main_loop net servers data0 st = (Ok data, st') ->
    data = foldl (fun d s => dict_set (productcode s) (entry_alone net s) d) data0 servers.
Proof.
  intros Hs. induction servers as [|s later IH]; intros data0 data st st';
    cbn [main_loop foldl].
  - by intros [= <- _].
  - pose proof (find_latest_loop_steady net (productcode s) COUNTRY Hs
                  (effective_oscodes (oscodes s)) None st start) as H.
    unfold entry_alone, find_latest_cpld in *.
    destruct (find_latest_loop _ _ _ _ _ st) as [r st1]. simpl in H. rewrite <- H.
    destruct r as [latest|e]; [|done]. apply IH.
Qed.

(** X16. No leak between servers. On a service whose answers do not depend
    on when they are asked for, the snapshot is put together server by
    server: going through the configuration in order, each product code
    gets the entry that a run for that server alone would store, whatever
    was asked, retried or slept before it. *)
Theorem main_loop_steady (net : network) (servers : list ServerEntry)
    (data : list (string * option ResultRecord)) (st st' : state) :
  steady net ->
  main_loop net servers [] st = (Ok data, st') ->
  data = foldl (fun d s => dict_set (productcode s) (entry_alone net s) d) [] servers.
Proof. intros Hs. by apply main_loop_steady_from. Qed.

Lemma scenario_net_steady : steady scenario_net.
Proof. by intros n m rq. Qed.

Lemma main_loop_steady_witness :
  repeated_data
  = foldl (fun d s => dict_set (productcode s) (entry_alone scenario_net s) d) []
      repeated_servers.
Proof.
  apply (main_loop_steady scenario_net repeated_servers repeated_data start
           (main_loop scenario_net repeated_servers [] start).2).
  - exact scenario_net_steady.
  - vm_compute. reflexivity.
Defined.

(** ** ISO texts and the order of dates *)

Lemma digit_char_mod (n : Z) : digit_char n = digit_char (n mod 10).
Proof. unfold digit_char. by rewrite Z.mod_mod. Qed.

Lemma digit_char_code (k : Z) :
  0 <= k < 10 -> Z.of_nat (nat_of_ascii (digit_char k)) = 48 + k.
Proof.
  intros Hk. unfold digit_char. rewrite Z.mod_small by done.
  rewrite nat_ascii_embedding by lia. lia.
Qed.

Lemma zero_padded_2 (n : Z) (acc : string) :
  0 <= n <= 99 ->
  exists a b, 0 <= a < 10 /\ 0 <= b < 10 /\ n = 10 * a + b
    /\ zero_padded 2 n acc = String (digit_char a) (String (digit_char b) acc).
Proof.
  intros Hn. exists (n / 10), (n mod 10).
  pose proof (Z.mod_pos_bound n 10 ltac:(lia)).
  pose proof (Z.div_mod n 10 ltac:(lia)).
  assert (0 <= n / 10 < 10).
  { split; [apply Z.div_pos; lia | apply Z.div_lt_upper_bound; lia]. }
  split; [done|]. split; [done|]. split; [lia|].
  cbn [zero_padded]. by rewrite (digit_char_mod n).
Qed.

Lemma zero_padded_4 (n : Z) (acc : string) :
  0 <= n <= 9999 ->
  exists a b c d, 0 <= a < 10 /\ 0 <= b < 10 /\ 0 <= c < 10 /\ 0 <= d < 10
    /\ n = 1000 * a + 100 * b + 10 * c + d
    /\ zero_padded 4 n acc
       = String (digit_char a) (String (digit_char b)
           (String (digit_char c) (String (digit_char d) acc))).
Proof.
  intros Hn.
  exists (n / 10 / 10 / 10), ((n / 10 / 10) mod 10), ((n / 10) mod 10), (n mod 10).
  pose proof (Z.mod_pos_bound n 10 ltac:(lia)).
  pose proof (Z.mod_pos_bound (n / 10) 10 ltac:(lia)).
  pose proof (Z.mod_pos_bound (n / 10 / 10) 10 ltac:(lia)).
  pose proof (Z.div_mod n 10 ltac:(lia)).
  pose proof (Z.div_mod (n / 10) 10 ltac:(lia)).
  pose proof (Z.div_mod (n / 10 / 10) 10 ltac:(lia)).
  split_and!; try lia.
  cbn [zero_padded].
  by rewrite (digit_char_mod (n / 10 / 10)), (digit_char_mod (n / 10)), (digit_char_mod n).
Qed.

Lemma str_ltb_digit (a b : Z) (s t : string) :
  0 <= a < 10 -> 0 <= b < 10 ->
  str_ltb (String (digit_char a) s) (String (digit_char b) t) = true
  <-> a < b \/ (a = b /\ str_ltb s t = true).
Proof.
  intros Ha Hb. rewrite str_ltb_cons.
  pose proof (digit_char_code a Ha). pose proof (digit_char_code b Hb).
  split; (intros [?|[? ?]]; [left | right; split; [|done]]); lia.
Qed.

Lemma str_ltb_same (c : ascii) (s t : string) :
  str_ltb (String c s) (String c t) = true <-> str_ltb s t = true.
Proof. rewrite str_ltb_cons. split; [intros [?|[_ ?]]; [lia | done] | by right]. Qed.

(** On dates of four-digit years the order of the ISO texts is the order
    of the dates. *)
Lemma isoformat_order (d1 d2 : date) :
  valid_date d1 -> valid_date d2 ->
  str_ltb (isoformat d1) (isoformat d2) = date_ltb d1 d2.
Proof.
  intros (Hy1 & Hm1 & Hd1) (Hy2 & Hm2 & Hd2).
  pose proof (days_in_month_le (year d1) (month d1)).
  pose proof (days_in_month_le (year d2) (month d2)).
  apply eq_true_iff_eq. rewrite date_ltb_spec. unfold isoformat.
  destruct (zero_padded_2 (day d1) "") as (a1 & b1 & ? & ? & E1 & ->); [lia|].
  destruct (zero_padded_2 (day d2) "") as (a2 & b2 & ? & ? & E2 & ->); [lia|].
  destruct (zero_padded_2 (month d1) ("-" +:+ String (digit_char a1) (String (digit_char b1) "")))
    as (m1 & n1 & ? & ? & F1 & ->); [lia|].
  destruct (zero_padded_2 (month d2) ("-" +:+ String (digit_char a2) (String (digit_char b2) "")))
    as (m2 & n2 & ? & ? & F2 & ->); [lia|].
  match goal with |- context [zero_padded 4 (year d1) ?acc] =>
    destruct (zero_padded_4 (year d1) acc) as (p1 & q1 & r1 & s1 & ? & ? & ? & ? & G1 & ->);
      [lia|] end.
  match goal with |- context [zero_padded 4 (year d2) ?acc] =>
    destruct (zero_padded_4 (year d2) acc) as (p2 & q2 & r2 & s2 & ? & ? & ? & ? & G2 & ->);
      [lia|] end.
  repeat change ("-" +:+ ?s) with (String "-"%char s).
  rewrite !str_ltb_digit by done. rewrite (str_ltb_same "-"%char).
  rewrite !str_ltb_digit by done. rewrite (str_ltb_same "-"%char).
  rewrite !str_ltb_digit by done.
  change (str_ltb "" "" = true) with (false = true).
  rewrite E1, E2, F1, F2, G1, G2.
  split; intros; destruct_or?; destruct_and?; try discriminate; lia.
Qed.

(** ** The catalog lookup on ISO dates *)

Module CatalogMore.
Import Catalog CatalogSpec CatalogDates CatalogFacts.

Lemma best_is_kept (root : Element) (model_hint : string) (e : entry) :
  best_cpld_for_model_from_catalog root model_hint = Some e ->
  exists comp,
    comp ∈ descendants "SoftwareComponent" root
    /\ matches_hint model_hint comp
    /\ e = (entry_of comp).2
    /\ forall other,
         other ∈ descendants "SoftwareComponent" root ->
         matches_hint model_hint other ->
         str_ltb (field "ReleaseDate" comp) (field "ReleaseDate" other) = false.
Proof.
  intros He.
  pose proof (best_of_candidates (candidates_of root model_hint)) as H.
  fold (best_cpld_for_model_from_catalog root model_hint) in H.
  rewrite He in H. destruct H as (h & Hg & ->).
  unfold candidates_of in Hg.
  apply first_greatest_fmap in Hg as (comp & -> & Hg).
  set (hl := lower (replace_hyphens model_hint)) in *.
  assert (Hkept : forall c,
            c ∈ List.filter (is_candidate hl) (descendants "SoftwareComponent" root)
            <-> c ∈ descendants "SoftwareComponent" root /\ matches_hint model_hint c).
  { intros c. rewrite list_elem_of_In, filter_In, <- list_elem_of_In.
    unfold hl. by rewrite is_candidate_spec. }
  assert (Hin : comp ∈ List.filter (is_candidate hl)
                        (descendants "SoftwareComponent" root)).
  { destruct Hg as (l1 & l2 & -> & _). apply elem_of_app. right. left. }
  apply Hkept in Hin as [Hin Hm].
  exists comp. split; [done|]. split; [done|]. split; [done|].
  intros other Ho Hmo.
  apply (first_greatest_bound (fun a => (entry_of a).1) str_ltb str_ltb_asym _ _ _ Hg).
  by apply Hkept.
Qed.

(** X17. Newest by date. When the release date of every component that the
    lookup keeps is the ISO text of a calendar date, the record returned is
    that of a kept component released on the latest of these dates: no kept
    component is of a later date. *)
Theorem best_cpld_is_newest (root : Element) (model_hint : string) (e : entry) :
  (forall comp, comp ∈ descendants "SoftwareComponent" root ->
                matches_hint model_hint comp -> exists d, released_on comp d) ->
  best_cpld_for_model_from_catalog root model_hint = Some e ->
  exists comp d,
    comp ∈ descendants "SoftwareComponent" root
    /\ matches_hint model_hint comp
    /\ e = (entry_of comp).2
    /\ released_on comp d
    /\ forall other d',
         other ∈ descendants "SoftwareComponent" root ->
         matches_hint model_hint other ->
         released_on other d' -> date_ltb d d' = false.
Proof.
  intros Hiso (comp & Hin & Hm & -> & Hmax)%best_is_kept.
  destruct (Hiso comp Hin Hm) as [d Hd].
  exists comp, d. split_and!; try done.
  intros other d' Ho Hmo [Hv' Hf'].
  destruct Hd as [Hv Hf].
  rewrite <- (isoformat_order d d') by done. rewrite <- Hf, <- Hf'. by apply Hmax.
Qed.

Lemma small_catalog_iso (comp : Element) :
  comp ∈ descendants "SoftwareComponent" small_catalog ->
  exists d, released_on comp d.
Proof.
  intros H. vm_compute descendants in H.
  repeat (apply elem_of_cons in H as [-> | H]).
  - exists (Date 2023 4 1). split; [by vm_compute | by vm_compute].
  - exists (Date 2024 2 15). split; [by vm_compute | by vm_compute].
  - exists (Date 2025 1 1). split; [by vm_compute | by vm_compute].
  - exists (Date 2024 1 10). split; [by vm_compute | by vm_compute].
  - by apply elem_of_nil in H.
Qed.

Lemma best_cpld_is_newest_witness :
  exists comp d,
    comp ∈ descendants "SoftwareComponent" small_catalog
    /\ matches_hint "R750" comp
    /\ (entry_of (component "Backplane" "CPLD firmware" "2024-01-10" "PowerEdge R750")).2
       = (entry_of comp).2
    /\ released_on comp d
    /\ forall other d',
         other ∈ descendants "SoftwareComponent" small_catalog ->
         matches_hint "R750" other ->
         released_on other d' -> date_ltb d d' = false.
Proof.
  apply (best_cpld_is_newest small_catalog "R750").
  - intros comp H _. by apply small_catalog_iso.
  - vm_compute. reflexivity.
Defined.

(** On the vendor's "DD Mon YYYY" texts the order of strings is not that
    of the dates: the component of January 2024 wins over that of May
    2025. *)
Example best_cpld_vendor_dates :
  e_release_date <$> best_cpld_for_model_from_catalog vendor_dated_catalog "R750"
  = Some "10 Jan 2024".
Proof. by vm_compute. Qed.
End CatalogMore.
